(** * U校园全自动助手 v19.0: the answering engine and the task sequencer

    A shallow embedding of the userscript's [doAnswer],
    [getPageContextAndAnswers], the task handlers and [main], with the
    properties of its specification stated over it.

    Conventions.
    - A JavaScript string is a [string] holding its UTF-8 bytes.  Equality,
      [includes], [split('\n')] and the ASCII character classes commute
      with that encoding.  The white space of [\s] and [trim], which has
      characters of two and of three bytes, is recognised in its encoding;
      the strings are taken to be well formed, so that a character never
      starts inside another one.
    - The page is a record of what each selector of the script returns.
    - The script runs on one thread and yields at every [await] and at every
      dispatched DOM event.  What the host page and the user do there is an
      arbitrary function [env] of the event and the current state.
    - Every effect of the script is appended to a trace of events. *)

From Stdlib Require Import Ascii QArith.
From stdpp Require Import base strings gmap list.

Open Scope string_scope.
Open Scope list_scope.

(** ** Strings *)

Module Str.

Definition code (c : ascii) : nat := nat_of_ascii c.

(** [[A-Z]] *)
Definition isUpper (c : ascii) : bool :=
  Nat.leb 65 (code c) && Nat.leb (code c) 90.

(** [\d] *)
Definition isDigit (c : ascii) : bool :=
  Nat.leb 48 (code c) && Nat.leb (code c) 57.

(** The white space of one byte: U+0009 to U+000D and U+0020 *)
Definition space1 (a : nat) : bool :=
  (Nat.leb 9 a && Nat.leb a 13) || Nat.eqb a 32.

(** The white space of two bytes: U+00A0 *)
Definition space2 (a b : nat) : bool := Nat.eqb a 194 && Nat.eqb b 160.

(** The white space of three bytes: U+1680, U+2000 to U+200A, U+2028,
    U+2029, U+202F, U+205F, U+3000 and U+FEFF *)
Definition space3 (a b c : nat) : bool :=
  (Nat.eqb a 225 && Nat.eqb b 154 && Nat.eqb c 128)
  || (Nat.eqb a 226 && Nat.eqb b 128
      && ((Nat.leb 128 c && Nat.leb c 138)
          || Nat.eqb c 168 || Nat.eqb c 169 || Nat.eqb c 175))
  || (Nat.eqb a 226 && Nat.eqb b 129 && Nat.eqb c 159)
  || (Nat.eqb a 227 && Nat.eqb b 128 && Nat.eqb c 128)
  || (Nat.eqb a 239 && Nat.eqb b 187 && Nat.eqb c 191).

(** [\s], and the white space that [trim] removes: the number of bytes of
    the white-space character that [s] starts with, 0 if it starts with
    none. *)
Definition spaceLen (s : string) : nat :=
  match s with
  | String a r =>
      if space1 (code a) then 1
      else
        match r with
        | String b r' =>
            if space2 (code a) (code b) then 2
            else
              match r' with
              | String c _ => if space3 (code a) (code b) (code c) then 3 else 0
              | EmptyString => 0
              end
        | EmptyString => 0
        end
  | EmptyString => 0
  end.

Definition isNewline (c : ascii) : bool := Nat.eqb (code c) 10.

Definition isEmpty (s : string) : bool :=
  match s with EmptyString => true | String _ _ => false end.

(** JavaScript truthiness of a string *)
Definition truthy (s : string) : bool := negb (isEmpty s).

(** The functions that read white space go through the bytes with the
    number [skip] of bytes that are left of the white-space character they
    are in. *)

Fixpoint trimStartFrom (skip : nat) (s : string) : string :=
  match s with
  | EmptyString => EmptyString
  | String c r =>
      match skip with
      | S k => trimStartFrom k r
      | O =>
          match spaceLen s with
          | S k => trimStartFrom k r
          | O => s
          end
      end
  end.

Definition trimStart (s : string) : string := trimStartFrom 0 s.

(** The bytes of a white-space character stay if something that is not
    white space comes after them. *)
Fixpoint trimEndFrom (skip : nat) (s : string) : string :=
  match s with
  | EmptyString => EmptyString
  | String c r =>
      match skip with
      | S k =>
          match trimEndFrom k r with
          | EmptyString => EmptyString
          | r' => String c r'
          end
      | O =>
          match spaceLen s with
          | S k =>
              match trimEndFrom k r with
              | EmptyString => EmptyString
              | r' => String c r'
              end
          | O => String c (trimEndFrom 0 r)
          end
      end
  end.

Definition trimEnd (s : string) : string := trimEndFrom 0 s.

(** [s.trim()] *)
Definition trim (s : string) : string := trimEnd (trimStart s).

Fixpoint removeSpacesFrom (skip : nat) (s : string) : string :=
  match s with
  | EmptyString => EmptyString
  | String c r =>
      match skip with
      | S k => removeSpacesFrom k r
      | O =>
          match spaceLen s with
          | S k => removeSpacesFrom k r
          | O => String c (removeSpacesFrom 0 r)
          end
      end
  end.

(** [s.replace(/\s+/g, '')] *)
Definition removeSpaces (s : string) : string := removeSpacesFrom 0 s.

(** [s.split('\n')] *)
Fixpoint splitLines (s : string) : list string :=
  match s with
  | EmptyString => [EmptyString]
  | String c r =>
      if isNewline c then EmptyString :: splitLines r
      else match splitLines r with
           | h :: t => String c h :: t
           | [] => [String c EmptyString]
           end
  end.

Fixpoint dropDigits (s : string) : string :=
  match s with
  | EmptyString => EmptyString
  | String c r => if isDigit c then dropDigits r else s
  end.

Fixpoint takeDigits (s : string) : string :=
  match s with
  | EmptyString => EmptyString
  | String c r => if isDigit c then String c (takeDigits r) else EmptyString
  end.

Definition dropChar (ch : ascii) (s : string) : string :=
  match s with
  | String c r => if Ascii.eqb c ch then r else s
  | EmptyString => EmptyString
  end.

(** [line.replace(/^\d+\.?\)?\s*/, '')]: every quantifier is greedy and
    every part after the digits may match the empty string, so the match,
    when the line starts with a digit, is the longest run of digits, then a
    dot if there is one, then a closing parenthesis if there is one, then
    all the white space that follows. *)
Definition stripOrdinal (line : string) : string :=
  match line with
  | String c _ =>
      if isDigit c
      then trimStart (dropChar ")" (dropChar "." (dropDigits line)))
      else line
  | EmptyString => EmptyString
  end.

(** The tail [(?:\s*[A-Z])*$] of the letter pattern, as the automaton of the
    expression: [pending] tells that white space was read since the last
    letter, so that a letter has to follow. *)
Fixpoint lettersTailFrom (skip : nat) (pending : bool) (s : string) : bool :=
  match s with
  | EmptyString =>
      match skip with
      | O => negb pending
      | S _ => false
      end
  | String c r =>
      match skip with
      | S k => lettersTailFrom k pending r
      | O =>
          if isUpper c then lettersTailFrom 0 false r
          else
            match spaceLen s with
            | S k => lettersTailFrom k true r
            | O => false
            end
      end
  end.

Definition lettersTail (pending : bool) (s : string) : bool :=
  lettersTailFrom 0 pending s.

(** [/^[A-Z](?:\s*[A-Z])*$/.test(s)] *)
Definition lettersPattern (s : string) : bool :=
  match s with
  | EmptyString => false
  | String c r => isUpper c && lettersTail false r
  end.

(** [s.includes(needle)] *)
Fixpoint includes (s needle : string) : bool :=
  String.prefix needle s ||
  match s with
  | EmptyString => false
  | String _ r => includes r needle
  end.

(** [s.match(/(\d+)-\d+/)], its first group.  The engine tries every start
    from the left; at a digit the greedy [\d+] takes the whole run, and
    giving digits back cannot help since a digit is not a dash. *)
Fixpoint unitIdMatch (s : string) : option string :=
  match s with
  | EmptyString => None
  | String c r =>
      if isDigit c then
        match dropDigits s with
        | String d (String e _) =>
            if Ascii.eqb d "-" && isDigit e then Some (takeDigits s)
            else unitIdMatch r
        | _ => unitIdMatch r
        end
      else unitIdMatch r
  end.

(** [answers.split('\n').map(line => line.replace(...).trim()).filter(Boolean)] *)
Definition answerLines (answers : string) : list string :=
  List.filter truthy (List.map (fun line => trim (stripOrdinal line)) (splitLines answers)).

(** [s[i]] for the letters of a choice answer *)
Fixpoint chars (s : string) : list ascii :=
  match s with
  | EmptyString => []
  | String c r => c :: chars r
  end.

Definition ofChar (c : ascii) : string := String c EmptyString.

End Str.

(** ** The page, as the script's selectors see it *)

(** An [.option] element of a choice question: the text of its [.caption]
    child, if it has one, and whether its class list holds [selected]. *)
Record OptionEl := { caption : option string; selected : bool }.

(** A [.question-common-abs-reply] or [.question-common-abs-banked-cloze]
    block: its [.option] descendants in document order. *)
Definition Block := list OptionEl.

(** An element with a [title] attribute that may be missing *)
Record TabEl := { tabTitle : option string; tabText : string }.

Record Btn := { btnText : string; btnDisabled : bool; btnVisible : bool }.

(** The [video] element.  The last three fields are what the element will
    do: after how many milliseconds it fires [canplay] (never, for [None]),
    how long the promise of [play()] takes to settle, and whether it then
    rejects.  [duration] is [None] for NaN.  Outside the model: a promise
    of [play()] that is never settled, an infinite duration (a live
    stream; the seek then throws) and the rounding of floating point. *)
Record Video := {
  muted : bool;
  readyState : nat;
  duration : option Q;
  currentTime : Q;
  canplayAfter : option nat;
  playLatency : nat;
  playRejects : bool
}.

Record Page := {
  (** [.pc-menu-activity .pc-menu-node-name], its [title] attribute *)
  q_menuNodeName : option (option string);
  (** [.pc-menu-activity .pc-menu-node-name .node-name], its text *)
  q_nodeNameText : option string;
  (** [.pc-header-tab-activity .pc-tab-view-container[title]] or its [span] *)
  q_activeTab : option TabEl;
  (** [.question-common-abs-test-part-name], its text *)
  q_testPartName : option string;
  q_choiceQuestions : list Block;
  (** [textarea.question-inputbox-input], the values *)
  q_textInputs : list string;
  (** [.fe-scoop .comp-abs-input input], the values *)
  q_fillInBlanks : list string;
  q_video : option Video;
  (** [.vocabulary-wrapper] exists *)
  q_vocabularyWrapper : bool;
  (** [.vocActions .next:not(.swiper-button-disabled)] exists *)
  q_vocNext : bool;
  (** [.pc-header-tabs-container .pc-tab-view-container], the [title]s *)
  q_tabs : list (option string);
  (** [button.ant-btn-primary] *)
  q_primaryButtons : list Btn;
  (** [.question-common-course-page .btn] *)
  q_coursePageBtn : option Btn;
  (** [.ant-btn-primary.ant-btn-lg] *)
  q_primaryLarge : option Btn;
  (** [.ant-modal-confirm-btns .ant-btn-primary] exists *)
  q_confirmBtn : bool;
  (** [.pc-slider-menu-micro]: for each, the [title] of its
      [.pc-menu-node-name], if it has both *)
  q_sliderMenu : list (option string);
  (** [.pc-menu-activity]: [None] if there is none, else its index among
      the [.pc-slider-menu-micro] elements ([None] for -1) *)
  q_menuActivity : option (option nat);
  (** [#uca-start-stop-btn] exists (the script's own panel) *)
  q_startStopBtn : bool
}.

(** ** The answer bank and the task map *)

(** A leaf of the parsed JSON: a string, or any other value, of which only
    the truthiness matters. *)
Inductive Answer := AStr (s : string) | AOther (isTruthy : bool).

Definition answerTruthy (a : Answer) : bool :=
  match a with AStr s => Str.truthy s | AOther b => b end.

Inductive Method := video | skip | vocabulary | quiz | otherMethod (m : string).

Record SubTask := { subName : string; subMethod : Method; subNeedsSubmit : bool }.

Inductive TaskKind := standalone (m : Method) (needsSubmit : bool) | composite (children : list SubTask).

Record Task := { id : string; name : string; kind : TaskKind }.

Definition UNIT_STRUCTURE : list Task := [
  {| id := "1-1"; name := "Setting the scene"; kind := standalone video false |};
  {| id := "1-2"; name := "iExplore 1: Learning before class"; kind := composite [
       {| subName := "Reading in detail"; subMethod := skip; subNeedsSubmit := false |};
       {| subName := "Vocabulary"; subMethod := vocabulary; subNeedsSubmit := false |};
       {| subName := "Reading comprehension"; subMethod := quiz; subNeedsSubmit := true |};
       {| subName := "Dealing with vocabulary"; subMethod := quiz; subNeedsSubmit := true |} ] |};
  {| id := "1-3"; name := "iExplore 1: Reviewing after class"; kind := composite [
       {| subName := "Gems of the language"; subMethod := video; subNeedsSubmit := false |};
       {| subName := "Repeating after me"; subMethod := skip; subNeedsSubmit := false |};
       {| subName := "Application"; subMethod := quiz; subNeedsSubmit := true |} ] |};
  {| id := "1-4"; name := "iExplore 2: Learning before class"; kind := composite [
       {| subName := "Reading in detail"; subMethod := skip; subNeedsSubmit := false |};
       {| subName := "Vocabulary"; subMethod := vocabulary; subNeedsSubmit := false |};
       {| subName := "Reading comprehension"; subMethod := quiz; subNeedsSubmit := true |};
       {| subName := "Dealing with vocabulary"; subMethod := quiz; subNeedsSubmit := true |} ] |};
  {| id := "1-5"; name := "iExplore 2: Reviewing after class"; kind := composite [
       {| subName := "Repeating after me"; subMethod := skip; subNeedsSubmit := false |} ] |};
  {| id := "1-6"; name := "Unit project"; kind := standalone skip false |};
  {| id := "1-7"; name := "Unit test"; kind := composite [
       {| subName := "Part I"; subMethod := quiz; subNeedsSubmit := true |};
       {| subName := "Part II"; subMethod := quiz; subNeedsSubmit := true |};
       {| subName := "Part III"; subMethod := quiz; subNeedsSubmit := true |} ] |}
].

(** ** The state of a run *)

Record World := {
  page : Page;
  href : string;
  isAutomationRunning : bool;
  isProcessing : bool;
  (** [urlObserver] is not null *)
  urlObserver : bool;
  lastAnsweredSubTask : string;
  (** [COURSE_DATA.QUESTION_BANK]: unit, main task, sub-task *)
  QUESTION_BANK : gmap string (gmap string (gmap string Answer));
  (** the values kept by [GM_setValue] *)
  gmStore : gmap string string
}.

Definition set_page (f : Page -> Page) (w : World) : World :=
  {| page := f (page w); href := href w;
     isAutomationRunning := isAutomationRunning w; isProcessing := isProcessing w;
     urlObserver := urlObserver w; lastAnsweredSubTask := lastAnsweredSubTask w;
     QUESTION_BANK := QUESTION_BANK w; gmStore := gmStore w |}.

Definition set_isAutomationRunning (b : bool) (w : World) : World :=
  {| page := page w; href := href w;
     isAutomationRunning := b; isProcessing := isProcessing w;
     urlObserver := urlObserver w; lastAnsweredSubTask := lastAnsweredSubTask w;
     QUESTION_BANK := QUESTION_BANK w; gmStore := gmStore w |}.

Definition set_isProcessing (b : bool) (w : World) : World :=
  {| page := page w; href := href w;
     isAutomationRunning := isAutomationRunning w; isProcessing := b;
     urlObserver := urlObserver w; lastAnsweredSubTask := lastAnsweredSubTask w;
     QUESTION_BANK := QUESTION_BANK w; gmStore := gmStore w |}.

Definition set_urlObserver (b : bool) (w : World) : World :=
  {| page := page w; href := href w;
     isAutomationRunning := isAutomationRunning w; isProcessing := isProcessing w;
     urlObserver := b; lastAnsweredSubTask := lastAnsweredSubTask w;
     QUESTION_BANK := QUESTION_BANK w; gmStore := gmStore w |}.

Definition set_lastAnsweredSubTask (s : string) (w : World) : World :=
  {| page := page w; href := href w;
     isAutomationRunning := isAutomationRunning w; isProcessing := isProcessing w;
     urlObserver := urlObserver w; lastAnsweredSubTask := s;
     QUESTION_BANK := QUESTION_BANK w; gmStore := gmStore w |}.

Definition set_gmStore (f : gmap string string -> gmap string string) (w : World) : World :=
  {| page := page w; href := href w;
     isAutomationRunning := isAutomationRunning w; isProcessing := isProcessing w;
     urlObserver := urlObserver w; lastAnsweredSubTask := lastAnsweredSubTask w;
     QUESTION_BANK := QUESTION_BANK w; gmStore := f (gmStore w) |}.

Inductive Field := TextArea | Blank.

Definition inputsOf (f : Field) (p : Page) : list string :=
  match f with TextArea => q_textInputs p | Blank => q_fillInBlanks p end.

(** [input.value = v] on the [i]-th element of a field *)
Definition writeInput (f : Field) (i : nat) (v : string) (p : Page) : Page :=
  {| q_menuNodeName := q_menuNodeName p; q_nodeNameText := q_nodeNameText p;
     q_activeTab := q_activeTab p; q_testPartName := q_testPartName p;
     q_choiceQuestions := q_choiceQuestions p;
     q_textInputs := match f with TextArea => <[i:=v]> (q_textInputs p) | Blank => q_textInputs p end;
     q_fillInBlanks := match f with Blank => <[i:=v]> (q_fillInBlanks p) | TextArea => q_fillInBlanks p end;
     q_video := q_video p; q_vocabularyWrapper := q_vocabularyWrapper p;
     q_vocNext := q_vocNext p; q_tabs := q_tabs p;
     q_primaryButtons := q_primaryButtons p; q_coursePageBtn := q_coursePageBtn p;
     q_primaryLarge := q_primaryLarge p; q_confirmBtn := q_confirmBtn p;
     q_sliderMenu := q_sliderMenu p; q_menuActivity := q_menuActivity p;
     q_startStopBtn := q_startStopBtn p |}.

Definition writeVideo (v : Video) (p : Page) : Page :=
  {| q_menuNodeName := q_menuNodeName p; q_nodeNameText := q_nodeNameText p;
     q_activeTab := q_activeTab p; q_testPartName := q_testPartName p;
     q_choiceQuestions := q_choiceQuestions p;
     q_textInputs := q_textInputs p; q_fillInBlanks := q_fillInBlanks p;
     q_video := match q_video p with Some _ => Some v | None => None end;
     q_vocabularyWrapper := q_vocabularyWrapper p;
     q_vocNext := q_vocNext p; q_tabs := q_tabs p;
     q_primaryButtons := q_primaryButtons p; q_coursePageBtn := q_coursePageBtn p;
     q_primaryLarge := q_primaryLarge p; q_confirmBtn := q_confirmBtn p;
     q_sliderMenu := q_sliderMenu p; q_menuActivity := q_menuActivity p;
     q_startStopBtn := q_startStopBtn p |}.

(** ** Events *)

Inductive Level := info | success | error | warn.

Inductive Err :=
  | ErrNoMainTask     (** [new Error("无法识别当前主任务。")] *)
  | ErrNullButton.    (** a property of [null]: the panel button is gone *)

Inductive Msg :=
  | MsgNoMainTaskInfo | MsgNoUnitId (content : string)
  | MsgNoAnswer (unitKey mainTaskKey subTask : string) | MsgFoundAnswer (subTask : string)
  | MsgBankWaiting | MsgBankFailed | MsgApplied (subTask : string)
  | MsgVideo | MsgPlayFailed | MsgVideoDone
  | MsgSkip (taskName : string)
  | MsgVocabulary | MsgVocabularyDone | MsgVocabularyCeiling
  | MsgStuck (task : string) | MsgStartMain (task : string) | MsgNotInMap (task : string)
  | MsgTabMissing (subTask : string) | MsgStartSub (subTask : string) (m : Method)
  | MsgMainDone (task : string) | MsgFatal (e : Err)
  | MsgUnknownMethod (m : string)
  | MsgNextQuestion | MsgSubmit (text : string) | MsgConfirm
  | MsgNavigating | MsgCannotLocate | MsgNextTask (title : option string) | MsgAllDone
  | MsgStarted | MsgPaused | MsgObserverStarted | MsgObserverStopped.

Inductive Target :=
  | TOption (block option : nat)
  | TTab (k : nat)
  | TVocNext
  | TNextQuestion (k : nat)
  | TSubmit (selector : nat)
  | TConfirm
  | TMenuItem (k : nat).

Inductive ButtonLabel := LabelStart | LabelStop | LabelAllDone.

Inductive Event :=
  | Log (lvl : Level) (m : Msg)
  | Click (t : Target)                          (** [robustClick] *)
  | SetValue (f : Field) (i : nat) (v : string) (** [input.value = v] *)
  | DispatchInput (f : Field) (i : nat)         (** the [input] event *)
  | Sleep (ms jitter : nat)                     (** an [await] of [ms], plus up to [jitter] *)
  | GM_setValue (k v : string)
  | GM_deleteValue (k : string)
  | ScheduleMain (ms : nat)                     (** [setTimeout(main, ms)] *)
  | ObserverStart | ObserverStop
  | SetButton (l : ButtonLabel)
  | VideoMute | VideoSeek (t : Q) | VideoPlay
  | ListenCanPlay | ArmTimeout (ms : nat).

Definition Trace := list Event.

(** ** The monad of the script: state, trace, exceptions *)

Inductive Outcome (A : Type) := Ret (a : A) | Throw (e : Err).
Arguments Ret {A} a.
Arguments Throw {A} e.

Definition M (A : Type) : Type := World -> Outcome A * World * Trace.

Definition ret {A} (a : A) : M A := fun w => (Ret a, w, []).

Definition throw {A} (e : Err) : M A := fun w => (Throw e, w, []).

Definition bind {A B} (m : M A) (k : A -> M B) : M B :=
  fun w =>
    match m w with
    | (Ret a, w1, t1) =>
        match k a w1 with
        | (o, w2, t2) => (o, w2, t1 ++ t2)
        end
    | (Throw e, w1, t1) => (Throw e, w1, t1)
    end.

Notation "'do' x <- m ; k" := (bind m (fun x => k))
  (at level 10, x name, m at level 100, k at level 200).

Definition get : M World := fun w => (Ret w, w, []).

Definition modify (f : World -> World) : M unit := fun w => (Ret tt, f w, []).

(** An effect the script alone takes part in *)
Definition note (e : Event) : M unit := fun w => (Ret tt, w, [e]).

Definition log (m : Msg) (lvl : Level) : M unit := note (Log lvl m).

(** [try m catch (e) h] *)
Definition tryCatch {A} (m : M A) (h : Err -> M A) : M A :=
  fun w =>
    match m w with
    | (Ret a, w1, t1) => (Ret a, w1, t1)
    | (Throw e, w1, t1) =>
        match h e w1 with
        | (o, w2, t2) => (o, w2, t1 ++ t2)
        end
    end.

(** [try m finally f] *)
Definition tryFinally {A} (m : M A) (f : World -> World) : M A :=
  fun w => match m w with (o, w1, t1) => (o, f w1, t1) end.

Definition outcomeOf {A} (r : Outcome A * World * Trace) : Outcome A := r.1.1.
Definition worldOf {A} (r : Outcome A * World * Trace) : World := r.1.2.
Definition traceOf {A} (r : Outcome A * World * Trace) : Trace := r.2.

(** ** The script *)

Fixpoint findIndexFrom {A} (p : A -> bool) (k : nat) (l : list A) : option (nat * A) :=
  match l with
  | [] => None
  | x :: r => if p x then Some (k, x) else findIndexFrom p (S k) r
  end.

(** [array.find(p)], with the position of the element found *)
Definition findIndex {A} (p : A -> bool) (l : list A) : option (nat * A) :=
  findIndexFrom p 0 l.

(** A value that is not null, not undefined and not the empty string *)
Definition truthyOpt (o : option string) : option string :=
  match o with
  | Some s => if Str.truthy s then Some s else None
  | None => None
  end.

Inductive Context :=
  | CtxNull
  | CtxAnswered
  | CtxFound (answers : Answer) (mainTaskContent activeSubTaskName : string).

(** Lines 194-195 of the script *)
Definition mainTaskContentOf (p : Page) : option string :=
  match q_menuNodeName p with
  | Some title => title
  | None => q_nodeNameText p
  end.

(** Lines 201-206 *)
Definition activeSubTaskNameOf (p : Page) : string :=
  let fromTab :=
    match q_activeTab p with
    | Some el =>
        match truthyOpt (tabTitle el) with
        | Some t => Some t
        | None => Some (tabText el)
        end
    | None => None
    end in
  let fromPart :=
    match truthyOpt fromTab, q_testPartName p with
    | None, Some text => Some (Str.trim text)
    | _, _ => fromTab
    end in
  match truthyOpt fromPart with
  | Some n => n
  | None => "Part I"
  end.

Definition dedupKey (mainTaskContent activeSubTaskName : string) : string :=
  String.append mainTaskContent (String.append "-" activeSubTaskName).

Definition mainTaskKeyOf (mainTaskContent : string) : string :=
  match List.find (fun t => Str.includes mainTaskContent (id t)) UNIT_STRUCTURE with
  | Some t => name t
  | None => mainTaskContent
  end.

(** The names of the members that an object parsed from JSON inherits
    from [Object.prototype] *)
Definition inheritedNames : list string :=
  ["constructor"; "hasOwnProperty"; "isPrototypeOf"; "propertyIsEnumerable";
   "toLocaleString"; "toString"; "valueOf"; "__proto__";
   "__defineGetter__"; "__defineSetter__"; "__lookupGetter__"; "__lookupSetter__"].

(** [subTasks[activeSubTaskName]]: the entry of that name or, without one,
    the inherited member of that name, a function or an object: truthy and
    not a string *)
Definition member (subTasks : gmap string Answer) (activeSubTaskName : string)
    : option Answer :=
  match subTasks !! activeSubTaskName with
  | Some a => Some a
  | None =>
      if bool_decide (activeSubTaskName ∈ inheritedNames) then Some (AOther true)
      else None
  end.

(** [QUESTION_BANK[unitKey]?.[mainTaskKey]?.[activeSubTaskName]].  The
    first two keys are read among the entries: [unitKey] starts with
    "Unit ", and [mainTaskKey] is a name of [UNIT_STRUCTURE] or a label
    that holds a digit, and no inherited member has such a name. *)
Definition bankLookup (bank : gmap string (gmap string (gmap string Answer)))
    (unitKey mainTaskKey activeSubTaskName : string) : option Answer :=
  match bank !! unitKey with
  | Some tasks =>
      match tasks !! mainTaskKey with
      | Some subTasks => member subTasks activeSubTaskName
      | None => None
      end
  | None => None
  end.

Definition GM_getValue (w : World) (k : string) : string :=
  default "" (gmStore w !! k).

(** [btn.textContent] matches [/提交|继续学习|查看/] *)
Definition isSubmitCaption (text : string) : bool :=
  Str.includes text "提交" || Str.includes text "继续学习" || Str.includes text "查看".

(** The three selectors of [submitSelectors], in order *)
Definition querySubmit (p : Page) (selector : nat) : option Btn :=
  match selector with
  | 0 => q_coursePageBtn p
  | 1 => q_primaryLarge p
  | _ => List.find (fun b => negb (btnDisabled b)) (q_primaryButtons p)
  end.

(** The first [.option] whose caption, trimmed, is the letter and that is
    not selected *)
Definition findOption (letter : ascii) (options : Block) : option nat :=
  fst <$> findIndex (fun o =>
    match caption o with
    | Some text => String.eqb (Str.trim text) (Str.ofChar letter)
    | None => false
    end && negb (selected o)) options.

(** [video.duration > 2 ? video.duration - 1.5 : 0] *)
Definition seekTarget (d : option Q) : Q :=
  match d with
  | Some d => if Qle_bool d 2 then 0%Q else (d - (3 # 2))%Q
  | None => 0%Q
  end.

Definition withMuted (v : Video) : Video :=
  {| muted := true; readyState := readyState v; duration := duration v;
     currentTime := currentTime v; canplayAfter := canplayAfter v;
     playLatency := playLatency v; playRejects := playRejects v |}.

Definition withCurrentTime (t : Q) (v : Video) : Video :=
  {| muted := muted v; readyState := readyState v; duration := duration v;
     currentTime := t; canplayAfter := canplayAfter v;
     playLatency := playLatency v; playRejects := playRejects v |}.

Inductive LoopExit := Completed | Returned.

(** [for (let i = k; i < Math.min(elements.length, values.length); i++)]:
    the indices with [values[i]] and [elements[i]] *)
Fixpoint indexedFrom {A B} (k : nat) (values : list A) (elements : list B)
    : list (nat * A * B) :=
  match values, elements with
  | v :: values', e :: elements' => (k, v, e) :: indexedFrom (S k) values' elements'
  | _, _ => []
  end.

Definition indexed {A B} (values : list A) (elements : list B) : list (nat * A * B) :=
  indexedFrom 0 values elements.

Section Script.

(** What the host page and the user do when the script yields *)
Variable env : Event -> World -> World.

(** An effect at which the script yields: a dispatched event, an [await] *)
Definition act (e : Event) : M unit := fun w => (Ret tt, env e w, [e]).

Definition sleep (ms jitter : nat) : M unit := act (Sleep ms jitter).

Definition robustClick (t : Target) : M unit := act (Click t).

Definition getPageContextAndAnswers : M Context :=
  do w <- get;
  match truthyOpt (mainTaskContentOf (page w)) with
  | None => do _ <- log MsgNoMainTaskInfo error; ret CtxNull
  | Some mainTaskContent =>
      match Str.unitIdMatch mainTaskContent with
      | None => do _ <- log (MsgNoUnitId mainTaskContent) error; ret CtxNull
      | Some unitId =>
          let unitKey := String.append "Unit " unitId in
          let activeSubTaskName := activeSubTaskNameOf (page w) in
          if String.eqb (lastAnsweredSubTask w) (dedupKey mainTaskContent activeSubTaskName)
          then ret CtxAnswered
          else
            let mainTaskKey := mainTaskKeyOf mainTaskContent in
            match bankLookup (QUESTION_BANK w) unitKey mainTaskKey activeSubTaskName with
            | Some answers =>
                if answerTruthy answers
                then do _ <- log (MsgFoundAnswer activeSubTaskName) success;
                     ret (CtxFound answers mainTaskContent activeSubTaskName)
                else do _ <- log (MsgNoAnswer unitKey mainTaskKey activeSubTaskName) warn;
                     ret CtxNull
            | None =>
                do _ <- log (MsgNoAnswer unitKey mainTaskKey activeSubTaskName) warn;
                ret CtxNull
            end
      end
  end.

(** The element a collected reference points to is read at its position in
    the current page; one that has left the page is read as collected. *)
Definition liveBlock (w : World) (i : nat) (collected : Block) : Block :=
  default collected (q_choiceQuestions (page w) !! i).

Definition liveValue (w : World) (f : Field) (i : nat) (collected : string) : string :=
  default collected (inputsOf f (page w) !! i).

Definition liveVideo (w : World) (collected : Video) : Video :=
  default collected (q_video (page w)).

(** The loop of lines 233-240 over [i], with [answerLetters[i]] and
    [choiceQuestions[i]]; the inner loop stops at its first click. *)
Fixpoint choiceLoop (items : list (nat * ascii * Block)) (answered : bool) : M bool :=
  match items with
  | [] => ret answered
  | (i, letter, collected) :: rest =>
      do w <- get;
      match findOption letter (liveBlock w i collected) with
      | Some j =>
          do _ <- robustClick (TOption i j);
          do _ <- sleep 200 100;
          choiceLoop rest true
      | None => choiceLoop rest answered
      end
  end.

(** The loops of lines 243-251 and 254-262 *)
Fixpoint fillLoop (f : Field) (items : list (nat * string * string)) (answered : bool) : M bool :=
  match items with
  | [] => ret answered
  | (i, line, collected) :: rest =>
      do w <- get;
      if Str.truthy (liveValue w f i collected)
      then fillLoop f rest answered
      else
        do _ <- modify (set_page (writeInput f i line));
        do _ <- note (SetValue f i line);
        do _ <- act (DispatchInput f i);
        do _ <- sleep 200 0;
        fillLoop f rest true
  end.


Definition bankIsEmpty (w : World) : bool :=
  bool_decide (QUESTION_BANK w = ∅).

(** Lines 226-263: the elements are collected, then the shape of the answer
    and the elements there are choose the way of filling.  The result is
    the flag [answered]. *)
Definition applyAnswers (answers : Answer) : M bool :=
  do w <- get;
  let choiceQuestions := q_choiceQuestions (page w) in
  let textInputs := q_textInputs (page w) in
  let fillInBlanks := q_fillInBlanks (page w) in
  match answers with
  | AStr answers =>
      if Nat.ltb 0 (length choiceQuestions) && Str.lettersPattern (Str.trim answers)
      then
        let answerLetters := Str.removeSpaces (Str.trim answers) in
        choiceLoop (indexed (Str.chars answerLetters) choiceQuestions) false
      else if Nat.ltb 0 (length textInputs)
      then fillLoop TextArea (indexed (Str.answerLines answers) textInputs) false
      else if Nat.ltb 0 (length fillInBlanks)
      then fillLoop Blank (indexed (Str.answerLines answers) fillInBlanks) false
      else ret false
  | AOther _ => ret false
  end.

Definition doAnswer : M unit :=
  do w0 <- get;
  do loaded <-
    (if bankIsEmpty w0 then
       do _ <- log MsgBankWaiting warn;
       do _ <- sleep 3000 0;
       do w1 <- get;
       if bankIsEmpty w1
       then do _ <- log MsgBankFailed error; ret false
       else ret true
     else ret true);
  if negb loaded then ret tt else
  do context <- getPageContextAndAnswers;
  match context with
  | CtxNull | CtxAnswered => ret tt
  | CtxFound answers mainTaskContent activeSubTaskName =>
      do answered <- applyAnswers answers;
      if answered
      then do _ <- log (MsgApplied activeSubTaskName) success;
           modify (set_lastAnsweredSubTask (dedupKey mainTaskContent activeSubTaskName))
      else ret tt
  end.

(** [video.muted = true] *)
Definition muteVideo (collected : Video) : M unit :=
  do w <- get;
  do _ <- modify (set_page (writeVideo (withMuted (liveVideo w collected))));
  note VideoMute.

(** The start of [onCanPlay]: the seek and the call of [play()] *)
Definition seekAndPlay (collected : Video) : M unit :=
  do w <- get;
  let v := liveVideo w collected in
  let t := seekTarget (duration v) in
  do _ <- modify (set_page (writeVideo (withCurrentTime t v)));
  do _ <- note (VideoSeek t);
  note VideoPlay.

(** The end of [onCanPlay], once the promise of [play()] has settled *)
Definition afterPlay (rejected : bool) : M unit :=
  do _ <- (if rejected then log MsgPlayFailed warn else ret tt);
  log MsgVideoDone success.

(** [handleVideoTask].  The promise it returns is settled by the first call
    of [resolve]; the value returned here is the argument of that call, and
    the events are those up to it.  With the element ready, [onCanPlay] is
    awaited before the timer is armed: the handler is done when [play()]
    has settled, and only then.  Otherwise the listener and the timer of
    5000 ms race: [canplay] after [c] ms starts [onCanPlay], which ends
    [playLatency] ms later. *)
Definition handleVideoTask : M bool :=
  do w <- get;
  match q_video (page w) with
  | None => ret true
  | Some collected =>
      do _ <- log MsgVideo info;
      do _ <- muteVideo collected;
      do w1 <- get;
      let v := liveVideo w1 collected in
      if Nat.leb 2 (readyState v) then
        do _ <- seekAndPlay collected;
        do _ <- sleep (playLatency v) 0;
        do _ <- afterPlay (playRejects v);
        do _ <- note (ArmTimeout 5000);
        ret true
      else
        do _ <- note ListenCanPlay;
        do _ <- note (ArmTimeout 5000);
        match canplayAfter v with
        | Some c =>
            if Nat.ltb c 5000 then
              do _ <- sleep c 0;
              do w2 <- get;
              let v2 := liveVideo w2 collected in
              do _ <- seekAndPlay collected;
              if Nat.leb (c + playLatency v2) 5000 then
                do _ <- sleep (playLatency v2) 0;
                do _ <- afterPlay (playRejects v2);
                ret true
              else
                do _ <- sleep (5000 - c) 0;
                ret true
            else
              do _ <- sleep 5000 0;
              ret true
        | None =>
            do _ <- sleep 5000 0;
            ret true
        end
  end.

Definition handleSkippableTask (taskName : string) : M bool :=
  do _ <- log (MsgSkip taskName) info;
  do _ <- sleep 2000 1000;
  ret true.

(** [while (maxClicks-- > 0) { ... }]: the counter only goes down, the
    loop is by recursion on it. *)
Fixpoint vocabularyLoop (maxClicks : nat) : M bool :=
  match maxClicks with
  | 0 =>
      do _ <- log MsgVocabularyCeiling warn;
      ret true
  | S maxClicks' =>
      do w <- get;
      if negb (isAutomationRunning w) then ret false
      else if q_vocNext (page w) then
        do _ <- robustClick TVocNext;
        do _ <- sleep 600 400;
        vocabularyLoop maxClicks'
      else
        do _ <- log MsgVocabularyDone success;
        ret true
  end.

Definition handleVocabularyTask : M bool :=
  do _ <- log MsgVocabulary info;
  do w <- get;
  if q_vocabularyWrapper (page w) then vocabularyLoop 50 else ret true.

Definition executeMethod (method : Method) (name : string) : M unit :=
  match method with
  | video => do _ <- handleVideoTask; ret tt
  | skip => do _ <- handleSkippableTask name; ret tt
  | vocabulary => do _ <- handleVocabularyTask; ret tt
  | quiz => doAnswer
  | otherMethod m => log (MsgUnknownMethod m) warn
  end.

(** The loop of lines 418-432 over the submit selectors *)
Fixpoint submitLoop (selectors : list nat) : M bool :=
  match selectors with
  | [] => ret false
  | selector :: rest =>
      do w <- get;
      match querySubmit (page w) selector with
      | Some btn =>
          if btnVisible btn && isSubmitCaption (btnText btn) then
            do _ <- log (MsgSubmit (Str.trim (btnText btn))) info;
            do _ <- robustClick (TSubmit selector);
            do _ <- sleep 1500 0;
            do w1 <- get;
            do _ <- (if q_confirmBtn (page w1) then
                       do _ <- log MsgConfirm info;
                       do _ <- robustClick TConfirm;
                       sleep 1500 0
                     else ret tt);
            ret true
          else submitLoop rest
      | None => submitLoop rest
      end
  end.

Definition completeAndNavigateTaskInternal : M bool :=
  do _ <- sleep 1000 0;
  do w <- get;
  do _ <-
    match findIndex (fun b => Str.includes (btnText b) "下一题") (q_primaryButtons (page w)) with
    | Some (k, nextQuestionBtn) =>
        if negb (btnDisabled nextQuestionBtn) then
          do _ <- log MsgNextQuestion info;
          do _ <- robustClick (TNextQuestion k);
          sleep 2000 0
        else ret tt
    | None => ret tt
    end;
  submitLoop [0; 1; 2].

Definition startObserver : M unit :=
  do w <- get;
  if urlObserver w then ret tt
  else
    do _ <- modify (set_urlObserver true);
    do _ <- note ObserverStart;
    log MsgObserverStarted info.

Definition stopObserver : M unit :=
  do w <- get;
  do _ <- (if urlObserver w then
             do _ <- note ObserverStop;
             modify (set_urlObserver false)
           else ret tt);
  log MsgObserverStopped warn.

(** [button.textContent = ...]: a TypeError when the button is gone *)
Definition setButton (l : ButtonLabel) : M unit :=
  do w <- get;
  if q_startStopBtn (page w) then note (SetButton l) else throw ErrNullButton.

Definition toggleAutomation : M unit :=
  do _ <- modify (fun w => set_isAutomationRunning (negb (isAutomationRunning w)) w);
  do w <- get;
  if isAutomationRunning w then
    do _ <- setButton LabelStop;
    do _ <- log MsgStarted success;
    do _ <- modify (set_gmStore (delete "lastProcessedTaskName"));
    do _ <- note (GM_deleteValue "lastProcessedTaskName");
    do _ <- modify (set_lastAnsweredSubTask "");
    do _ <- startObserver;
    note (ScheduleMain 1500)
  else
    do _ <- setButton LabelStart;
    do _ <- log MsgPaused warn;
    do _ <- modify (set_isProcessing false);
    stopObserver.

Definition navigateToNextMainTask : M unit :=
  do _ <- sleep 2000 0;
  do _ <- log MsgNavigating info;
  do w <- get;
  let allMainTasks := q_sliderMenu (page w) in
  match mjoin (q_menuActivity (page w)) with
  | None => log MsgCannotLocate error
  | Some currentIndex =>
      let nextIndex := currentIndex + 1 in
      match allMainTasks !! nextIndex with
      | Some taskName =>
          do _ <- log (MsgNextTask taskName) success;
          robustClick (TMenuItem nextIndex)
      | None =>
          do _ <- log MsgAllDone success;
          do _ <- setButton LabelAllDone;
          toggleAutomation
      end
  end.

(** The loop of lines 346-365 over [taskData.children]; [Returned] is the
    [return] of line 347, which leaves [main]. *)
Fixpoint compositeLoop (subTaskElements : list (option string)) (children : list SubTask)
    : M LoopExit :=
  match children with
  | [] => ret Completed
  | subTaskConfig :: rest =>
      do w <- get;
      if negb (isAutomationRunning w) then ret Returned
      else
        match findIndex (fun title =>
                match title with
                | Some t => String.eqb t (subName subTaskConfig)
                | None => false
                end) subTaskElements with
        | None =>
            do _ <- log (MsgTabMissing (subName subTaskConfig)) warn;
            compositeLoop subTaskElements rest
        | Some (k, _) =>
            do _ <- log (MsgStartSub (subName subTaskConfig) (subMethod subTaskConfig)) info;
            do _ <- robustClick (TTab k);
            do _ <- sleep 2500 0;
            do _ <- executeMethod (subMethod subTaskConfig) (subName subTaskConfig);
            do _ <- (if subNeedsSubmit subTaskConfig then
                       do _ <- completeAndNavigateTaskInternal;
                       sleep 1500 0
                     else ret tt);
            compositeLoop subTaskElements rest
        end
  end.

(** Lines 329-373: what [main] does with a task it has not just processed *)
Definition processTask (currentMainTaskName : string) : M unit :=
  do _ <- log (MsgStartMain currentMainTaskName) success;
  match List.find (fun t => Str.includes currentMainTaskName (id t)) UNIT_STRUCTURE with
  | None =>
      do _ <- log (MsgNotInMap currentMainTaskName) warn;
      navigateToNextMainTask
  | Some taskData =>
      do exit <-
        match kind taskData with
        | standalone method needsSubmit =>
            do _ <- executeMethod method (name taskData);
            do _ <- (if needsSubmit then
                       do _ <- completeAndNavigateTaskInternal; ret tt
                     else ret tt);
            ret Completed
        | composite children =>
            do w <- get;
            compositeLoop (q_tabs (page w)) children
        end;
      match exit with
      | Returned => ret tt
      | Completed =>
          do _ <- log (MsgMainDone currentMainTaskName) info;
          do _ <- completeAndNavigateTaskInternal;
          do _ <- modify (set_gmStore <["lastProcessedTaskName" := currentMainTaskName]>);
          do _ <- note (GM_setValue "lastProcessedTaskName" currentMainTaskName);
          do w <- get;
          do _ <- modify (set_gmStore <["lastUrl" := href w]>);
          do _ <- note (GM_setValue "lastUrl" (href w));
          navigateToNextMainTask
      end
  end.

(** The body of the [try] of [main] *)
Definition mainTry : M unit :=
  do _ <- sleep 3000 0;
  do w <- get;
  match truthyOpt (mjoin (q_menuNodeName (page w))) with
  | None => throw ErrNoMainTask
  | Some currentMainTaskName =>
      let lastProcessed := GM_getValue w "lastProcessedTaskName" in
      if String.eqb currentMainTaskName lastProcessed
         && String.eqb (href w) (GM_getValue w "lastUrl")
      then
        do _ <- log (MsgStuck currentMainTaskName) warn;
        navigateToNextMainTask
      else
        do _ <- (if negb (String.eqb currentMainTaskName lastProcessed)
                 then modify (set_lastAnsweredSubTask "")
                 else ret tt);
        processTask currentMainTaskName
  end.

(** The [catch] of [main] *)
Definition mainCatch (e : Err) : M unit :=
  do _ <- log (MsgFatal e) error;
  toggleAutomation.

Definition main : M unit :=
  fun w =>
    if isProcessing w || negb (isAutomationRunning w) then (Ret tt, w, [])
    else tryFinally (tryCatch mainTry mainCatch) (set_isProcessing false)
           (set_isProcessing true w).

End Script.

(** ** What the statements are phrased with *)

(** A result with a trace put before its own *)
Definition prepend {A} (t : Trace) (r : Outcome A * World * Trace)
    : Outcome A * World * Trace :=
  (outcomeOf r, worldOf r, t ++ traceOf r).

Definition isNil {A} (l : list A) : bool :=
  match l with [] => true | _ => false end.

(** *** Readings of a trace *)

(** The targets of the clicks of a trace, in order *)
Fixpoint clicksOf (t : Trace) : list Target :=
  match t with
  | [] => []
  | Click x :: r => x :: clicksOf r
  | _ :: r => clicksOf r
  end.

(** The values a trace writes into inputs *)
Fixpoint writesOf (t : Trace) : list (Field * nat * string) :=
  match t with
  | [] => []
  | SetValue f i v :: r => (f, i, v) :: writesOf r
  | _ :: r => writesOf r
  end.

(** The time a trace takes: the sum of its waits, without the jitter *)
Fixpoint elapsed (t : Trace) : nat :=
  match t with
  | [] => 0
  | Sleep ms _ :: r => ms + elapsed r
  | _ :: r => elapsed r
  end.

(** The events of the free-text way of filling *)
Definition isFreeTextEvent (e : Event) : bool :=
  match e with
  | SetValue _ _ _ | DispatchInput _ _ => true
  | _ => false
  end.

(** The events that change nothing: a log line, a wait *)
Definition isQuietEvent (e : Event) : bool :=
  match e with
  | Log _ _ | Sleep _ _ => true
  | _ => false
  end.

(** The events of task processing: what the handlers and the submit
    sequence do, as opposed to navigation, to stopping and to starting. *)
Definition isProcessingEvent (e : Event) : bool :=
  match e with
  | Click (TMenuItem _) => false
  | Click _ => true
  | SetValue _ _ _ | DispatchInput _ _ => true
  | GM_setValue _ _ => true
  | VideoMute | VideoSeek _ | VideoPlay | ListenCanPlay | ArmTimeout _ => true
  | Log _ (MsgStuck _) | Log _ MsgNavigating | Log _ MsgCannotLocate
  | Log _ (MsgNextTask _) | Log _ MsgAllDone | Log _ (MsgFatal _)
  | Log _ MsgStarted | Log _ MsgPaused
  | Log _ MsgObserverStarted | Log _ MsgObserverStopped => false
  | Log _ _ => true
  | _ => false
  end.

(** *** The sequencer *)

(** The state [main] works on once it is past its guard: [isProcessing] is
    set and the first wait of 3000 ms is over. *)
Definition afterEntry (env : Event -> World -> World) (w : World) : World :=
  env (Sleep 3000 0) (set_isProcessing true w).

(** The callbacks that enter the script: the timer and the observer call
    [main], the panel button calls [toggleAutomation]. *)
Inductive TopLevel := CallMain | CallToggle.

Definition runTop (env : Event -> World -> World) (w : World) (c : TopLevel) : World :=
  match c with
  | CallMain => worldOf (main env w)
  | CallToggle => worldOf (toggleAutomation w)
  end.

(** What [toggleAutomation] leaves in the trace when it stops a run *)
Definition pausedTrace (w : World) : Trace :=
  if q_startStopBtn (page w)
  then [SetButton LabelStart; Log warn MsgPaused]
         ++ (if urlObserver w then [ObserverStop] else [])
         ++ [Log warn MsgObserverStopped]
  else [].

(** The rest of a loop over sub-tasks, unless the part before it returned *)
Definition thenLoop (m : M LoopExit) (e : LoopExit) : M LoopExit :=
  match e with Completed => m | Returned => ret Returned end.

(** *** The flashcard handler *)

(** The loop of [handleVocabularyTask] as it is written,
    [let maxClicks = 50; while (maxClicks-- > 0) { ... }], with the counter
    as an integer and fuel for the iterations: [None] when the fuel runs
    out before the loop is left. *)
Fixpoint vocabularyWhile (env : Event -> World -> World) (fuel : nat) (maxClicks : Z)
    (w : World) : option (Outcome bool * World * Trace) :=
  match fuel with
  | O => None
  | S fuel' =>
      if (0 <? maxClicks)%Z then
        if negb (isAutomationRunning w) then Some (Ret false, w, [])
        else if q_vocNext (page w) then
          prepend [Click TVocNext; Sleep 600 400] <$>
            vocabularyWhile env fuel' (maxClicks - 1)
              (env (Sleep 600 400) (env (Click TVocNext) w))
        else Some (Ret true, w, [Log success MsgVocabularyDone])
      else Some (Ret true, w, [Log warn MsgVocabularyCeiling])
  end.

(** *** The video handler *)

(** The state once [video.muted = true] is done *)
Definition mutedWorld (w : World) (v : Video) : World :=
  set_page (writeVideo (withMuted v)) w.

(** The video element as it is when [canplay] fires, [c] ms later *)
Definition videoAfter (env : Event -> World -> World) (w : World) (v : Video) (c : nat)
    : Video :=
  liveVideo (env (Sleep c 0) (mutedWorld w v)) v.

(** What [onCanPlay] logs once the promise of [play()] has settled *)
Definition playEnd (v : Video) : Trace :=
  (if playRejects v then [Log warn MsgPlayFailed] else []) ++ [Log success MsgVideoDone].

(** *** The answering engine *)

(** The clicks that the letters ask for on the blocks as they are: for
    each index, the first option of the block whose caption is the letter
    and that is not selected, if there is one. *)
Fixpoint expectedClicks (items : list (nat * ascii * Block)) : list Target :=
  match items with
  | [] => []
  | (i, letter, block) :: rest =>
      match findOption letter block with
      | Some j => TOption i j :: expectedClicks rest
      | None => expectedClicks rest
      end
  end.

(** Each click with the wait after it *)
Definition clickTrace (targets : list Target) : Trace :=
  flat_map (fun x => [Click x; Sleep 200 100]) targets.

(** The questions are independent: a click on an option of one block and a
    wait leave the blocks after it as they are. *)
Definition choiceStable (env : Event -> World -> World) : Prop :=
  (forall w i j k, i < k ->
     q_choiceQuestions (page (env (Click (TOption i j)) w)) !! k =
     q_choiceQuestions (page w) !! k) /\
  (forall w ms jitter,
     q_choiceQuestions (page (env (Sleep ms jitter) w)) = q_choiceQuestions (page w)).

(** What the free-text loop does on the inputs as they are: for each
    index whose input is empty, the line is written and the [input] event
    dispatched; an input with a value is passed over, and its line with
    it. *)
Fixpoint expectedWrites (f : Field) (items : list (nat * string * string)) : Trace :=
  match items with
  | [] => []
  | (i, line, value) :: rest =>
      if Str.truthy value then expectedWrites f rest
      else [SetValue f i line; DispatchInput f i; Sleep 200 0] ++ expectedWrites f rest
  end.

(** The inputs are independent: the [input] event on one of them and a
    wait leave the inputs after it as they are. *)
Definition fillStable (env : Event -> World -> World) (f : Field) : Prop :=
  (forall w i k, i < k ->
     inputsOf f (page (env (DispatchInput f i) w)) !! k = inputsOf f (page w) !! k) /\
  (forall w ms jitter,
     inputsOf f (page (env (Sleep ms jitter) w)) = inputsOf f (page w)).

(** The field the free-text branches fill: the text areas if there is one,
    else the blanks if there is one *)
Definition freeTextField (p : Page) : option Field :=
  if Nat.ltb 0 (length (q_textInputs p)) then Some TextArea
  else if Nat.ltb 0 (length (q_fillInBlanks p)) then Some Blank
  else None.

Definition startsWithDigit (s : string) : bool :=
  match s with
  | String c _ => Str.isDigit c
  | EmptyString => false
  end.

Fixpoint allDigits (s : string) : bool :=
  match s with
  | EmptyString => true
  | String c r => Str.isDigit c && allDigits r
  end.

Definition startsWith (ch : ascii) (s : string) : bool :=
  match s with
  | String c _ => Ascii.eqb c ch
  | EmptyString => false
  end.

(** The state in which [doAnswer] reads the page: the one it is called in
    or, when the bank is empty then, the one after its wait of 3000 ms *)
Definition answeringState (env : Event -> World -> World) (w : World) : World :=
  if bankIsEmpty w then env (Sleep 3000 0) w else w.

(** What [doAnswer] logs and waits for before it reads the page *)
Definition waitingTrace (w : World) : Trace :=
  if bankIsEmpty w then [Log warn MsgBankWaiting; Sleep 3000 0] else [].

(** Nothing navigates and no other callback of the script runs while the
    script yields: whatever the host does, the main-task content and the
    sub-task name that the page shows stay the same, and so do the bank and
    the script's variable [lastAnsweredSubTask]. *)
Definition sameView (env : Event -> World -> World) : Prop :=
  forall e w,
    mainTaskContentOf (page (env e w)) = mainTaskContentOf (page w) /\
    activeSubTaskNameOf (page (env e w)) = activeSubTaskNameOf (page w) /\
    lastAnsweredSubTask (env e w) = lastAnsweredSubTask w /\
    QUESTION_BANK (env e w) = QUESTION_BANK w.

(** What tells one view from another, with the bank *)
Definition viewOf (w : World)
    : option string * string * gmap string (gmap string (gmap string Answer)) :=
  (mainTaskContentOf (page w), activeSubTaskNameOf (page w), QUESTION_BANK w).

(** *** The free-text rule as the specification words it *)

(** After the words of the specification, to compare with [Str.stripOrdinal]:
    "strip a leading <digits>. or <digits>) prefix". *)
Definition claimedStrip (line : string) : string :=
  match line with
  | String c _ =>
      if Str.isDigit c then
        match Str.dropDigits line with
        | String d rest =>
            if Ascii.eqb d "." || Ascii.eqb d ")" then rest else line
        | EmptyString => line
        end
      else line
  | EmptyString => EmptyString
  end.

(** After the words of the specification, to compare with [Str.answerLines]:
    "split on lines and strip the prefix"; what is left of a line is
    trimmed, as the script does. *)
Definition claimedLines (answers : string) : list string :=
  List.map (fun line => Str.trim (claimedStrip line)) (Str.splitLines answers).

(** After the words of the specification, to compare with [fillLoop]:
    "assign the i-th remaining line to the i-th empty input". *)
Fixpoint claimedWrites (f : Field) (k : nat) (lines inputs : list string)
    : list (Field * nat * string) :=
  match inputs with
  | [] => []
  | value :: inputs' =>
      if Str.truthy value then claimedWrites f (S k) lines inputs'
      else match lines with
           | [] => []
           | line :: lines' => (f, k, line) :: claimedWrites f (S k) lines' inputs'
           end
  end.

(** *** Readings of the state that are left alone *)

(** The host leaves a reading of the state as it is, whatever the event *)
Definition keeps {X} (proj : World -> X) (env : Event -> World -> World) : Prop :=
  forall e w, proj (env e w) = proj w.

(** A reading of the state that the writes of the handlers leave as it
    is: the writes into the inputs, into the [video] element and into
    [lastAnsweredSubTask] *)
Definition apart {X} (proj : World -> X) : Prop :=
  (forall f i v w, proj (set_page (writeInput f i v) w) = proj w) /\
  (forall v w, proj (set_page (writeVideo v) w) = proj w) /\
  (forall s w, proj (set_lastAnsweredSubTask s w) = proj w).

(** A computation that returns, and after which a reading is as before *)
Definition calm {X A} (proj : World -> X) (m : M A) : Prop :=
  forall w, (exists a, outcomeOf (m w) = Ret a) /\ proj (worldOf (m w)) = proj w.

(** A computation all of whose events are of one kind *)
Definition emits {A} (P : Event -> Prop) (m : M A) : Prop :=
  forall w, Forall P (traceOf (m w)).

(** *** Strings *)

Fixpoint endsWithDigit (s : string) : bool :=
  match s with
  | EmptyString => false
  | String c EmptyString => Str.isDigit c
  | String _ r => endsWithDigit r
  end.

(** The test of [unitIdMatch] at one start: a dash and a digit follow the
    run of digits *)
Definition dashDigit (s : string) : bool :=
  match s with
  | String d (String e _) => Ascii.eqb d "-" && Str.isDigit e
  | _ => false
  end.


(** *** What an invocation of [doAnswer] leaves in its trace *)

(** The indices of a list go up strictly, from [lo] on *)
Fixpoint ascending (lo : nat) (l : list nat) : bool :=
  match l with
  | [] => true
  | x :: r => Nat.leb lo x && ascending (S x) r
  end.

(** The click on option [j] of block [i], for a pair [(i, j)] *)
Definition optionTarget (p : nat * nat) : Target := TOption p.1 p.2.

(** What the free-text loop leaves in the trace for the lines it wrote,
    each with the index of its input *)
Definition fillTrace (f : Field) (picks : list (nat * string)) : Trace :=
  flat_map (fun p => [SetValue f p.1 p.2; DispatchInput f p.1; Sleep 200 0]) picks.

(** The closing log line of [doAnswer] *)
Definition isAppliedEvent (e : Event) : bool :=
  match e with
  | Log _ (MsgApplied _) => true
  | _ => false
  end.

(** The trace of the loops of [doAnswer]: clicks on options of blocks
    whose indices go up, or writes of clean lines into the inputs of one
    field whose indices go up; [acted] tells whether there is any. *)
Definition answerTrace (t : Trace) (acted : bool) : Prop :=
  (exists picks : list (nat * nat),
     t = clickTrace (optionTarget <$> picks) /\
     acted = negb (isNil picks) /\
     ascending 0 (picks.*1) = true) \/
  (exists (f : Field) (picks : list (nat * string)),
     t = fillTrace f picks /\
     acted = negb (isNil picks) /\
     ascending 0 (picks.*1) = true /\
     Forall (fun p => p.2 <> "" /\ Str.trim p.2 = p.2) picks).

(** *** Computations that keep an invariant *)

(** From a state where [I] holds the computation returns, in a state where
    [I] holds *)
Definition safe {A} (I : World -> Prop) (m : M A) : Prop :=
  forall w, I w -> (exists a, outcomeOf (m w) = Ret a) /\ I (worldOf (m w)).

(** The panel of the script is in the page *)
Definition panelOn (w : World) : Prop := q_startStopBtn (page w) = true.

(** The events that act on the course page or on the store: a click that
    is not one on the menu, a write, an [input] event, an operation on the
    video, a value kept with [GM_setValue] *)
Definition isActionEvent (e : Event) : bool :=
  match e with
  | Click (TMenuItem _) => false
  | Click _ => true
  | SetValue _ _ _ | DispatchInput _ _ => true
  | GM_setValue _ _ => true
  | VideoMute | VideoSeek _ | VideoPlay | ListenCanPlay | ArmTimeout _ => true
  | _ => false
  end.

(** The state after [toggleAutomation] has started a run *)
Definition startedWorld (w : World) : World :=
  let w1 := set_lastAnsweredSubTask ""
              (set_gmStore (delete "lastProcessedTaskName")
                 (set_isAutomationRunning true w)) in
  if urlObserver w then w1 else set_urlObserver true w1.

(** What [toggleAutomation] leaves in the trace when it starts a run *)
Definition startedTrace (w : World) : Trace :=
  [SetButton LabelStop; Log success MsgStarted; GM_deleteValue "lastProcessedTaskName"]
    ++ (if urlObserver w then [] else [ObserverStart; Log info MsgObserverStarted])
    ++ [ScheduleMain 1500].

(** The state after [toggleAutomation] has stopped a run *)
Definition pausedWorld (w : World) : World :=
  let w1 := set_isProcessing false (set_isAutomationRunning false w) in
  if urlObserver w then set_urlObserver false w1 else w1.

(** *** The branches of [main] *)

(** The test of line 322: the task and the address are those of the last
    run *)
Definition stalledAt (w : World) (name : string) : bool :=
  String.eqb name (GM_getValue w "lastProcessedTaskName")
  && String.eqb (href w) (GM_getValue w "lastUrl").

(** The state [main] processes a task from: line 327 has cleared
    [lastAnsweredSubTask] if the task is not the one processed last *)
Definition taskWorld (name : string) (w : World) : World :=
  if negb (String.eqb name (GM_getValue w "lastProcessedTaskName"))
  then set_lastAnsweredSubTask "" w
  else w.

(** [COURSE_DATA.UNIT_STRUCTURE.find(t => name.includes(t.id))] *)
Definition taskOf (name : string) : option Task :=
  List.find (fun t => Str.includes name (id t)) UNIT_STRUCTURE.

(** *** The events of the handlers *)

(** The log lines of the handlers and of the submit sequence *)
Definition isHandlerMsg (m : Msg) : bool :=
  match m with
  | MsgNoMainTaskInfo | MsgNoUnitId _ | MsgNoAnswer _ _ _ | MsgFoundAnswer _
  | MsgBankWaiting | MsgBankFailed | MsgApplied _
  | MsgVideo | MsgPlayFailed | MsgVideoDone
  | MsgSkip _
  | MsgVocabulary | MsgVocabularyDone | MsgVocabularyCeiling
  | MsgUnknownMethod _
  | MsgNextQuestion | MsgSubmit _ | MsgConfirm => true
  | _ => false
  end.

(** What the handlers and the submit sequence do: their log lines, the
    waits, the clicks on options, on the flashcard control and on the
    buttons of a question, the writes into inputs, the operations on the
    video.  Not among them: a click on a tab or on the menu, a value kept
    or deleted in the store, the observer, the panel button, a call of
    [main] scheduled. *)
Definition isHandlerEvent (e : Event) : bool :=
  match e with
  | Log _ m => isHandlerMsg m
  | Click (TOption _ _) | Click TVocNext | Click (TNextQuestion _)
  | Click (TSubmit _) | Click TConfirm => true
  | Click _ => false
  | SetValue _ _ _ | DispatchInput _ _ | Sleep _ _ => true
  | VideoMute | VideoSeek _ | VideoPlay | ListenCanPlay | ArmTimeout _ => true
  | _ => false
  end.



(** *** The observer of the address *)

(** Whether an observer is connected after a trace, from whether one was
    before it; [None] if the trace connects a second observer or
    disconnects one that is not there *)
Fixpoint observerAfter (connected : bool) (t : Trace) : option bool :=
  match t with
  | [] => Some connected
  | ObserverStart :: r => if connected then None else observerAfter true r
  | ObserverStop :: r => if connected then observerAfter false r else None
  | _ :: r => observerAfter connected r
  end.

(** What [observerCallback] does besides the assignment to [lastUrl]: the
    log line of line 462, the call of [setTimeout] of line 464 *)
Inductive ObserverEffect :=
  | LogPageJump
  | SetTimeoutMain (ms : nat).

(** [observerCallback], lines 459 to 467, over the variable [lastUrl] of
    its closure: the value of [lastUrl] after the call, and what the call
    does *)
Definition observerCallback (lastUrl : string) (w : World)
    : string * list ObserverEffect :=
  if negb (String.eqb (href w) lastUrl) then
    (href w,
     LogPageJump ::
       (if negb (isProcessing w) && isAutomationRunning w
        then [SetTimeoutMain 1500] else []))
  else (lastUrl, []).

(** The callback run on a sequence of states, one for each record of
    mutations that the observer delivers *)
Fixpoint observe (lastUrl : string) (ws : list World) : string * list ObserverEffect :=
  match ws with
  | [] => (lastUrl, [])
  | w :: r =>
      ((observe (observerCallback lastUrl w).1 r).1,
       (observerCallback lastUrl w).2 ++ (observe (observerCallback lastUrl w).1 r).2)
  end.

(** The flag [urlObserver] follows the observer through a computation *)
Definition tracks {A} (m : M A) : Prop :=
  forall w,
    observerAfter (urlObserver w) (traceOf (m w)) = Some (urlObserver (worldOf (m w))).

(** A sequence of callbacks, each from the state the one before it left:
    the state at the end and the events of all of them *)
Fixpoint runTops (env : Event -> World -> World) (w : World) (calls : list TopLevel)
    : World * Trace :=
  match calls with
  | [] => (w, [])
  | CallMain :: r =>
      ((runTops env (worldOf (main env w)) r).1,
       traceOf (main env w) ++ (runTops env (worldOf (main env w)) r).2)
  | CallToggle :: r =>
      ((runTops env (worldOf (toggleAutomation w)) r).1,
       traceOf (toggleAutomation w) ++ (runTops env (worldOf (toggleAutomation w)) r).2)
  end.

(** *** The submit sequence on a page that stays as it is *)

(** The button of a submit selector is there, is shown and has one of the
    captions of line 420 *)
Definition submittable (p : Page) (selector : nat) : bool :=
  match querySubmit p selector with
  | Some btn => btnVisible btn && isSubmitCaption (btnText btn)
  | None => false
  end.

(** What lines 405 to 410 leave in the trace *)
Definition nextQuestionTrace (p : Page) : Trace :=
  match findIndex (fun b => Str.includes (btnText b) "下一题") (q_primaryButtons p) with
  | Some (k, nextQuestionBtn) =>
      if negb (btnDisabled nextQuestionBtn)
      then [Log info MsgNextQuestion; Click (TNextQuestion k); Sleep 2000 0]
      else []
  | None => []
  end.

(** What lines 421 to 429 leave in the trace for the button of a
    selector *)
Definition submitTrace (p : Page) (selector : nat) : Trace :=
  match querySubmit p selector with
  | Some btn =>
      [Log info (MsgSubmit (Str.trim (btnText btn))); Click (TSubmit selector);
       Sleep 1500 0]
        ++ (if q_confirmBtn p
            then [Log info MsgConfirm; Click TConfirm; Sleep 1500 0]
            else [])
  | None => []
  end.

(** ** Sample pages *)

Module Sample.

Definition blankPage : Page :=
  {| q_menuNodeName := None; q_nodeNameText := None; q_activeTab := None;
     q_testPartName := None; q_choiceQuestions := []; q_textInputs := [];
     q_fillInBlanks := []; q_video := None; q_vocabularyWrapper := false;
     q_vocNext := false; q_tabs := []; q_primaryButtons := [];
     q_coursePageBtn := None; q_primaryLarge := None; q_confirmBtn := false;
     q_sliderMenu := []; q_menuActivity := None; q_startStopBtn := true |}.

(** A host that reacts to nothing *)
Definition idle : Event -> World -> World := fun _ w => w.

Definition running (p : Page) : World :=
  {| page := p; href := "https://ucontent.unipus.cn/course/1";
     isAutomationRunning := true; isProcessing := false; urlObserver := true;
     lastAnsweredSubTask := ""; QUESTION_BANK := ∅; gmStore := ∅ |}.

(** No main task is shown as active *)
Definition unreadable : World := running blankPage.

Definition withMenu (title : string) (p : Page) : Page :=
  {| q_menuNodeName := Some (Some title); q_nodeNameText := q_nodeNameText p;
     q_activeTab := q_activeTab p; q_testPartName := q_testPartName p;
     q_choiceQuestions := q_choiceQuestions p;
     q_textInputs := q_textInputs p; q_fillInBlanks := q_fillInBlanks p;
     q_video := q_video p; q_vocabularyWrapper := q_vocabularyWrapper p;
     q_vocNext := q_vocNext p; q_tabs := q_tabs p;
     q_primaryButtons := q_primaryButtons p; q_coursePageBtn := q_coursePageBtn p;
     q_primaryLarge := q_primaryLarge p; q_confirmBtn := q_confirmBtn p;
     q_sliderMenu := [Some title; Some "1-2 iExplore 1: Learning before class"];
     q_menuActivity := Some (Some 0); q_startStopBtn := q_startStopBtn p |}.

(** The task of the last run is still the active one, at the same address *)
Definition stalled : World :=
  set_gmStore (fun _ => {[ "lastProcessedTaskName" := "1-1 Setting the scene";
                           "lastUrl" := "https://ucontent.unipus.cn/course/1" ]})
    (running (withMenu "1-1 Setting the scene" blankPage)).

Definition withVocabulary (next : bool) (p : Page) : Page :=
  {| q_menuNodeName := q_menuNodeName p; q_nodeNameText := q_nodeNameText p;
     q_activeTab := q_activeTab p; q_testPartName := q_testPartName p;
     q_choiceQuestions := q_choiceQuestions p;
     q_textInputs := q_textInputs p; q_fillInBlanks := q_fillInBlanks p;
     q_video := q_video p; q_vocabularyWrapper := true;
     q_vocNext := next; q_tabs := q_tabs p;
     q_primaryButtons := q_primaryButtons p; q_coursePageBtn := q_coursePageBtn p;
     q_primaryLarge := q_primaryLarge p; q_confirmBtn := q_confirmBtn p;
     q_sliderMenu := q_sliderMenu p; q_menuActivity := q_menuActivity p;
     q_startStopBtn := q_startStopBtn p |}.

(** The last flashcard: the "next" control is disabled *)
Definition flashcardsDone : World := running (withVocabulary false blankPage).

(** A deck whose "next" control stays enabled *)
Definition flashcardsEndless : World := running (withVocabulary true blankPage).

Definition withBank (bank : gmap string (gmap string (gmap string Answer))) (w : World)
    : World :=
  {| page := page w; href := href w;
     isAutomationRunning := isAutomationRunning w; isProcessing := isProcessing w;
     urlObserver := urlObserver w; lastAnsweredSubTask := lastAnsweredSubTask w;
     QUESTION_BANK := bank; gmStore := gmStore w |}.

(** The unit test, with no tab shown as active and no part name *)
Definition unitTest : World :=
  withBank {[ "Unit 1" := {[ "Unit test" := {[ "Part I" := AStr "A B" ]} ]} ]}
    (running (withMenu "1-7 Unit test" blankPage)).

Definition gems : SubTask :=
  {| subName := "Gems of the language"; subMethod := video; subNeedsSubmit := false |}.
Definition repeating : SubTask :=
  {| subName := "Repeating after me"; subMethod := skip; subNeedsSubmit := false |}.
Definition application : SubTask :=
  {| subName := "Application"; subMethod := quiz; subNeedsSubmit := true |}.

(** The tabs of task 1-3 with the second one missing *)
Definition reviewingTabs : list (option string) :=
  [Some "Gems of the language"; Some "Application"].

Definition withTabs (tabs : list (option string)) (p : Page) : Page :=
  {| q_menuNodeName := q_menuNodeName p; q_nodeNameText := q_nodeNameText p;
     q_activeTab := q_activeTab p; q_testPartName := q_testPartName p;
     q_choiceQuestions := q_choiceQuestions p;
     q_textInputs := q_textInputs p; q_fillInBlanks := q_fillInBlanks p;
     q_video := q_video p; q_vocabularyWrapper := q_vocabularyWrapper p;
     q_vocNext := q_vocNext p; q_tabs := tabs;
     q_primaryButtons := q_primaryButtons p; q_coursePageBtn := q_coursePageBtn p;
     q_primaryLarge := q_primaryLarge p; q_confirmBtn := q_confirmBtn p;
     q_sliderMenu := q_sliderMenu p; q_menuActivity := q_menuActivity p;
     q_startStopBtn := q_startStopBtn p |}.

Definition reviewing : World :=
  running (withTabs reviewingTabs
             (withMenu "1-3 iExplore 1: Reviewing after class" blankPage)).

Definition withVideo (v : Video) (p : Page) : Page :=
  {| q_menuNodeName := q_menuNodeName p; q_nodeNameText := q_nodeNameText p;
     q_activeTab := q_activeTab p; q_testPartName := q_testPartName p;
     q_choiceQuestions := q_choiceQuestions p;
     q_textInputs := q_textInputs p; q_fillInBlanks := q_fillInBlanks p;
     q_video := Some v; q_vocabularyWrapper := q_vocabularyWrapper p;
     q_vocNext := q_vocNext p; q_tabs := q_tabs p;
     q_primaryButtons := q_primaryButtons p; q_coursePageBtn := q_coursePageBtn p;
     q_primaryLarge := q_primaryLarge p; q_confirmBtn := q_confirmBtn p;
     q_sliderMenu := q_sliderMenu p; q_menuActivity := q_menuActivity p;
     q_startStopBtn := q_startStopBtn p |}.

(** Ten seconds of video, loaded *)
Definition readyVideo : Video :=
  {| muted := false; readyState := 4; duration := Some (10 # 1); currentTime := 0%Q;
     canplayAfter := Some 0; playLatency := 120; playRejects := false |}.

(** A video that never reports that it can play *)
Definition slowVideo : Video :=
  {| muted := false; readyState := 0; duration := None; currentTime := 0%Q;
     canplayAfter := None; playLatency := 120; playRejects := false |}.

Definition lecture : World := running (withVideo readyVideo blankPage).

(** The same video on a slow line: loaded where it stands, but [play()]
    after the seek takes 8 s to settle *)
Definition bufferingVideo : Video :=
  {| muted := false; readyState := 4; duration := Some (10 # 1); currentTime := 0%Q;
     canplayAfter := Some 0; playLatency := 5000 + 3000; playRejects := false |}.

Definition buffering : World := running (withVideo bufferingVideo blankPage).

Definition stalledVideo : World := running (withVideo slowVideo blankPage).

Definition withQuestions (tab : string) (blocks : list Block) (areas blanks : list string)
    (p : Page) : Page :=
  {| q_menuNodeName := q_menuNodeName p; q_nodeNameText := q_nodeNameText p;
     q_activeTab := Some {| tabTitle := Some tab; tabText := tab |};
     q_testPartName := q_testPartName p;
     q_choiceQuestions := blocks;
     q_textInputs := areas; q_fillInBlanks := blanks;
     q_video := q_video p; q_vocabularyWrapper := q_vocabularyWrapper p;
     q_vocNext := q_vocNext p; q_tabs := q_tabs p;
     q_primaryButtons := q_primaryButtons p; q_coursePageBtn := q_coursePageBtn p;
     q_primaryLarge := q_primaryLarge p; q_confirmBtn := q_confirmBtn p;
     q_sliderMenu := q_sliderMenu p; q_menuActivity := q_menuActivity p;
     q_startStopBtn := q_startStopBtn p |}.

Definition abc : Block :=
  [ {| caption := Some "A"; selected := false |};
    {| caption := Some " B "; selected := false |};
    {| caption := Some "C"; selected := false |} ].

Definition applicationAnswer : string :=
  "1. To say is easier than to do.
2) Mary retired early.
3. Seven days a week.".

(** The bank of the end-to-end scenario of the specification, with an
    entry of lines and an entry of one letter beside it *)
Definition bank : gmap string (gmap string (gmap string Answer)) :=
  {[ "Unit 1" :=
       {[ "iExplore 1: Learning before class" :=
            {[ "Reading comprehension" := AStr "A B A B A";
               "Dealing with vocabulary" := AStr "A" ]};
          "iExplore 1: Reviewing after class" :=
            {[ "Application" := AStr applicationAnswer ]} ]} ]}.

(** Five choice questions under "Reading comprehension" *)
Definition comprehension : World :=
  withBank bank
    (running (withQuestions "Reading comprehension" [abc; abc; abc; abc; abc] [] []
                (withMenu "1-2 iExplore 1: Learning before class" blankPage))).

(** One blank and no choice question, for an answer that is the letter A *)
Definition letterBlank : World :=
  withBank bank
    (running (withQuestions "Dealing with vocabulary" [] [] [""]
                (withMenu "1-2 iExplore 1: Learning before class" blankPage))).

(** Three text areas under "Application", the second one filled already *)
Definition translation : World :=
  withBank bank
    (running (withQuestions "Application" [] [""; "x"; ""] []
                (withMenu "1-3 iExplore 1: Reviewing after class" blankPage))).

(** Three empty text areas under "Application" *)
Definition translationEmpty : World :=
  withBank bank
    (running (withQuestions "Application" [] [""; ""; ""] []
                (withMenu "1-3 iExplore 1: Reviewing after class" blankPage))).

(** A host under which the bank arrives during the wait of 3000 ms *)
Definition loading (e : Event) (w : World) : World :=
  match e with
  | Sleep ms _ => if Nat.eqb ms 3000 then withBank bank w else w
  | _ => w
  end.

(** The page of [translation] before the bank is there *)
Definition unloaded : World :=
  running (withQuestions "Application" [] [""; "x"; ""] []
             (withMenu "1-3 iExplore 1: Reviewing after class" blankPage)).

(** U+00A0, the no-break space *)
Definition nbsp : string := String "194"%char (String "160"%char EmptyString).

(** U+3000, the ideographic space *)
Definition wideSpace : string :=
  String "227"%char (String "128"%char (String "128"%char EmptyString)).

(** Options whose captions are set with no-break spaces *)
Definition padded : Block :=
  [ {| caption := Some (String.append "A" nbsp); selected := false |};
    {| caption := Some (String.append nbsp "B"); selected := false |} ].

(** Two choice questions and a text area, for an answer whose letters a
    no-break space separates *)
Definition pasted : World :=
  withBank {[ "Unit 1" :=
                {[ "iExplore 1: Learning before class" :=
                     {[ "Reading comprehension" :=
                          AStr (String.append "A" (String.append nbsp "B")) ]} ]} ]}
    (running (withQuestions "Reading comprehension" [padded; padded] [""] []
                (withMenu "1-2 iExplore 1: Learning before class" blankPage))).

(** The same video as [bufferingVideo], not loaded yet: [canplay] fires at
    once *)
Definition arrivingVideo : Video :=
  {| muted := false; readyState := 0; duration := Some (10 # 1); currentTime := 0%Q;
     canplayAfter := Some 0; playLatency := 5000 + 3000; playRejects := false |}.

Definition arriving : World := running (withVideo arrivingVideo blankPage).

Definition withChoices (f : list Block -> list Block) (p : Page) : Page :=
  {| q_menuNodeName := q_menuNodeName p; q_nodeNameText := q_nodeNameText p;
     q_activeTab := q_activeTab p; q_testPartName := q_testPartName p;
     q_choiceQuestions := f (q_choiceQuestions p);
     q_textInputs := q_textInputs p; q_fillInBlanks := q_fillInBlanks p;
     q_video := q_video p; q_vocabularyWrapper := q_vocabularyWrapper p;
     q_vocNext := q_vocNext p; q_tabs := q_tabs p;
     q_primaryButtons := q_primaryButtons p; q_coursePageBtn := q_coursePageBtn p;
     q_primaryLarge := q_primaryLarge p; q_confirmBtn := q_confirmBtn p;
     q_sliderMenu := q_sliderMenu p; q_menuActivity := q_menuActivity p;
     q_startStopBtn := q_startStopBtn p |}.

Definition select (o : OptionEl) : OptionEl :=
  {| caption := caption o; selected := true |}.

(** A host that marks the option clicked as selected, and does nothing
    else *)
Definition selecting (e : Event) (w : World) : World :=
  match e with
  | Click (TOption i j) => set_page (withChoices (alter (alter select j) i)) w
  | _ => w
  end.

Definition withoutPanel (p : Page) : Page :=
  {| q_menuNodeName := q_menuNodeName p; q_nodeNameText := q_nodeNameText p;
     q_activeTab := q_activeTab p; q_testPartName := q_testPartName p;
     q_choiceQuestions := q_choiceQuestions p;
     q_textInputs := q_textInputs p; q_fillInBlanks := q_fillInBlanks p;
     q_video := q_video p; q_vocabularyWrapper := q_vocabularyWrapper p;
     q_vocNext := q_vocNext p; q_tabs := q_tabs p;
     q_primaryButtons := q_primaryButtons p; q_coursePageBtn := q_coursePageBtn p;
     q_primaryLarge := q_primaryLarge p; q_confirmBtn := q_confirmBtn p;
     q_sliderMenu := q_sliderMenu p; q_menuActivity := q_menuActivity p;
     q_startStopBtn := false |}.

(** A run on a page that the script's panel has been removed from *)
Definition panelGone : World :=
  running (withoutPanel (withMenu "1-1 Setting the scene" blankPage)).

(** A run that is off *)
Definition stopped (w : World) : World :=
  {| page := page w; href := href w;
     isAutomationRunning := false; isProcessing := false;
     urlObserver := false; lastAnsweredSubTask := lastAnsweredSubTask w;
     QUESTION_BANK := QUESTION_BANK w; gmStore := gmStore w |}.

(** An invocation of [main] is in flight *)
Definition inFlight (w : World) : World := set_isProcessing true w.

(** A task of a unit that the map does not hold *)
Definition unmapped : World := running (withMenu "2-1 Setting the scene" blankPage).

(** A host whose user clicks the panel button during the first wait of
    [main] *)
Definition pausing (e : Event) (w : World) : World :=
  match e with
  | Sleep ms _ => if Nat.eqb ms 3000 then worldOf (toggleAutomation w) else w
  | _ => w
  end.



Definition withActivity (k : nat) (p : Page) : Page :=
  {| q_menuNodeName := q_menuNodeName p; q_nodeNameText := q_nodeNameText p;
     q_activeTab := q_activeTab p; q_testPartName := q_testPartName p;
     q_choiceQuestions := q_choiceQuestions p;
     q_textInputs := q_textInputs p; q_fillInBlanks := q_fillInBlanks p;
     q_video := q_video p; q_vocabularyWrapper := q_vocabularyWrapper p;
     q_vocNext := q_vocNext p; q_tabs := q_tabs p;
     q_primaryButtons := q_primaryButtons p; q_coursePageBtn := q_coursePageBtn p;
     q_primaryLarge := q_primaryLarge p; q_confirmBtn := q_confirmBtn p;
     q_sliderMenu := q_sliderMenu p; q_menuActivity := Some (Some k);
     q_startStopBtn := q_startStopBtn p |}.

(** The last item of the menu is the active one *)
Definition lastTask : World :=
  running (withActivity 1 (withMenu "1-2 iExplore 1: Learning before class" blankPage)).

Definition withButtons (course large : option Btn) (primary : list Btn) (confirm : bool)
    (p : Page) : Page :=
  {| q_menuNodeName := q_menuNodeName p; q_nodeNameText := q_nodeNameText p;
     q_activeTab := q_activeTab p; q_testPartName := q_testPartName p;
     q_choiceQuestions := q_choiceQuestions p;
     q_textInputs := q_textInputs p; q_fillInBlanks := q_fillInBlanks p;
     q_video := q_video p; q_vocabularyWrapper := q_vocabularyWrapper p;
     q_vocNext := q_vocNext p; q_tabs := q_tabs p;
     q_primaryButtons := primary; q_coursePageBtn := course;
     q_primaryLarge := large; q_confirmBtn := confirm;
     q_sliderMenu := q_sliderMenu p; q_menuActivity := q_menuActivity p;
     q_startStopBtn := q_startStopBtn p |}.

(** A question page: the button of the first selector is hidden, the large
    primary button is the one to submit with, and a confirmation follows *)
Definition submitting : World :=
  running
    (withButtons
       (Some {| btnText := "提交"; btnDisabled := false; btnVisible := false |})
       (Some {| btnText := " 提交 "; btnDisabled := false; btnVisible := true |})
       [ {| btnText := "下一题"; btnDisabled := true; btnVisible := true |};
         {| btnText := " 提交 "; btnDisabled := false; btnVisible := true |} ]
       true blankPage).

End Sample.
(** * Properties *)

(** ** The string functions on samples *)

Example trim_ex : Str.trim "  A B
 " = "A B".
Proof. reflexivity. Qed.

Example trim_nbsp_ex :
  Str.trim (String.append Sample.nbsp (String.append "A B" Sample.nbsp)) = "A B" /\
  Str.trim (String.append Sample.wideSpace (String.append "甲 乙" Sample.wideSpace)) = "甲 乙" /\
  Str.removeSpaces (String.append "A" (String.append Sample.nbsp "B")) = "AB" /\
  Str.removeSpaces (String.append "A" (String.append Sample.wideSpace "B")) = "AB" /\
  Str.lettersPattern (String.append "A" (String.append Sample.nbsp "B")) = true /\
  Str.lettersPattern (String.append "A" Sample.nbsp) = false /\
  Str.stripOrdinal (String.append "2." (String.append Sample.nbsp "x y")) = "x y".
Proof. repeat split. Qed.

Example answerLines_ex :
  Str.answerLines "1. To say
2) x y

3.)z
 4. w" = ["To say"; "x y"; "z"; "4. w"].
Proof. reflexivity. Qed.

Example lettersPattern_ex :
  Str.lettersPattern "A B  AC" = true /\ Str.lettersPattern "A B " = false /\
  Str.lettersPattern " A" = false /\ Str.lettersPattern "A b" = false.
Proof. repeat split. Qed.

Example unitIdMatch_ex :
  Str.unitIdMatch "12-3 Unit test" = Some "12" /\
  Str.unitIdMatch "a1b22-3" = Some "22" /\
  Str.unitIdMatch "Unit 1-" = None.
Proof. repeat split. Qed.

(** ** Running the monad *)

Lemma prepend_nil {A} (r : Outcome A * World * Trace) : prepend [] r = r.
Proof. destruct r as [[o w] t]. reflexivity. Qed.

Lemma prepend_prepend {A} t1 t2 (r : Outcome A * World * Trace) :
  prepend t1 (prepend t2 r) = prepend (t1 ++ t2) r.
Proof. unfold prepend, outcomeOf, worldOf, traceOf. simpl. by rewrite app_assoc. Qed.

Section Run.
Context {A B : Type}.
Implicit Types (k : A -> M B) (w : World).

Lemma run_bind (m : M A) k w :
  bind m k w =
    match outcomeOf (m w) with
    | Ret a => prepend (traceOf (m w)) (k a (worldOf (m w)))
    | Throw e => (Throw e, worldOf (m w), traceOf (m w))
    end.
Proof.
  unfold bind, prepend, outcomeOf, worldOf, traceOf.
  destruct (m w) as [[[a|e] w1] t1]; simpl; [|reflexivity].
  destruct (k a w1) as [[o w2] t2]. reflexivity.
Qed.

Lemma run_ret (a : A) k w : bind (ret a) k w = k a w.
Proof. rewrite run_bind. simpl. apply prepend_nil. Qed.

Lemma run_throw e k w : bind (throw e) k w = (Throw e, w, []).
Proof. reflexivity. Qed.
End Run.

Lemma run_get {B} (k : World -> M B) w : bind get k w = k w w.
Proof. rewrite run_bind. simpl. apply prepend_nil. Qed.

Lemma run_modify {B} f (k : unit -> M B) w : bind (modify f) k w = k tt (f w).
Proof. rewrite run_bind. simpl. apply prepend_nil. Qed.

Lemma run_note {B} e (k : unit -> M B) w : bind (note e) k w = prepend [e] (k tt w).
Proof. rewrite run_bind. reflexivity. Qed.

Lemma run_log {B} m l (k : unit -> M B) w :
  bind (log m l) k w = prepend [Log l m] (k tt w).
Proof. apply run_note. Qed.

Lemma run_act {B} env e (k : unit -> M B) w :
  bind (act env e) k w = prepend [e] (k tt (env e w)).
Proof. rewrite run_bind. reflexivity. Qed.

Lemma run_sleep {B} env ms j (k : unit -> M B) w :
  bind (sleep env ms j) k w = prepend [Sleep ms j] (k tt (env (Sleep ms j) w)).
Proof. apply run_act. Qed.

Lemma run_click {B} env t (k : unit -> M B) w :
  bind (robustClick env t) k w = prepend [Click t] (k tt (env (Click t) w)).
Proof. apply run_act. Qed.

Lemma bind_assoc {A B C} (m : M A) (f : A -> M B) (g : B -> M C) w :
  bind (bind m f) g w = bind m (fun a => bind (f a) g) w.
Proof.
  unfold bind. destruct (m w) as [[[a|e] w1] t1]; [|reflexivity].
  destruct (f a w1) as [[[b|e] w2] t2]; [|reflexivity].
  destruct (g b w2) as [[o w3] t3]. by rewrite app_assoc.
Qed.

Lemma outcomeOf_prepend {A} t (r : Outcome A * World * Trace) :
  outcomeOf (prepend t r) = outcomeOf r.
Proof. reflexivity. Qed.

Lemma worldOf_prepend {A} t (r : Outcome A * World * Trace) :
  worldOf (prepend t r) = worldOf r.
Proof. reflexivity. Qed.

Lemma traceOf_prepend {A} t (r : Outcome A * World * Trace) :
  traceOf (prepend t r) = t ++ traceOf r.
Proof. reflexivity. Qed.

Ltac mrun :=
  repeat (first [ rewrite run_ret | rewrite run_get | rewrite run_modify
                | rewrite run_log | rewrite run_note | rewrite run_sleep
                | rewrite run_click | rewrite run_act | rewrite run_throw
                | rewrite bind_assoc ]; cbv beta).

Ltac mleaf :=
  unfold log, note, ret, throw, get, modify, sleep, robustClick, act;
  rewrite ?prepend_prepend; unfold prepend, outcomeOf, worldOf, traceOf; simpl.

(** ** The sequencer *)

Lemma toggleAutomation_isProcessing w :
  isProcessing w = false -> isProcessing (worldOf (toggleAutomation w)) = false.
Proof.
  intros H. unfold toggleAutomation, setButton, startObserver, stopObserver. mrun.
  destruct (isAutomationRunning (set_isAutomationRunning _ w)); mrun;
    (destruct (q_startStopBtn _); mrun; [|by mleaf]);
    destruct (urlObserver _); mrun; by mleaf.
Qed.

Lemma toggleAutomation_quiet w :
  Forall (fun e => isProcessingEvent e = false) (traceOf (toggleAutomation w)).
Proof.
  unfold toggleAutomation, setButton, startObserver, stopObserver. mrun.
  destruct (isAutomationRunning (set_isAutomationRunning _ w)); mrun;
    (destruct (q_startStopBtn _); mrun; [|mleaf; by repeat constructor]);
    destruct (urlObserver _); mrun; mleaf; by repeat constructor.
Qed.

Lemma navigateToNextMainTask_quiet env w :
  Forall (fun e => isProcessingEvent e = false) (traceOf (navigateToNextMainTask env w)).
Proof.
  unfold navigateToNextMainTask, setButton. mrun.
  destruct (mjoin _); mrun; [|mleaf; by repeat constructor].
  destruct (_ !! _); mrun; [mleaf; by repeat constructor|].
  destruct (q_startStopBtn _); mrun; [|mleaf; by repeat constructor].
  rewrite !prepend_prepend, traceOf_prepend. apply Forall_app. split.
  - by repeat constructor.
  - apply toggleAutomation_quiet.
Qed.

Lemma run_tryCatch {A} (m : M A) h w :
  tryCatch m h w =
    match outcomeOf (m w) with
    | Ret a => m w
    | Throw e => prepend (traceOf (m w)) (h e (worldOf (m w)))
    end.
Proof.
  unfold tryCatch, prepend, outcomeOf, worldOf, traceOf.
  destruct (m w) as [[[a|e] w1] t1]; simpl; [reflexivity|].
  destruct (h e w1) as [[o w2] t2]. reflexivity.
Qed.

Lemma tryCatch_prepend {A} (m m' : M A) h w w1 t :
  m w = prepend t (m' w1) ->
  tryCatch m h w = prepend t (tryCatch m' h w1).
Proof.
  intros H. rewrite !run_tryCatch, H, outcomeOf_prepend.
  destruct (outcomeOf (m' w1)); [reflexivity|].
  by rewrite worldOf_prepend, traceOf_prepend, prepend_prepend.
Qed.

Lemma main_active env w :
  isProcessing w = false -> isAutomationRunning w = true ->
  main env w =
    (outcomeOf (tryCatch (mainTry env) mainCatch (set_isProcessing true w)),
     set_isProcessing false (worldOf (tryCatch (mainTry env) mainCatch (set_isProcessing true w))),
     traceOf (tryCatch (mainTry env) mainCatch (set_isProcessing true w))).
Proof.
  intros H1 H2. unfold main. rewrite H1, H2. simpl.
  unfold tryFinally, outcomeOf, worldOf, traceOf.
  by destruct (tryCatch (mainTry env) mainCatch (set_isProcessing true w)) as [[o w1] t1].
Qed.

Lemma main_isProcessing env w :
  isProcessing w = false -> isProcessing (worldOf (main env w)) = false.
Proof.
  intros H. destruct (isAutomationRunning w) eqn:Hr.
  - by rewrite main_active.
  - unfold main. rewrite H, Hr. exact H.
Qed.

(** C5.  An invocation of [main] that finds [isProcessing] set or
    [isAutomationRunning] false returns at once: same state, no event.
    Any other invocation runs its body from the state with [isProcessing]
    set and ends, whether the body returned or threw, in a state with
    [isProcessing] cleared.  Hence, from a state where the flag is clear, it
    is clear again after each call of [main] or of [toggleAutomation]. *)
Theorem main_reentrancy_guard env w :
  (isProcessing w = true \/ isAutomationRunning w = false -> main env w = (Ret tt, w, [])) /\
  (isProcessing w = false -> isAutomationRunning w = true ->
     main env w =
       (outcomeOf (tryCatch (mainTry env) mainCatch (set_isProcessing true w)),
        set_isProcessing false (worldOf (tryCatch (mainTry env) mainCatch (set_isProcessing true w))),
        traceOf (tryCatch (mainTry env) mainCatch (set_isProcessing true w)))
     /\ isProcessing (worldOf (main env w)) = false) /\
  (forall calls, isProcessing w = false ->
     isProcessing (foldl (runTop env) w calls) = false).
Proof.
  split; [|split].
  - intros [H|H]; unfold main; rewrite H; simpl; [reflexivity|].
    by destruct (isProcessing w).
  - intros H1 H2. split; [by apply main_active | by apply main_isProcessing].
  - intros calls. revert w. induction calls as [|c calls IH]; intros w H; simpl; [exact H|].
    apply IH. destruct c; simpl.
    + by apply main_isProcessing.
    + by apply toggleAutomation_isProcessing.
Qed.


(** The witness of C5: a run that is on, with nothing on the page. *)
Lemma main_reentrancy_guard_witness :
  isProcessing (worldOf (main Sample.idle Sample.unreadable)) = false.
Proof.
  exact (proj2 (proj1 (proj2 (main_reentrancy_guard Sample.idle Sample.unreadable))
                  eq_refl eq_refl)).
Defined.

(** C3, as the script has it.  When the label of the main task cannot be
    read, the invocation logs the error and stops the run at once, on the
    first such failure: the script counts no failures.  The run that was
    on is off afterwards, [isProcessing] is clear, and nothing but the wait,
    the error and the stopping is in the trace. *)
Theorem main_unreadable_label env w :
  isProcessing w = false -> isAutomationRunning w = true ->
  truthyOpt (mjoin (q_menuNodeName (page (afterEntry env w)))) = None ->
  isAutomationRunning (afterEntry env w) = true ->
  isAutomationRunning (worldOf (main env w)) = false /\
  isProcessing (worldOf (main env w)) = false /\
  traceOf (main env w) =
    Sleep 3000 0 :: Log error (MsgFatal ErrNoMainTask)
      :: pausedTrace (afterEntry env w) /\
  outcomeOf (main env w) =
    if q_startStopBtn (page (afterEntry env w))
    then Ret tt else Throw ErrNullButton.
Proof.
  intros H1 H2 Hl Hr. rewrite main_active by assumption.
  unfold afterEntry in *.
  set (w1 := env (Sleep 3000 0) (set_isProcessing true w)) in *.
  assert (Hb : mainTry env (set_isProcessing true w) = (Throw ErrNoMainTask, w1, [Sleep 3000 0])).
  { unfold mainTry. mrun. fold w1. rewrite Hl. reflexivity. }
  rewrite run_tryCatch, Hb. cbn [outcomeOf worldOf traceOf fst snd].
  unfold mainCatch, toggleAutomation, setButton, stopObserver, pausedTrace. mrun.
  replace (isAutomationRunning (set_isAutomationRunning (negb (isAutomationRunning w1)) w1))
    with false by (by rewrite Hr).
  mrun. change (page (set_isAutomationRunning (negb (isAutomationRunning w1)) w1)) with (page w1).
  destruct (q_startStopBtn (page w1)); mrun; [|mleaf; by rewrite Hr].
  change (urlObserver (set_isProcessing false (set_isAutomationRunning (negb (isAutomationRunning w1)) w1)))
    with (urlObserver w1).
  destruct (urlObserver w1); mrun; mleaf; by rewrite Hr.
Qed.


Lemma main_unreadable_label_witness :
  isAutomationRunning (worldOf (main Sample.idle Sample.unreadable)) = false.
Proof.
  exact (proj1 (main_unreadable_label Sample.idle Sample.unreadable
                  eq_refl eq_refl eq_refl eq_refl)).
Defined.

(** C3 as stated fails: the run is on, the label cannot be read, and after
    this first failure the run is off. *)
Lemma main_first_failure_disables :
  isAutomationRunning Sample.unreadable = true /\
  mjoin (q_menuNodeName (page (afterEntry Sample.idle Sample.unreadable))) = None /\
  isAutomationRunning (worldOf (main Sample.idle Sample.unreadable)) <> true.
Proof. repeat split. vm_compute. discriminate. Qed.

Lemma tryCatch_Forall {A} (P : Event -> Prop) (m : M A) h w :
  Forall P (traceOf (m w)) ->
  (forall e w', Forall P (traceOf (h e w'))) ->
  Forall P (traceOf (tryCatch m h w)).
Proof.
  intros Hm Hh. rewrite run_tryCatch. destruct (outcomeOf (m w)); [exact Hm|].
  rewrite traceOf_prepend. apply Forall_app. split; [exact Hm | apply Hh].
Qed.

Lemma tryCatch_trace {A} (m : M A) h w :
  exists t', traceOf (tryCatch m h w) = traceOf (m w) ++ t'.
Proof.
  rewrite run_tryCatch. destruct (outcomeOf (m w)).
  - exists []. by rewrite app_nil_r.
  - rewrite traceOf_prepend. eauto.
Qed.

Lemma navigateToNextMainTask_starts env w :
  exists r, navigateToNextMainTask env w = prepend [Sleep 2000 0; Log info MsgNavigating] r.
Proof.
  unfold navigateToNextMainTask. mrun. rewrite prepend_prepend. eauto.
Qed.

Lemma mainCatch_quiet e w :
  Forall (fun e => isProcessingEvent e = false) (traceOf (mainCatch e w)).
Proof.
  unfold mainCatch. mrun. rewrite traceOf_prepend. apply Forall_app. split.
  - by repeat constructor.
  - apply toggleAutomation_quiet.
Qed.

Lemma truthyOpt_Some o s : o = Some s -> s <> "" -> truthyOpt o = Some s.
Proof. intros -> H. destruct s; [done | reflexivity]. Qed.

(** C2.  When the label that [main] reads is the persisted
    [lastProcessedTaskName] and the address is the persisted [lastUrl], the
    invocation has no event of task processing in its trace: no handler
    runs and nothing is submitted.  If the invocation is past its guard and
    the label is not empty, [main] logs the stall and does nothing but
    [navigateToNextMainTask], under its own [catch] and [finally], and the
    navigation is entered. *)
Theorem main_stall_forces_navigation env w name :
  mjoin (q_menuNodeName (page (afterEntry env w))) = Some name ->
  GM_getValue (afterEntry env w) "lastProcessedTaskName" = name ->
  GM_getValue (afterEntry env w) "lastUrl" = href (afterEntry env w) ->
  Forall (fun e => isProcessingEvent e = false) (traceOf (main env w)) /\
  (isProcessing w = false -> isAutomationRunning w = true -> name <> "" ->
     main env w =
       (outcomeOf (tryCatch (navigateToNextMainTask env) mainCatch (afterEntry env w)),
        set_isProcessing false
          (worldOf (tryCatch (navigateToNextMainTask env) mainCatch (afterEntry env w))),
        Sleep 3000 0 :: Log warn (MsgStuck name)
          :: traceOf (tryCatch (navigateToNextMainTask env) mainCatch (afterEntry env w))) /\
     exists rest,
       traceOf (tryCatch (navigateToNextMainTask env) mainCatch (afterEntry env w)) =
         Sleep 2000 0 :: Log info MsgNavigating :: rest).
Proof.
  intros Hl Hp Hu.
  assert (Hm : isProcessing w = false -> isAutomationRunning w = true -> name <> "" ->
    main env w =
    (outcomeOf (tryCatch (navigateToNextMainTask env) mainCatch (afterEntry env w)),
     set_isProcessing false
       (worldOf (tryCatch (navigateToNextMainTask env) mainCatch (afterEntry env w))),
     Sleep 3000 0 :: Log warn (MsgStuck name)
       :: traceOf (tryCatch (navigateToNextMainTask env) mainCatch (afterEntry env w)))).
  { intros H1 H2 Hne.
    assert (Hb : mainTry env (set_isProcessing true w) =
                 prepend [Sleep 3000 0; Log warn (MsgStuck name)]
                   (navigateToNextMainTask env (afterEntry env w))).
    { unfold mainTry. mrun. fold (afterEntry env w).
      rewrite (truthyOpt_Some _ _ Hl Hne), Hp, Hu, !String.eqb_refl. simpl.
      mrun. by rewrite prepend_prepend. }
    rewrite main_active by assumption.
    by rewrite (tryCatch_prepend _ _ _ _ _ _ Hb). }
  split.
  - destruct (isProcessing w) eqn:H1; [by unfold main; rewrite H1|].
    destruct (isAutomationRunning w) eqn:H2; [|by unfold main; rewrite H1, H2].
    destruct (String.eqb_spec name "") as [->|Hne].
    + rewrite main_active by assumption. cbn [traceOf snd].
      assert (Hb : mainTry env (set_isProcessing true w) =
                   (Throw ErrNoMainTask, afterEntry env w, [Sleep 3000 0])).
      { unfold mainTry. mrun. fold (afterEntry env w). by rewrite Hl. }
      rewrite run_tryCatch, Hb. cbn [outcomeOf worldOf traceOf fst snd].
      repeat constructor. apply mainCatch_quiet.
    + rewrite (Hm eq_refl eq_refl Hne). cbn [traceOf snd]. repeat constructor.
      apply tryCatch_Forall; [apply navigateToNextMainTask_quiet | apply mainCatch_quiet].
  - intros H1 H2 Hne. split; [by apply Hm|].
    destruct (tryCatch_trace (navigateToNextMainTask env) mainCatch (afterEntry env w))
      as [t' ->].
    destruct (navigateToNextMainTask_starts env (afterEntry env w)) as [r ->].
    rewrite traceOf_prepend. simpl. eauto.
Qed.

Lemma main_stall_forces_navigation_witness :
  traceOf (main Sample.idle Sample.stalled) =
    [Sleep 3000 0; Log warn (MsgStuck "1-1 Setting the scene"); Sleep 2000 0;
     Log info MsgNavigating;
     Log success (MsgNextTask (Some "1-2 iExplore 1: Learning before class"));
     Click (TMenuItem 1)].
Proof.
  rewrite (proj1 (proj2 (main_stall_forces_navigation Sample.idle Sample.stalled
                           "1-1 Setting the scene" eq_refl eq_refl eq_refl)
                    eq_refl eq_refl ltac:(discriminate))).
  reflexivity.
Defined.

(** ** The flashcard handler *)

Lemma clicksOf_app t1 t2 : clicksOf (t1 ++ t2) = clicksOf t1 ++ clicksOf t2.
Proof.
  induction t1 as [|e t1 IH]; [reflexivity|].
  destruct e; simpl; rewrite ?IH; reflexivity.
Qed.

Lemma vocabularyLoop_bounded env n : forall w,
  exists b w' t,
    vocabularyLoop env n w = (Ret b, w', t) /\
    clicksOf t = replicate (length (clicksOf t)) TVocNext /\
    length (clicksOf t) <= n /\
    length t <= 2 * n + 1 /\
    (length (clicksOf t) = n ->
       b = true /\ exists t0, t = t0 ++ [Log warn MsgVocabularyCeiling]) /\
    (b = false -> isAutomationRunning w' = false).
Proof.
  induction n as [|n IH]; intros w.
  - exists true, w, [Log warn MsgVocabularyCeiling]. simpl. repeat split; try lia; try done.
    by exists [].
  - cbn [vocabularyLoop]. mrun.
    destruct (isAutomationRunning w) eqn:Hr; simpl.
    + destruct (q_vocNext (page w)) eqn:Hn.
      * mrun. rewrite prepend_prepend.
        destruct (IH (env (Sleep 600 400) (env (Click TVocNext) w)))
          as (b & w' & t & -> & Hc & Hle & Hlen & Hceil & Hoff).
        exists b, w', ([Click TVocNext; Sleep 600 400] ++ t). simpl.
        split; [reflexivity|]. split; [by f_equal|].
        split; [lia|]. split; [lia|]. split; [|exact Hoff].
        intros Heq. destruct Hceil as [-> [t0 ->]]; [lia|].
        split; [reflexivity|]. by exists (Click TVocNext :: Sleep 600 400 :: t0).
      * exists true, w, [Log success MsgVocabularyDone]. simpl.
        repeat split; try lia; try done.
    + exists false, w, []. simpl. repeat split; try lia; try done.
Qed.

Lemma vocabularyWhile_enough env n : forall fuel w,
  n < fuel ->
  vocabularyWhile env fuel (Z.of_nat n) w = Some (vocabularyLoop env n w).
Proof.
  induction n as [|n IH]; intros [|fuel] w Hlt; try lia.
  - reflexivity.
  - cbn [vocabularyWhile vocabularyLoop]. mrun.
    destruct (Z.ltb_spec 0 (Z.of_nat (S n))) as [_|?]; [|lia].
    destruct (negb (isAutomationRunning w)); [reflexivity|].
    destruct (q_vocNext (page w)); [|by mleaf].
    mrun. replace (Z.of_nat (S n) - 1)%Z with (Z.of_nat n) by lia.
    rewrite IH by lia. simpl. by rewrite prepend_prepend.
Qed.

(** C7.  [handleVocabularyTask] returns, never throws, for every host: it
    clicks nothing but the "next" control, at most 50 times, and its trace
    has at most 102 events.  After 50 clicks it logs that the ceiling is
    reached and returns [true].  It returns [false] only with the run
    turned off.  In the loop, a run that is off ends it at once with
    [false], and a missing enabled "next" control ends it with [true].
    The loop as written, with its integer counter, is left within 51 tests
    of its condition. *)
Theorem handleVocabularyTask_terminates env w :
  (exists b w' t,
     handleVocabularyTask env w = (Ret b, w', t) /\
     clicksOf t = replicate (length (clicksOf t)) TVocNext /\
     length (clicksOf t) <= 50 /\
     length t <= 102 /\
     (length (clicksOf t) = 50 ->
        b = true /\ exists t0, t = t0 ++ [Log warn MsgVocabularyCeiling]) /\
     (b = false -> isAutomationRunning w' = false)) /\
  (forall n w0, isAutomationRunning w0 = false ->
     vocabularyLoop env (S n) w0 = (Ret false, w0, [])) /\
  (forall n w0, isAutomationRunning w0 = true -> q_vocNext (page w0) = false ->
     vocabularyLoop env (S n) w0 = (Ret true, w0, [Log success MsgVocabularyDone])) /\
  (forall fuel w0, 50 < fuel ->
     vocabularyWhile env fuel 50 w0 = Some (vocabularyLoop env 50 w0)).
Proof.
  split; [|split; [|split]].
  - unfold handleVocabularyTask. mrun.
    destruct (q_vocabularyWrapper (page w)).
    + destruct (vocabularyLoop_bounded env 50 w)
        as (b & w' & t & -> & Hc & Hle & Hlen & Hceil & Hoff).
      exists b, w', (Log info MsgVocabulary :: t). simpl.
      split; [reflexivity|]. split; [exact Hc|]. split; [exact Hle|].
      split; [lia|]. split; [|exact Hoff].
      intros Heq. destruct (Hceil Heq) as [-> [t0 ->]].
      split; [reflexivity|]. by exists (Log info MsgVocabulary :: t0).
    + exists true, w, [Log info MsgVocabulary]. simpl.
      repeat split; try lia; try done.
  - intros n w0 H. cbn [vocabularyLoop]. mrun. by rewrite H.
  - intros n w0 H1 H2. cbn [vocabularyLoop]. mrun. by rewrite H1, H2.
  - intros fuel w0 Hlt. by apply (vocabularyWhile_enough env 50).
Qed.

Lemma handleVocabularyTask_terminates_witness :
  vocabularyLoop Sample.idle 50 Sample.flashcardsDone =
    (Ret true, Sample.flashcardsDone, [Log success MsgVocabularyDone]).
Proof.
  exact (proj1 (proj2 (proj2 (handleVocabularyTask_terminates Sample.idle
                                Sample.flashcardsDone)))
           49 Sample.flashcardsDone eq_refl eq_refl).
Defined.

(** A deck whose "next" control never goes away: 50 clicks, then success. *)
Example handleVocabularyTask_ceiling :
  outcomeOf (handleVocabularyTask Sample.idle Sample.flashcardsEndless) = Ret true /\
  length (clicksOf (traceOf (handleVocabularyTask Sample.idle Sample.flashcardsEndless))) = 50.
Proof. split; vm_compute; reflexivity. Qed.

(** C10.  With a main-task label that holds a unit id, no active sub-task
    tab and no test-part-name element, the sub-task name is ["Part I"]:
    unless that view is the one answered last, the result is the entry
    of the bank under the unit, the task and ["Part I"]; it is found if it
    is there and truthy, and only logged as missing otherwise. *)
Theorem getPageContextAndAnswers_default_part w label unitId :
  truthyOpt (mainTaskContentOf (page w)) = Some label ->
  Str.unitIdMatch label = Some unitId ->
  q_activeTab (page w) = None ->
  q_testPartName (page w) = None ->
  activeSubTaskNameOf (page w) = "Part I" /\
  (lastAnsweredSubTask w = dedupKey label "Part I" ->
     getPageContextAndAnswers w = (Ret CtxAnswered, w, [])) /\
  (lastAnsweredSubTask w <> dedupKey label "Part I" ->
     getPageContextAndAnswers w =
       match bankLookup (QUESTION_BANK w) (String.append "Unit " unitId)
               (mainTaskKeyOf label) "Part I" with
       | Some answers =>
           if answerTruthy answers
           then (Ret (CtxFound answers label "Part I"), w,
                 [Log success (MsgFoundAnswer "Part I")])
           else (Ret CtxNull, w,
                 [Log warn (MsgNoAnswer (String.append "Unit " unitId)
                              (mainTaskKeyOf label) "Part I")])
       | None =>
           (Ret CtxNull, w,
            [Log warn (MsgNoAnswer (String.append "Unit " unitId)
                         (mainTaskKeyOf label) "Part I")])
       end).
Proof.
  intros Hl Hu Ht Hp.
  assert (Hs : activeSubTaskNameOf (page w) = "Part I").
  { unfold activeSubTaskNameOf. by rewrite Ht, Hp. }
  split; [exact Hs|]. split.
  - intros Hk. unfold getPageContextAndAnswers. mrun.
    rewrite Hl, Hu, Hs, Hk, String.eqb_refl. reflexivity.
  - intros Hk. unfold getPageContextAndAnswers. mrun.
    rewrite Hl, Hu, Hs.
    destruct (String.eqb_spec (lastAnsweredSubTask w) (dedupKey label "Part I")) as [E|_];
      [done|].
    destruct (bankLookup _ _ _ _) as [a|]; [destruct (answerTruthy a)|]; mrun; by mleaf.
Qed.

Lemma getPageContextAndAnswers_default_part_witness :
  getPageContextAndAnswers Sample.unitTest =
    (Ret (CtxFound (AStr "A B") "1-7 Unit test" "Part I"), Sample.unitTest,
     [Log success (MsgFoundAnswer "Part I")]).
Proof.
  exact (proj2 (proj2 (getPageContextAndAnswers_default_part Sample.unitTest
                         "1-7 Unit test" "1" eq_refl eq_refl eq_refl eq_refl))
           ltac:(discriminate)).
Defined.

(** ** The loop over the sub-tasks *)

Lemma bind_ext {A B} (m : M A) (k k' : A -> M B) w :
  (forall a w', k a w' = k' a w') -> bind m k w = bind m k' w.
Proof.
  intros H. unfold bind. destruct (m w) as [[[a|e] w1] t1]; [|reflexivity].
  by rewrite H.
Qed.


Lemma compositeLoop_app env tabs pre post : forall w,
  compositeLoop env tabs (pre ++ post) w =
    bind (compositeLoop env tabs pre) (thenLoop (compositeLoop env tabs post)) w.
Proof.
  induction pre as [|c pre IH]; intros w.
  - simpl. by rewrite run_ret.
  - cbn [compositeLoop app]. mrun.
    destruct (negb (isAutomationRunning w)); [by rewrite run_ret|].
    destruct (findIndex _ tabs) as [[k t]|]; mrun.
    + do 3 f_equal. apply bind_ext. intros _ w1.
      rewrite bind_assoc. apply bind_ext. intros _ w2. apply IH.
    + f_equal. apply IH.
Qed.

Lemma findIndexFrom_none {A} (p : A -> bool) (l : list A) k :
  (forall i x, l !! i = Some x -> p x = false) -> findIndexFrom p k l = None.
Proof.
  revert k. induction l as [|x l IH]; intros k H; [reflexivity|].
  simpl. rewrite (H 0 x eq_refl). apply IH. intros i y Hi. exact (H (S i) y Hi).
Qed.

(** C9.  In the loop over the sub-tasks of a composite task, when the
    loop reaches a sub-task with the run still on and no collected tab has
    that sub-task's name as its title, it logs the warning and goes on with
    the sub-tasks after it, from the same state: the loop over
    [pre ++ c :: post] is the loop over [pre], the warning, then the loop
    over [post]. *)
Theorem compositeLoop_missing_tab env tabs pre c post w :
  (forall k t, tabs !! k = Some t -> t <> Some (subName c)) ->
  outcomeOf (compositeLoop env tabs pre w) = Ret Completed ->
  isAutomationRunning (worldOf (compositeLoop env tabs pre w)) = true ->
  compositeLoop env tabs (pre ++ c :: post) w =
    prepend (traceOf (compositeLoop env tabs pre w)
               ++ [Log warn (MsgTabMissing (subName c))])
      (compositeLoop env tabs post (worldOf (compositeLoop env tabs pre w))).
Proof.
  intros Hmiss Hdone Hrun. rewrite compositeLoop_app, run_bind, Hdone.
  cbn [thenLoop compositeLoop]. mrun. rewrite Hrun. simpl.
  unfold findIndex. rewrite findIndexFrom_none.
  - mrun. by rewrite prepend_prepend.
  - intros i [t|] Hi; [|reflexivity].
    destruct (String.eqb_spec t (subName c)) as [->|_]; [|reflexivity].
    by destruct (Hmiss i _ Hi).
Qed.


Lemma compositeLoop_missing_tab_witness :
  traceOf (main Sample.idle Sample.reviewing) =
    [Sleep 3000 0; Log success (MsgStartMain "1-3 iExplore 1: Reviewing after class");
     Log info (MsgStartSub "Gems of the language" video); Click (TTab 0); Sleep 2500 0;
     Log warn (MsgTabMissing "Repeating after me");
     Log info (MsgStartSub "Application" quiz); Click (TTab 1); Sleep 2500 0;
     Log warn MsgBankWaiting; Sleep 3000 0; Log error MsgBankFailed;
     Sleep 1000 0; Sleep 1500 0;
     Log info (MsgMainDone "1-3 iExplore 1: Reviewing after class"); Sleep 1000 0;
     GM_setValue "lastProcessedTaskName" "1-3 iExplore 1: Reviewing after class";
     GM_setValue "lastUrl" "https://ucontent.unipus.cn/course/1";
     Sleep 2000 0; Log info MsgNavigating;
     Log success (MsgNextTask (Some "1-2 iExplore 1: Learning before class"));
     Click (TMenuItem 1)] /\
  compositeLoop Sample.idle Sample.reviewingTabs
    ([Sample.gems] ++ Sample.repeating :: [Sample.application])
    (afterEntry Sample.idle Sample.reviewing) =
  prepend (traceOf (compositeLoop Sample.idle Sample.reviewingTabs [Sample.gems]
                      (afterEntry Sample.idle Sample.reviewing))
             ++ [Log warn (MsgTabMissing "Repeating after me")])
    (compositeLoop Sample.idle Sample.reviewingTabs [Sample.application]
       (worldOf (compositeLoop Sample.idle Sample.reviewingTabs [Sample.gems]
                   (afterEntry Sample.idle Sample.reviewing)))).
Proof.
  split; [vm_compute; reflexivity|].
  apply (compositeLoop_missing_tab Sample.idle Sample.reviewingTabs
           [Sample.gems] Sample.repeating [Sample.application]).
  - intros [|[|k]] t Hk; simpl in Hk; try discriminate;
      injection Hk as <-; discriminate.
  - reflexivity.
  - reflexivity.
Defined.

(** ** The video handler *)

Lemma liveVideo_write w v0 x c :
  q_video (page w) = Some v0 -> liveVideo (set_page (writeVideo x) w) c = x.
Proof. intros H. unfold liveVideo. simpl. by rewrite H. Qed.


Lemma elapsed_app t1 t2 : elapsed (t1 ++ t2) = elapsed t1 + elapsed t2.
Proof.
  induction t1 as [|e t1 IH]; [reflexivity|].
  destruct e; simpl; rewrite ?IH; lia.
Qed.

Lemma elapsed_playEnd v : elapsed (playEnd v) = 0.
Proof. unfold playEnd. by destruct (playRejects v). Qed.

Lemma liveVideo_muted w v :
  q_video (page w) = Some v -> liveVideo (mutedWorld w v) v = withMuted v.
Proof. apply liveVideo_write. Qed.

Lemma handleVideoTask_ready env w v :
  q_video (page w) = Some v -> 2 <= readyState v ->
  exists w', handleVideoTask env w =
    (Ret true, w',
     [Log info MsgVideo; VideoMute; VideoSeek (seekTarget (duration v));
      VideoPlay; Sleep (playLatency v) 0] ++ playEnd v ++ [ArmTimeout 5000]).
Proof.
  intros Hv Hr.
  assert (Hlive : liveVideo w v = v) by (unfold liveVideo; by rewrite Hv).
  unfold handleVideoTask, muteVideo, seekAndPlay, afterPlay. mrun. rewrite Hv. mrun.
  rewrite Hlive. fold (mutedWorld w v). rewrite (liveVideo_muted w v Hv).
  cbn [readyState playLatency playRejects withMuted].
  destruct (Nat.leb_spec 2 (readyState v)) as [_|?]; [|lia].
  mrun. rewrite (liveVideo_muted w v Hv). cbn [duration withMuted].
  unfold playEnd. destruct (playRejects v); mrun; mleaf; eauto.
Qed.

Lemma handleVideoTask_waiting env w v :
  q_video (page w) = Some v -> readyState v < 2 ->
  exists w', handleVideoTask env w =
    (Ret true, w',
     [Log info MsgVideo; VideoMute; ListenCanPlay; ArmTimeout 5000] ++
     match canplayAfter v with
     | Some c =>
         if Nat.ltb c 5000 then
           [Sleep c 0; VideoSeek (seekTarget (duration (videoAfter env w v c)));
            VideoPlay] ++
           (if Nat.leb (c + playLatency (videoAfter env w v c)) 5000
            then Sleep (playLatency (videoAfter env w v c)) 0
                   :: playEnd (videoAfter env w v c)
            else [Sleep (5000 - c) 0])
         else [Sleep 5000 0]
     | None => [Sleep 5000 0]
     end).
Proof.
  intros Hv Hr.
  assert (Hlive : liveVideo w v = v) by (unfold liveVideo; by rewrite Hv).
  unfold handleVideoTask, muteVideo, seekAndPlay, afterPlay. mrun. rewrite Hv. mrun.
  rewrite Hlive. fold (mutedWorld w v). rewrite (liveVideo_muted w v Hv).
  cbn [readyState canplayAfter withMuted].
  destruct (Nat.leb_spec 2 (readyState v)) as [?|_]; [lia|].
  mrun. destruct (canplayAfter v) as [c|]; [|mleaf; eauto].
  destruct (Nat.ltb c 5000); [|mleaf; eauto].
  mrun. fold (videoAfter env w v c).
  destruct (Nat.leb _ 5000); [|mleaf; eauto].
  mrun. unfold playEnd. destruct (playRejects _); mrun; mleaf; eauto.
Qed.

(** C8, the script at an element that is ready and whose [play()] takes
    8000 ms to settle after the seek.  The handler is done after 8000 ms,
    not at the ceiling of 5000 ms: [onCanPlay] is awaited before the timer
    is armed, so the timer is the last thing set up and the handler is
    over by then.  With the same element not loaded yet, where the timer
    is armed beside the listener, the handler is done at the ceiling. *)
Lemma handleVideoTask_no_ceiling_when_ready :
  readyState Sample.bufferingVideo = 4 /\
  playLatency Sample.bufferingVideo = 5000 + 3000 /\
  handleVideoTask Sample.idle Sample.buffering =
    (Ret true,
     set_page (writeVideo (withCurrentTime (17 # 2) (withMuted Sample.bufferingVideo)))
       Sample.buffering,
     [Log info MsgVideo; VideoMute; VideoSeek (17 # 2);
      VideoPlay; Sleep (5000 + 3000) 0; Log success MsgVideoDone; ArmTimeout 5000]) /\
  elapsed (traceOf (handleVideoTask Sample.idle Sample.buffering)) = 5000 + 3000 /\
  elapsed (traceOf (handleVideoTask Sample.idle Sample.buffering)) <>
    Nat.min (playLatency Sample.bufferingVideo) 5000 /\
  readyState Sample.arrivingVideo = 0 /\
  traceOf (handleVideoTask Sample.idle Sample.arriving) =
    [Log info MsgVideo; VideoMute; ListenCanPlay; ArmTimeout 5000;
     Sleep 0 0; VideoSeek (17 # 2); VideoPlay; Sleep 5000 0] /\
  elapsed (traceOf (handleVideoTask Sample.idle Sample.arriving)) = 5000.
Proof. repeat split. vm_compute. discriminate. Qed.


(** ** The answering engine *)

Lemma getPageContextAndAnswers_found w answers label sub :
  outcomeOf (getPageContextAndAnswers w) = Ret (CtxFound answers label sub) ->
  getPageContextAndAnswers w =
    (Ret (CtxFound answers label sub), w, [Log success (MsgFoundAnswer sub)]) /\
  truthyOpt (mainTaskContentOf (page w)) = Some label /\
  (exists unitId, Str.unitIdMatch label = Some unitId) /\
  activeSubTaskNameOf (page w) = sub /\
  bankIsEmpty w = false.
Proof.
  unfold getPageContextAndAnswers. mrun.
  destruct (truthyOpt _) as [l|]; [|mrun; by mleaf].
  destruct (Str.unitIdMatch l) as [u|] eqn:Hu; [|mrun; by mleaf].
  destruct (String.eqb _ _); [by mleaf|].
  destruct (bankLookup _ _ _ _) as [a|] eqn:Hb; [|mrun; by mleaf].
  destruct (answerTruthy a); mrun; mleaf; [|done].
  intros [= -> -> ->]. repeat split; eauto.
  unfold bankIsEmpty. apply bool_decide_eq_false. intros E.
  unfold bankLookup in Hb. by rewrite E, lookup_empty in Hb.
Qed.

Lemma doAnswer_found env w answers label sub :
  outcomeOf (getPageContextAndAnswers w) = Ret (CtxFound answers label sub) ->
  doAnswer env w =
    prepend [Log success (MsgFoundAnswer sub)]
      (bind (applyAnswers env answers)
         (fun answered =>
            if answered
            then do _ <- log (MsgApplied sub) success;
                 modify (set_lastAnsweredSubTask (dedupKey label sub))
            else ret tt) w).
Proof.
  intros Hc. apply getPageContextAndAnswers_found in Hc as (Hc & _ & _ & _ & Hb).
  unfold doAnswer. mrun. rewrite Hb. mrun. simpl.
  rewrite run_bind, Hc. reflexivity.
Qed.

Lemma choiceLoop_no_free_text env items : forall a w,
  exists b, outcomeOf (choiceLoop env items a w) = Ret b /\
  Forall (fun e => isFreeTextEvent e = false) (traceOf (choiceLoop env items a w)).
Proof.
  induction items as [|[[i l] blk] items IH]; intros a w.
  - exists a. split; [reflexivity|constructor].
  - cbn [choiceLoop]. mrun. destruct (findOption _ _) as [j|].
    + mrun. rewrite prepend_prepend.
      destruct (IH true (env (Sleep 200 100) (env (Click (TOption i j)) w))) as [b [Ho Ht]].
      exists b. split; [exact Ho|]. rewrite traceOf_prepend.
      apply Forall_app. split; [by repeat constructor | exact Ht].
    + apply IH.
Qed.

Lemma expectedClicks_trace env letters : forall blocks k a w,
  choiceStable env ->
  (forall j b, blocks !! j = Some b -> q_choiceQuestions (page w) !! (k + j) = Some b) ->
  exists w',
    choiceLoop env (indexedFrom k letters blocks) a w =
      (Ret (a || negb (isNil (expectedClicks (indexedFrom k letters blocks)))), w',
       clickTrace (expectedClicks (indexedFrom k letters blocks))).
Proof.
  induction letters as [|l letters IH]; intros blocks k a w Hs Hb.
  - exists w. simpl. by rewrite orb_false_r.
  - destruct blocks as [|blk blocks].
    { exists w. simpl. by rewrite orb_false_r. }
    cbn [indexedFrom choiceLoop expectedClicks]. mrun.
    assert (Hlive : liveBlock w k blk = blk).
    { unfold liveBlock. specialize (Hb 0 blk eq_refl).
      rewrite Nat.add_0_r in Hb. by rewrite Hb. }
    rewrite Hlive.
    destruct (findOption l blk) as [j|].
    + mrun. rewrite prepend_prepend.
      destruct (IH blocks (S k) true (env (Sleep 200 100) (env (Click (TOption k j)) w)) Hs)
        as [w' ->].
      { intros j' b Hj. destruct Hs as [Hc Hw]. rewrite Hw, Hc by lia.
        specialize (Hb (S j') b Hj). by replace (S k + j') with (k + S j') by lia. }
      exists w'. unfold prepend. simpl. by rewrite orb_true_r.
    + apply IH; [exact Hs|].
      intros j' b Hj. specialize (Hb (S j') b Hj).
      by replace (S k + j') with (k + S j') by lia.
Qed.

Lemma spaceLen_upper c r : Str.isUpper c = true -> Str.spaceLen (String c r) = 0.
Proof.
  unfold Str.isUpper. intros H.
  apply andb_true_iff in H as [H1 H2]. apply Nat.leb_le in H1, H2.
  assert (E : forall m, 90 < m -> Nat.eqb (Str.code c) m = false)
    by (intros m Hm; apply Nat.eqb_neq; lia).
  assert (E1 : Str.space1 (Str.code c) = false).
  { unfold Str.space1.
    destruct (Nat.leb_spec 9 (Str.code c)), (Nat.leb_spec (Str.code c) 13),
      (Nat.eqb_spec (Str.code c) 32); simpl; try reflexivity; lia. }
  assert (E2 : forall b, Str.space2 (Str.code c) b = false).
  { intros b. unfold Str.space2. by rewrite E by lia. }
  assert (E3 : forall b d, Str.space3 (Str.code c) b d = false).
  { intros b d. unfold Str.space3. by rewrite !E by lia. }
  unfold Str.spaceLen. rewrite E1. destruct r as [|b [|d r]]; [done| |]; by rewrite E2, ?E3.
Qed.

Lemma lettersTailFrom_trimEnd r : forall k b,
  (0 < k -> b = true) ->
  Str.lettersTailFrom k b r = true ->
  Str.trimEndFrom k r = r /\ (b = true -> r <> "").
Proof.
  induction r as [|c r IH]; intros k b Hk H.
  - destruct k; [|discriminate]. split; [reflexivity|]. intros ->. discriminate.
  - split; [|done]. cbn [Str.lettersTailFrom Str.trimEndFrom] in *.
    destruct k as [|k].
    + destruct (Str.isUpper c) eqn:Hu.
      * rewrite (spaceLen_upper c r Hu).
        destruct (IH 0 false ltac:(lia) H) as [-> _]. reflexivity.
      * destruct (Str.spaceLen (String c r)) as [|k]; [discriminate|].
        destruct (IH k true ltac:(done) H) as [-> Hne].
        destruct r; [by destruct (Hne eq_refl) | reflexivity].
    + assert (b = true) as -> by (apply Hk; lia).
      destruct (IH k true ltac:(done) H) as [-> Hne].
      destruct r; [by destruct (Hne eq_refl) | reflexivity].
Qed.

Lemma lettersPattern_trim s : Str.lettersPattern s = true -> Str.trim s = s.
Proof.
  destruct s as [|c r]; [done|]. cbn [Str.lettersPattern]. intros H.
  apply andb_true_iff in H as [Hu Ht].
  unfold Str.trim, Str.trimStart, Str.trimEnd.
  cbn [Str.trimStartFrom]. rewrite (spaceLen_upper c r Hu).
  cbn [Str.trimEndFrom]. rewrite (spaceLen_upper c r Hu).
  by destruct (lettersTailFrom_trimEnd r 0 false ltac:(lia) Ht) as [-> _].
Qed.

Lemma doAnswer_waits env w :
  bankIsEmpty w = true ->
  doAnswer env w =
    prepend [Log warn MsgBankWaiting; Sleep 3000 0]
      (if bankIsEmpty (env (Sleep 3000 0) w)
       then (Ret tt, env (Sleep 3000 0) w, [Log error MsgBankFailed])
       else doAnswer env (env (Sleep 3000 0) w)).
Proof.
  intros Hb. unfold doAnswer at 1. mrun. rewrite Hb. mrun.
  rewrite prepend_prepend. f_equal.
  destruct (bankIsEmpty (env (Sleep 3000 0) w)) eqn:Hb1; mrun; [by mleaf|].
  unfold doAnswer. mrun. rewrite Hb1. mrun. reflexivity.
Qed.

(** An invocation that finds an answer: the wait for the bank if there is
    one, then the invocation in the state it reads the page in *)
Lemma doAnswer_answering env w answers label sub :
  outcomeOf (getPageContextAndAnswers (answeringState env w)) =
    Ret (CtxFound answers label sub) ->
  doAnswer env w = prepend (waitingTrace w) (doAnswer env (answeringState env w)).
Proof.
  unfold answeringState, waitingTrace. intros Hc.
  destruct (bankIsEmpty w) eqn:Hb; [|by destruct (doAnswer env w) as [[o w'] t]].
  apply getPageContextAndAnswers_found in Hc as (_ & _ & _ & _ & Hb1).
  by rewrite (doAnswer_waits env w Hb), Hb1.
Qed.

Lemma waitingTrace_no_free_text w :
  Forall (fun e => isFreeTextEvent e = false) (waitingTrace w).
Proof. unfold waitingTrace. destruct (bankIsEmpty w); by repeat constructor. Qed.

Lemma waitingTrace_no_click w : clicksOf (waitingTrace w) = [].
Proof. unfold waitingTrace. by destruct (bankIsEmpty w). Qed.

Lemma applyAnswers_letters env w s :
  Str.lettersPattern s = true ->
  q_choiceQuestions (page w) <> [] ->
  applyAnswers env (AStr s) w =
    choiceLoop env (indexed (Str.chars (Str.removeSpaces s)) (q_choiceQuestions (page w)))
      false w.
Proof.
  intros Hp Hc. unfold applyAnswers. mrun. rewrite (lettersPattern_trim s Hp), Hp.
  by destruct (q_choiceQuestions (page w)).
Qed.

Lemma Forall_free_text_tail (b : bool) (m : M unit) w :
  (forall w', Forall (fun e => isFreeTextEvent e = false) (traceOf (m w'))) ->
  Forall (fun e => isFreeTextEvent e = false)
    (traceOf ((if b then m else ret tt) w)).
Proof. intros H. destruct b; [apply H | constructor]. Qed.

(** C1, as the script has it.  [doAnswer] reads the page in the state it
    is called in or, when the bank is empty then, in the state after its
    wait of 3000 ms.  For an answer string that matches
    [^[A-Z](\s*[A-Z])*$], found there for a view that shows at least one
    choice-question block: the invocation writes into no input and
    dispatches no [input] event, whatever the host does; and with
    independent questions its trace is the wait for the bank if there was
    one, the log line, then for each index below the number of blocks and
    of letters, in order, a click on the first option of that block whose
    trimmed caption is that letter and that is not selected, if there is
    one, each followed by its wait, then the closing log line if anything
    was clicked. *)
Theorem doAnswer_letters_are_choices env w s label sub :
  outcomeOf (getPageContextAndAnswers (answeringState env w)) =
    Ret (CtxFound (AStr s) label sub) ->
  Str.lettersPattern s = true ->
  q_choiceQuestions (page (answeringState env w)) <> [] ->
  Forall (fun e => isFreeTextEvent e = false) (traceOf (doAnswer env w)) /\
  (choiceStable env ->
     traceOf (doAnswer env w) =
       waitingTrace w ++
       Log success (MsgFoundAnswer sub)
         :: clickTrace (expectedClicks
                          (indexed (Str.chars (Str.removeSpaces s))
                             (q_choiceQuestions (page (answeringState env w)))))
         ++ (if isNil (expectedClicks
                         (indexed (Str.chars (Str.removeSpaces s))
                            (q_choiceQuestions (page (answeringState env w)))))
             then [] else [Log success (MsgApplied sub)])).
Proof.
  intros Hc Hp Hq. rewrite (doAnswer_answering env w _ _ _ Hc), traceOf_prepend.
  set (w0 := answeringState env w) in *.
  rewrite (doAnswer_found env w0 _ _ _ Hc).
  rewrite run_bind, (applyAnswers_letters env w0 s Hp Hq). split.
  - apply Forall_app. split; [apply waitingTrace_no_free_text|].
    destruct (choiceLoop_no_free_text env
               (indexed (Str.chars (Str.removeSpaces s)) (q_choiceQuestions (page w0)))
               false w0) as [b [-> Ht]].
    rewrite !traceOf_prepend. repeat constructor. apply Forall_app. split; [exact Ht|].
    destruct b; mrun; mleaf; by repeat constructor.
  - intros Hs. f_equal.
    destruct (expectedClicks_trace env (Str.chars (Str.removeSpaces s))
                (q_choiceQuestions (page w0)) 0 false w0 Hs) as [w' E]; [by intros|].
    fold (indexed (Str.chars (Str.removeSpaces s)) (q_choiceQuestions (page w0))) in E.
    rewrite E. cbn [outcomeOf worldOf traceOf fst snd orb].
    destruct (isNil _); mrun; mleaf; [by rewrite app_nil_r | reflexivity].
Qed.


Lemma inputsOf_writeInput f i v p :
  inputsOf f (writeInput f i v p) = <[i:=v]> (inputsOf f p).
Proof. by destruct f. Qed.

Lemma fillLoop_no_click env f items : forall a w,
  exists b, outcomeOf (fillLoop env f items a w) = Ret b /\
  clicksOf (traceOf (fillLoop env f items a w)) = [].
Proof.
  induction items as [|[[i l] v] items IH]; intros a w.
  - exists a. split; reflexivity.
  - cbn [fillLoop]. mrun. destruct (Str.truthy _).
    + apply IH.
    + mrun. rewrite !prepend_prepend.
      destruct (IH true (env (Sleep 200 0)
                  (env (DispatchInput f i) (set_page (writeInput f i l) w)))) as [b [Ho Ht]].
      exists b. split; [exact Ho|]. rewrite traceOf_prepend, clicksOf_app. by rewrite Ht.
Qed.

Lemma expectedWrites_trace env f lines : forall values k a w,
  fillStable env f ->
  (forall j v, values !! j = Some v -> inputsOf f (page w) !! (k + j) = Some v) ->
  exists w',
    fillLoop env f (indexedFrom k lines values) a w =
      (Ret (a || negb (isNil (expectedWrites f (indexedFrom k lines values)))), w',
       expectedWrites f (indexedFrom k lines values)).
Proof.
  induction lines as [|l lines IH]; intros values k a w Hs Hb.
  - exists w. simpl. by rewrite orb_false_r.
  - destruct values as [|v values].
    { exists w. simpl. by rewrite orb_false_r. }
    cbn [indexedFrom fillLoop expectedWrites]. mrun.
    assert (Hlive : liveValue w f k v = v).
    { unfold liveValue. specialize (Hb 0 v eq_refl).
      rewrite Nat.add_0_r in Hb. by rewrite Hb. }
    rewrite Hlive.
    destruct (Str.truthy v).
    + apply IH; [exact Hs|].
      intros j' b Hj. specialize (Hb (S j') b Hj).
      by replace (S k + j') with (k + S j') by lia.
    + mrun. rewrite !prepend_prepend.
      destruct (IH values (S k) true
                  (env (Sleep 200 0) (env (DispatchInput f k) (set_page (writeInput f k l) w)))
                  Hs) as [w' ->].
      { intros j' b Hj. destruct Hs as [Hc Hw]. rewrite Hw, Hc by lia.
        cbn [page set_page]. rewrite inputsOf_writeInput.
        rewrite list_lookup_insert_ne by lia.
        specialize (Hb (S j') b Hj). by replace (S k + j') with (k + S j') by lia. }
      exists w'. unfold prepend. simpl. by rewrite orb_true_r.
Qed.

Lemma applyAnswers_lines env w s f :
  q_choiceQuestions (page w) = [] \/ Str.lettersPattern (Str.trim s) = false ->
  freeTextField (page w) = Some f ->
  applyAnswers env (AStr s) w =
    fillLoop env f (indexed (Str.answerLines s) (inputsOf f (page w))) false w.
Proof.
  intros Hc Hf. unfold applyAnswers. mrun.
  assert (Nat.ltb 0 (length (q_choiceQuestions (page w)))
          && Str.lettersPattern (Str.trim s) = false) as ->.
  { destruct Hc as [-> | ->]; [reflexivity | apply andb_false_r]. }
  unfold freeTextField in Hf.
  destruct (Nat.ltb 0 (length (q_textInputs (page w)))); [by injection Hf as <-|].
  destruct (Nat.ltb 0 (length (q_fillInBlanks (page w)))); [by injection Hf as <-|done].
Qed.

Lemma dropDigits_app ds rest :
  allDigits ds = true -> startsWithDigit rest = false ->
  Str.dropDigits (String.append ds rest) = rest.
Proof.
  intros Hd Hr. induction ds as [|c ds IH].
  - change (String.append "" rest) with rest.
    destruct rest as [|c r]; [reflexivity|].
    cbn [startsWithDigit Str.dropDigits] in *. by rewrite Hr.
  - change (String.append (String c ds) rest) with (String c (String.append ds rest)).
    cbn [allDigits] in Hd. apply andb_true_iff in Hd as [Hc Hd].
    cbn [Str.dropDigits]. rewrite Hc. by apply IH.
Qed.

Lemma append_cons c s t : String.append (String c s) t = String c (String.append s t).
Proof. reflexivity. Qed.

(** The marker that [Str.stripOrdinal] strips: nothing from a line that
    does not start with a digit; the digits, the closing parenthesis after
    them and the white space that follows; the digits, the dot after them
    and the white space that follows, when no parenthesis comes after the
    dot. *)
Lemma stripOrdinal_spec :
  (forall line, startsWithDigit line = false -> Str.stripOrdinal line = line) /\
  (forall ds rest, ds <> "" -> allDigits ds = true ->
     Str.stripOrdinal (String.append ds (String ")" rest)) = Str.trimStart rest) /\
  (forall ds rest, ds <> "" -> allDigits ds = true -> startsWith ")" rest = false ->
     Str.stripOrdinal (String.append ds (String "." rest)) = Str.trimStart rest).
Proof.
  split; [|split].
  - intros [|c r] H; [reflexivity|].
    cbn [startsWithDigit Str.stripOrdinal] in *. by rewrite H.
  - intros ds rest Hne Hd.
    pose proof (dropDigits_app ds (String ")" rest) Hd eq_refl) as E.
    destruct ds as [|c ds]; [done|]. rewrite append_cons in *.
    unfold Str.stripOrdinal. cbn [allDigits] in Hd.
    apply andb_true_iff in Hd as [Hc _]. by rewrite Hc, E.
  - intros ds rest Hne Hd Hr.
    pose proof (dropDigits_app ds (String "." rest) Hd eq_refl) as E.
    destruct ds as [|c ds]; [done|]. rewrite append_cons in *.
    unfold Str.stripOrdinal. cbn [allDigits] in Hd.
    apply andb_true_iff in Hd as [Hc _]. rewrite Hc, E.
    cbn [Str.dropChar Ascii.eqb Bool.eqb]. f_equal.
    destruct rest as [|d rest]; [reflexivity|].
    cbn [startsWith Str.dropChar] in *. by rewrite Hr.
Qed.

(** C6, as the script has it.  [doAnswer] reads the page in the state it
    is called in or, when the bank is empty then, in the state after its
    wait of 3000 ms.  For an answer string that is not handled as letters
    (its trimmed form does not match the letter pattern, or no
    choice-question block is shown), with a text area or else a blank on
    the page: the invocation clicks nothing; and with independent inputs
    its trace is the wait for the bank if there was one, the log line, then
    for each index below the number of inputs and of lines, in order, the
    write of that line into that input and its [input] event and wait if
    the input is empty, nothing if it has a value, then the closing log
    line if anything was written.  The lines are those of the split on
    newlines, each with its ordinal marker stripped and trimmed, the empty
    ones dropped.  A line that does not start with a digit has no marker;
    the marker of a line that starts with digits and a closing parenthesis,
    or with digits and a dot that no parenthesis follows, is these and the
    white space after them. *)
Theorem doAnswer_lines_fill_inputs env w s label sub f :
  outcomeOf (getPageContextAndAnswers (answeringState env w)) =
    Ret (CtxFound (AStr s) label sub) ->
  q_choiceQuestions (page (answeringState env w)) = [] \/
    Str.lettersPattern (Str.trim s) = false ->
  freeTextField (page (answeringState env w)) = Some f ->
  clicksOf (traceOf (doAnswer env w)) = [] /\
  (fillStable env f ->
     traceOf (doAnswer env w) =
       waitingTrace w ++
       Log success (MsgFoundAnswer sub)
         :: expectedWrites f (indexed (Str.answerLines s)
                                (inputsOf f (page (answeringState env w))))
         ++ (if isNil (expectedWrites f
                         (indexed (Str.answerLines s)
                            (inputsOf f (page (answeringState env w)))))
             then [] else [Log success (MsgApplied sub)])) /\
  Str.answerLines s =
    List.filter Str.truthy
      (List.map (fun line => Str.trim (Str.stripOrdinal line)) (Str.splitLines s)) /\
  (forall line, startsWithDigit line = false -> Str.stripOrdinal line = line) /\
  (forall ds rest, ds <> "" -> allDigits ds = true ->
     Str.stripOrdinal (String.append ds (String ")" rest)) = Str.trimStart rest) /\
  (forall ds rest, ds <> "" -> allDigits ds = true -> startsWith ")" rest = false ->
     Str.stripOrdinal (String.append ds (String "." rest)) = Str.trimStart rest).
Proof.
  intros Hc Hq Hf.
  split; [|split; [|split; [reflexivity | apply stripOrdinal_spec]]].
  - rewrite (doAnswer_answering env w _ _ _ Hc), traceOf_prepend.
    set (w0 := answeringState env w) in *.
    rewrite (doAnswer_found env w0 _ _ _ Hc).
    rewrite run_bind, (applyAnswers_lines env w0 s f Hq Hf).
    destruct (fillLoop_no_click env f
                (indexed (Str.answerLines s) (inputsOf f (page w0))) false w0)
      as [b [-> Ht]].
    rewrite clicksOf_app, waitingTrace_no_click.
    rewrite !traceOf_prepend, !clicksOf_app, Ht.
    destruct b; mrun; by mleaf.
  - intros Hs. rewrite (doAnswer_answering env w _ _ _ Hc), traceOf_prepend.
    set (w0 := answeringState env w) in *. f_equal.
    rewrite (doAnswer_found env w0 _ _ _ Hc).
    rewrite run_bind, (applyAnswers_lines env w0 s f Hq Hf).
    destruct (expectedWrites_trace env f (Str.answerLines s)
                (inputsOf f (page w0)) 0 false w0 Hs) as [w' E]; [by intros|].
    fold (indexed (Str.answerLines s) (inputsOf f (page w0))) in E.
    rewrite E. cbn [outcomeOf worldOf traceOf fst snd orb].
    destruct (isNil _); mrun; mleaf; [by rewrite app_nil_r | reflexivity].
Qed.


Lemma viewOf_env env e w : sameView env -> viewOf (env e w) = viewOf w.
Proof. intros H. destruct (H e w) as (H1 & H2 & _ & H4). unfold viewOf. by rewrite H1, H2, H4. Qed.

Lemma viewOf_writeInput f i v w : viewOf (set_page (writeInput f i v) w) = viewOf w.
Proof. reflexivity. Qed.

Lemma choiceLoop_view env items : sameView env -> forall a w,
  exists b w' t, choiceLoop env items a w = (Ret b, w', t) /\
    viewOf w' = viewOf w /\ (a = true -> b = true) /\ (b = false -> w' = w /\ t = []).
Proof.
  intros Hs. induction items as [|[[i l] blk] items IH]; intros a w.
  - exists a, w, []. by repeat split.
  - cbn [choiceLoop]. mrun. destruct (findOption _ _) as [j|].
    + mrun. rewrite prepend_prepend.
      destruct (IH true (env (Sleep 200 100) (env (Click (TOption i j)) w)))
        as (b & w' & t & -> & Hv & Ht & Hf).
      exists b, w', ([Click (TOption i j); Sleep 200 100] ++ t).
      split; [reflexivity|]. split; [by rewrite Hv, !viewOf_env|].
      split; [by intros _; apply Ht|]. intros ->. by specialize (Ht eq_refl).
    + apply IH.
Qed.

Lemma fillLoop_view env f items : sameView env -> forall a w,
  exists b w' t, fillLoop env f items a w = (Ret b, w', t) /\
    viewOf w' = viewOf w /\ (a = true -> b = true) /\ (b = false -> w' = w /\ t = []).
Proof.
  intros Hs. induction items as [|[[i l] v] items IH]; intros a w.
  - exists a, w, []. by repeat split.
  - cbn [fillLoop]. mrun. destruct (Str.truthy _).
    + apply IH.
    + mrun. rewrite !prepend_prepend.
      destruct (IH true (env (Sleep 200 0)
                  (env (DispatchInput f i) (set_page (writeInput f i l) w))))
        as (b & w' & t & -> & Hv & Ht & Hf).
      exists b, w', ([SetValue f i l; DispatchInput f i; Sleep 200 0] ++ t).
      split; [reflexivity|]. split; [by rewrite Hv, !viewOf_env, viewOf_writeInput|].
      split; [by intros _; apply Ht|]. intros ->. by specialize (Ht eq_refl).
Qed.

Lemma applyAnswers_view env answers w : sameView env ->
  exists b w' t, applyAnswers env answers w = (Ret b, w', t) /\
    viewOf w' = viewOf w /\ (b = false -> w' = w /\ t = []).
Proof.
  intros Hs. unfold applyAnswers. mrun.
  destruct answers as [s|o]; [|by exists false, w, []].
  destruct (_ && _).
  { destruct (choiceLoop_view env (indexed (Str.chars (Str.removeSpaces (Str.trim s)))
                (q_choiceQuestions (page w))) Hs false w) as (b & w' & t & E & Hv & _ & Hf).
    by exists b, w', t. }
  destruct (Nat.ltb 0 (length (q_textInputs (page w)))).
  { destruct (fillLoop_view env TextArea (indexed (Str.answerLines s)
                (q_textInputs (page w))) Hs false w) as (b & w' & t & E & Hv & _ & Hf).
    by exists b, w', t. }
  destruct (Nat.ltb 0 (length (q_fillInBlanks (page w)))).
  { destruct (fillLoop_view env Blank (indexed (Str.answerLines s)
                (q_fillInBlanks (page w))) Hs false w) as (b & w' & t & E & Hv & _ & Hf).
    by exists b, w', t. }
  by exists false, w, [].
Qed.

Lemma bankIsEmpty_view w w' : viewOf w' = viewOf w -> bankIsEmpty w' = bankIsEmpty w.
Proof. unfold viewOf, bankIsEmpty. by intros [= _ _ ->]. Qed.

Lemma getPageContextAndAnswers_quiet w :
  exists c t, getPageContextAndAnswers w = (Ret c, w, t) /\
    Forall (fun e => isQuietEvent e = true) t.
Proof.
  unfold getPageContextAndAnswers. mrun.
  destruct (truthyOpt _) as [l|]; [|mrun; mleaf; eexists _, _; split; [reflexivity|by repeat constructor]].
  destruct (Str.unitIdMatch l) as [u|]; [|mrun; mleaf; eexists _, _; split; [reflexivity|by repeat constructor]].
  destruct (String.eqb _ _); [mleaf; eexists _, _; split; [reflexivity|by repeat constructor]|].
  destruct (bankLookup _ _ _ _) as [a|]; [destruct (answerTruthy a)|];
    mrun; mleaf; eexists _, _; (split; [reflexivity|by repeat constructor]).
Qed.

(** The three ways an invocation ends *)
Lemma doAnswer_cases env w : sameView env ->
  (bankIsEmpty w = true /\
   doAnswer env w =
     (Ret tt, env (Sleep 3000 0) w,
      [Log warn MsgBankWaiting; Sleep 3000 0; Log error MsgBankFailed])) \/
  (bankIsEmpty w = false /\
   exists t, doAnswer env w = (Ret tt, w, t) /\
     Forall (fun e => isQuietEvent e = true) t) \/
  (bankIsEmpty w = false /\
   exists w1 t answers label sub,
     doAnswer env w = (Ret tt, w1, t) /\
     outcomeOf (getPageContextAndAnswers w) = Ret (CtxFound answers label sub) /\
     viewOf w1 = viewOf w /\
     lastAnsweredSubTask w1 = dedupKey label sub).
Proof.
  intros Hs. destruct (bankIsEmpty w) eqn:Hb.
  - left. split; [reflexivity|]. unfold doAnswer. mrun. rewrite Hb. mrun.
    rewrite (bankIsEmpty_view _ _ (viewOf_env env _ w Hs)), Hb. mrun. by mleaf.
  - right. destruct (getPageContextAndAnswers_quiet w) as (c & t0 & Hc & Hq).
    destruct c as [| |answers label sub].
    + left. split; [reflexivity|]. exists t0. split; [|exact Hq].
      unfold doAnswer. mrun. rewrite Hb. mrun. simpl. rewrite run_bind, Hc.
      mleaf. by rewrite app_nil_r.
    + left. split; [reflexivity|]. exists t0. split; [|exact Hq].
      unfold doAnswer. mrun. rewrite Hb. mrun. simpl. rewrite run_bind, Hc.
      mleaf. by rewrite app_nil_r.
    + assert (Ho : outcomeOf (getPageContextAndAnswers w) = Ret (CtxFound answers label sub))
        by (by rewrite Hc).
      rewrite (doAnswer_found env w _ _ _ Ho), run_bind.
      destruct (applyAnswers_view env answers w Hs) as (b & w' & t & -> & Hv & Hf).
      cbn [outcomeOf worldOf traceOf fst snd]. destruct b.
      * right. split; [reflexivity|]. mrun.
        eexists _, _, answers, label, sub. split; [by mleaf|]. by repeat split.
      * left. split; [reflexivity|]. destruct (Hf eq_refl) as [-> ->].
        eexists. split; [by mleaf|]. by repeat constructor.
Qed.

Lemma doAnswer_again env w w1 answers label sub :
  bankIsEmpty w = false ->
  outcomeOf (getPageContextAndAnswers w) = Ret (CtxFound answers label sub) ->
  viewOf w1 = viewOf w ->
  lastAnsweredSubTask w1 = dedupKey label sub ->
  doAnswer env w1 = (Ret tt, w1, []).
Proof.
  intros Hb Hc Hv Hl.
  apply getPageContextAndAnswers_found in Hc as (_ & Hm & [u Hu] & Ha & _).
  injection Hv as Hv1 Hv2 Hv3.
  unfold doAnswer. mrun.
  rewrite (bankIsEmpty_view w w1) by (unfold viewOf; by rewrite Hv1, Hv2, Hv3).
  rewrite Hb. mrun. simpl.
  unfold getPageContextAndAnswers. mrun.
  rewrite Hv1, Hm, Hu, Hv2, Ha, Hl, String.eqb_refl. mrun. reflexivity.
Qed.

(** C4.  With a host under which the view stays the same (main-task
    content, sub-task name, bank and [lastAnsweredSubTask] are not changed
    while the script yields), a second invocation of [doAnswer] right after
    a first one logs and waits at most: it clicks nothing, writes nothing,
    dispatches nothing, and leaves [lastAnsweredSubTask] as the first
    invocation left it; if waiting alone changes nothing, it leaves the
    whole state as the first invocation left it. *)
Theorem doAnswer_idempotent env w :
  sameView env ->
  Forall (fun e => isQuietEvent e = true)
    (traceOf (doAnswer env (worldOf (doAnswer env w)))) /\
  lastAnsweredSubTask (worldOf (doAnswer env (worldOf (doAnswer env w)))) =
    lastAnsweredSubTask (worldOf (doAnswer env w)) /\
  ((forall ms jitter w0, env (Sleep ms jitter) w0 = w0) ->
     worldOf (doAnswer env (worldOf (doAnswer env w))) = worldOf (doAnswer env w)).
Proof.
  intros Hs.
  destruct (doAnswer_cases env w Hs)
    as [[Hb E] | [[Hb (t & E & Hq)] | [Hb (w1 & t & a & l & s & E & Hc & Hv & Hl)]]].
  - rewrite E. cbn [worldOf fst snd].
    destruct (doAnswer_cases env (env (Sleep 3000 0) w) Hs)
      as [[Hb' E'] | [[Hb' _] | [Hb' _]]].
    + rewrite E'. cbn [worldOf traceOf fst snd]. split; [by repeat constructor|].
      split; [apply Hs|]. intros Hid. by rewrite Hid.
    + rewrite (bankIsEmpty_view _ _ (viewOf_env env _ w Hs)) in Hb'. congruence.
    + rewrite (bankIsEmpty_view _ _ (viewOf_env env _ w Hs)) in Hb'. congruence.
  - rewrite E. cbn [worldOf fst snd]. rewrite E. cbn [worldOf traceOf fst snd].
    by repeat split.
  - rewrite E. cbn [worldOf fst snd].
    rewrite (doAnswer_again env w w1 a l s Hb Hc Hv Hl). cbn [worldOf traceOf fst snd].
    by repeat split.
Qed.


Lemma idle_fillStable f : fillStable Sample.idle f.
Proof. split; reflexivity. Qed.

Lemma idle_sameView : sameView Sample.idle.
Proof. intros e w. by repeat split. Qed.

Lemma selecting_choiceStable : choiceStable Sample.selecting.
Proof.
  split; [|reflexivity]. intros w i j k Hlt. simpl.
  apply list_lookup_alter_ne. lia.
Qed.

Lemma selecting_sameView : sameView Sample.selecting.
Proof. intros [| [] | | | | | | | | | | | | | |] w; by repeat split. Qed.


Lemma findIndexFrom_Some {A} (p : A -> bool) (l : list A) : forall k n x,
  findIndexFrom p k l = Some (n, x) ->
  exists i, n = k + i /\ l !! i = Some x /\ p x = true /\
    forall i' y, i' < i -> l !! i' = Some y -> p y = false.
Proof.
  induction l as [|y l IH]; intros k n x H; [discriminate|].
  cbn [findIndexFrom] in H. destruct (p y) eqn:Hp.
  - injection H as <- <-. exists 0. repeat split; [lia|done|]. intros; lia.
  - destruct (IH _ _ _ H) as (i & -> & Hi & Hx & Hlt).
    exists (S i). repeat split; [lia|done|done|].
    intros [|i'] z Hlt' Hz; [by injection Hz as <-|].
    apply (Hlt i' z); [lia|done].
Qed.

(** What [findOption] finds: the first option whose trimmed caption is the
    letter and that is not selected. *)
Lemma findOption_Some letter options j :
  findOption letter options = Some j ->
  exists o, options !! j = Some o /\
    (exists text, caption o = Some text /\ Str.trim text = Str.ofChar letter) /\
    selected o = false /\
    forall j' o', j' < j -> options !! j' = Some o' ->
      selected o' = true \/
      forall text, caption o' = Some text -> Str.trim text <> Str.ofChar letter.
Proof.
  unfold findOption, findIndex. destruct (findIndexFrom _ 0 options) as [[n o]|] eqn:E;
    [|discriminate].
  intros [= <-]. apply findIndexFrom_Some in E as (i & -> & Hi & Hp & Hlt).
  exists o. apply andb_true_iff in Hp as [Hc Hs]. split; [done|]. split; [|split].
  - destruct (caption o) as [text|]; [|discriminate].
    exists text. split; [reflexivity|]. by apply String.eqb_eq.
  - by destruct (selected o).
  - intros j' o' Hj Ho. specialize (Hlt j' o' Hj Ho).
    apply andb_false_iff in Hlt as [Hc'|Hs'].
    + right. intros text Ht. rewrite Ht in Hc'. by apply String.eqb_neq.
    + left. by destruct (selected o').
Qed.

Lemma loading_fillStable f : fillStable Sample.loading f.
Proof.
  split; [done|]. intros w ms jitter. unfold Sample.loading.
  by destruct (Nat.eqb ms 3000).
Qed.

Lemma doAnswer_letters_are_choices_witness :
  traceOf (doAnswer Sample.selecting Sample.comprehension) =
    [Log success (MsgFoundAnswer "Reading comprehension");
     Click (TOption 0 0); Sleep 200 100; Click (TOption 1 1); Sleep 200 100;
     Click (TOption 2 0); Sleep 200 100; Click (TOption 3 1); Sleep 200 100;
     Click (TOption 4 0); Sleep 200 100;
     Log success (MsgApplied "Reading comprehension")] /\
  traceOf (doAnswer Sample.selecting Sample.pasted) =
    [Log success (MsgFoundAnswer "Reading comprehension");
     Click (TOption 0 0); Sleep 200 100; Click (TOption 1 1); Sleep 200 100;
     Log success (MsgApplied "Reading comprehension")].
Proof.
  split.
  - rewrite (proj2 (doAnswer_letters_are_choices Sample.selecting Sample.comprehension
                      "A B A B A"
                      "1-2 iExplore 1: Learning before class" "Reading comprehension"
                      ltac:(vm_compute; reflexivity) eq_refl ltac:(vm_compute; discriminate))
               selecting_choiceStable).
    vm_compute. reflexivity.
  - rewrite (proj2 (doAnswer_letters_are_choices Sample.selecting Sample.pasted
                      (String.append "A" (String.append Sample.nbsp "B"))
                      "1-2 iExplore 1: Learning before class" "Reading comprehension"
                      ltac:(vm_compute; reflexivity) eq_refl ltac:(vm_compute; discriminate))
               selecting_choiceStable).
    vm_compute. reflexivity.
Defined.

(** C1 as stated fails: with no choice-question block and one blank, the
    answer "A" matches the letter pattern and is typed into the blank. *)
Lemma doAnswer_letter_typed_as_text :
  Str.lettersPattern "A" = true /\
  outcomeOf (getPageContextAndAnswers Sample.letterBlank) =
    Ret (CtxFound (AStr "A") "1-2 iExplore 1: Learning before class"
           "Dealing with vocabulary") /\
  writesOf (traceOf (doAnswer Sample.idle Sample.letterBlank)) = [(Blank, 0, "A")] /\
  ~ Forall (fun e => isFreeTextEvent e = false) (traceOf (doAnswer Sample.idle Sample.letterBlank)).
Proof.
  repeat split. intros H. vm_compute in H.
  apply Forall_cons in H as [_ H]. apply Forall_cons in H as [H _]. discriminate.
Qed.

Lemma doAnswer_lines_fill_inputs_witness :
  traceOf (doAnswer Sample.idle Sample.translation) =
    [Log success (MsgFoundAnswer "Application");
     SetValue TextArea 0 "To say is easier than to do."; DispatchInput TextArea 0;
     Sleep 200 0;
     SetValue TextArea 2 "Seven days a week."; DispatchInput TextArea 2; Sleep 200 0;
     Log success (MsgApplied "Application")] /\
  traceOf (doAnswer Sample.loading Sample.unloaded) =
    [Log warn MsgBankWaiting; Sleep 3000 0;
     Log success (MsgFoundAnswer "Application");
     SetValue TextArea 0 "To say is easier than to do."; DispatchInput TextArea 0;
     Sleep 200 0;
     SetValue TextArea 2 "Seven days a week."; DispatchInput TextArea 2; Sleep 200 0;
     Log success (MsgApplied "Application")].
Proof.
  split.
  - rewrite (proj1 (proj2 (doAnswer_lines_fill_inputs Sample.idle Sample.translation
                      Sample.applicationAnswer
                      "1-3 iExplore 1: Reviewing after class" "Application" TextArea
                      ltac:(vm_compute; reflexivity) ltac:(left; vm_compute; reflexivity)
                      ltac:(vm_compute; reflexivity)))
               (idle_fillStable TextArea)).
    vm_compute. reflexivity.
  - rewrite (proj1 (proj2 (doAnswer_lines_fill_inputs Sample.loading Sample.unloaded
                      Sample.applicationAnswer
                      "1-3 iExplore 1: Reviewing after class" "Application" TextArea
                      ltac:(vm_compute; reflexivity) ltac:(left; vm_compute; reflexivity)
                      ltac:(vm_compute; reflexivity)))
               (loading_fillStable TextArea)).
    vm_compute. reflexivity.
Defined.

(** C6 as stated fails: with the second text area filled, the script
    passes over that area and over the second line with it, and writes the
    third line into the third area, where the claim has the second line go
    to that second empty input.  Every line of the answer starts with an
    ordinal marker of the claim's two forms. *)
Lemma doAnswer_line_goes_to_its_index :
  Str.lettersPattern Sample.applicationAnswer = false /\
  claimedLines Sample.applicationAnswer =
    ["To say is easier than to do."; "Mary retired early."; "Seven days a week."] /\
  Str.answerLines Sample.applicationAnswer = claimedLines Sample.applicationAnswer /\
  q_textInputs (page Sample.translation) = [""; "x"; ""] /\
  writesOf (traceOf (doAnswer Sample.idle Sample.translation)) =
    [(TextArea, 0, "To say is easier than to do."); (TextArea, 2, "Seven days a week.")] /\
  claimedWrites TextArea 0 (claimedLines Sample.applicationAnswer)
      (q_textInputs (page Sample.translation)) =
    [(TextArea, 0, "To say is easier than to do."); (TextArea, 2, "Mary retired early.")] /\
  writesOf (traceOf (doAnswer Sample.idle Sample.translation)) <>
    claimedWrites TextArea 0 (claimedLines Sample.applicationAnswer)
      (q_textInputs (page Sample.translation)).
Proof. repeat apply conj; try (vm_compute; reflexivity). vm_compute. discriminate. Qed.

Lemma doAnswer_idempotent_witness :
  traceOf (doAnswer Sample.selecting
             (worldOf (doAnswer Sample.selecting Sample.comprehension))) = [] /\
  Forall (fun e => isQuietEvent e = true)
    (traceOf (doAnswer Sample.selecting
                (worldOf (doAnswer Sample.selecting Sample.comprehension)))).
Proof.
  split; [reflexivity|].
  exact (proj1 (doAnswer_idempotent Sample.selecting Sample.comprehension
                  selecting_sameView)).
Defined.

(** * More of the script *)

(** ** Computations that return and leave a reading alone *)

Section Calm.
Context {X : Type} (proj : World -> X).

Lemma calm_ret {A} (a : A) : calm proj (ret a).
Proof. intros w. split; [by exists a | reflexivity]. Qed.

Lemma calm_get : calm proj get.
Proof. intros w. split; [by exists w | reflexivity]. Qed.

Lemma calm_note e : calm proj (note e).
Proof. intros w. split; [by exists tt | reflexivity]. Qed.

Lemma calm_log m l : calm proj (log m l).
Proof. apply calm_note. Qed.

Lemma calm_modify f : (forall w, proj (f w) = proj w) -> calm proj (modify f).
Proof. intros H w. split; [by exists tt | apply H]. Qed.

Lemma calm_act env e : keeps proj env -> calm proj (act env e).
Proof. intros H w. split; [by exists tt | apply H]. Qed.

Lemma calm_sleep env ms j : keeps proj env -> calm proj (sleep env ms j).
Proof. apply calm_act. Qed.

Lemma calm_click env t : keeps proj env -> calm proj (robustClick env t).
Proof. apply calm_act. Qed.

Lemma calm_bind {A B} (m : M A) (k : A -> M B) :
  calm proj m -> (forall a, calm proj (k a)) -> calm proj (bind m k).
Proof.
  intros Hm Hk w. destruct (Hm w) as [[a Ha] Hw].
  rewrite run_bind, Ha, outcomeOf_prepend, worldOf_prepend.
  destruct (Hk a (worldOf (m w))) as [Hb Hw']. split; [exact Hb | congruence].
Qed.
End Calm.

Ltac calm_step :=
  first
    [ apply calm_ret | apply calm_get | apply calm_log | apply calm_note
    | apply calm_sleep; assumption | apply calm_click; assumption
    | apply calm_act; assumption
    | apply calm_bind; [|intros ?]
    | match goal with
      | |- calm _ (if ?b then _ else _) => destruct b
      | |- calm _ (match ?x with _ => _ end) => destruct x
      end ].

Section Handlers.
Context {X : Type} (proj : World -> X) (env : Event -> World -> World).
Hypothesis Henv : keeps proj env.
Hypothesis Hproj : apart proj.

Lemma calm_writeInput f i v : calm proj (modify (set_page (writeInput f i v))).
Proof. apply calm_modify. apply Hproj. Qed.

Lemma calm_writeVideo v : calm proj (modify (set_page (writeVideo v))).
Proof. apply calm_modify. apply Hproj. Qed.

Lemma calm_setLast s : calm proj (modify (set_lastAnsweredSubTask s)).
Proof. apply calm_modify. apply Hproj. Qed.

Lemma calm_getPageContextAndAnswers : calm proj getPageContextAndAnswers.
Proof. unfold getPageContextAndAnswers. repeat calm_step. Qed.

Lemma calm_choiceLoop items : forall a, calm proj (choiceLoop env items a).
Proof.
  induction items as [|[[i l] blk] items IH]; intros a; cbn [choiceLoop].
  - apply calm_ret.
  - repeat calm_step; apply IH.
Qed.

Lemma calm_fillLoop f items : forall a, calm proj (fillLoop env f items a).
Proof.
  induction items as [|[[i l] v] items IH]; intros a; cbn [fillLoop].
  - apply calm_ret.
  - repeat first [apply calm_writeInput | calm_step]; apply IH.
Qed.

Lemma calm_applyAnswers answers : calm proj (applyAnswers env answers).
Proof.
  unfold applyAnswers.
  repeat first [apply calm_choiceLoop | apply calm_fillLoop | calm_step].
Qed.

Lemma calm_doAnswer : calm proj (doAnswer env).
Proof.
  unfold doAnswer.
  repeat first [apply calm_getPageContextAndAnswers | apply calm_applyAnswers
               | apply calm_setLast | calm_step].
Qed.

Lemma calm_handleVideoTask : calm proj (handleVideoTask env).
Proof.
  unfold handleVideoTask, muteVideo, seekAndPlay, afterPlay.
  repeat first [apply calm_writeVideo | calm_step].
Qed.

Lemma calm_handleSkippableTask n : calm proj (handleSkippableTask env n).
Proof. unfold handleSkippableTask. repeat calm_step. Qed.

Lemma calm_vocabularyLoop n : calm proj (vocabularyLoop env n).
Proof.
  induction n as [|n IH]; cbn [vocabularyLoop]; repeat calm_step. apply IH.
Qed.

Lemma calm_handleVocabularyTask : calm proj (handleVocabularyTask env).
Proof.
  unfold handleVocabularyTask. repeat first [apply calm_vocabularyLoop | calm_step].
Qed.

Lemma calm_executeMethod m n : calm proj (executeMethod env m n).
Proof.
  unfold executeMethod.
  destruct m; repeat first
    [ apply calm_handleVideoTask | apply calm_handleSkippableTask
    | apply calm_handleVocabularyTask | apply calm_doAnswer | calm_step ].
Qed.

Lemma calm_submitLoop sels : calm proj (submitLoop env sels).
Proof.
  induction sels as [|s sels IH]; cbn [submitLoop]; repeat first [apply IH | calm_step].
Qed.

Lemma calm_completeAndNavigateTaskInternal :
  calm proj (completeAndNavigateTaskInternal env).
Proof.
  unfold completeAndNavigateTaskInternal.
  repeat first [apply calm_submitLoop | calm_step].
Qed.

Lemma calm_compositeLoop tabs children : calm proj (compositeLoop env tabs children).
Proof.
  induction children as [|c children IH]; cbn [compositeLoop].
  - apply calm_ret.
  - repeat first [apply IH | apply calm_executeMethod
                 | apply calm_completeAndNavigateTaskInternal | calm_step].
Qed.
End Handlers.
(** ** The unit id of a label *)

Lemma append_nil s : String.append "" s = s.
Proof. reflexivity. Qed.


Lemma append_nil_r s : String.append s "" = s.
Proof. induction s as [|c r IH]; [reflexivity|]. by rewrite append_cons, IH. Qed.

Lemma append_assoc a b c :
  String.append a (String.append b c) = String.append (String.append a b) c.
Proof. induction a as [|x a IH]; [reflexivity|]. by rewrite !append_cons, IH. Qed.

Lemma takeDigits_dropDigits s :
  String.append (Str.takeDigits s) (Str.dropDigits s) = s.
Proof.
  induction s as [|c r IH]; [reflexivity|].
  cbn [Str.takeDigits Str.dropDigits]. destruct (Str.isDigit c); [|reflexivity].
  by rewrite append_cons, IH.
Qed.

Lemma allDigits_takeDigits s : allDigits (Str.takeDigits s) = true.
Proof.
  induction s as [|c r IH]; [reflexivity|].
  cbn [Str.takeDigits]. destruct (Str.isDigit c) eqn:E; [|reflexivity].
  cbn [allDigits]. by rewrite E.
Qed.

Lemma takeDigits_app ds rest :
  allDigits ds = true -> startsWithDigit rest = false ->
  Str.takeDigits (String.append ds rest) = ds.
Proof.
  intros Hd Hr. induction ds as [|c ds IH].
  - rewrite append_nil. destruct rest as [|c r]; [reflexivity|].
    cbn [startsWithDigit Str.takeDigits] in *. by rewrite Hr.
  - rewrite append_cons. cbn [allDigits] in Hd. apply andb_true_iff in Hd as [Hc Hd].
    cbn [Str.takeDigits]. rewrite Hc. by rewrite IH.
Qed.

Lemma unitIdMatch_cons c r :
  Str.unitIdMatch (String c r) =
    if Str.isDigit c && dashDigit (Str.dropDigits (String c r))
    then Some (Str.takeDigits (String c r))
    else Str.unitIdMatch r.
Proof.
  cbn [Str.unitIdMatch]. destruct (Str.isDigit c); [|reflexivity].
  cbn [andb]. by destruct (Str.dropDigits (String c r)) as [|d [|e t]].
Qed.

Lemma dropDigits_not_digit s c r : Str.dropDigits s = String c r -> Str.isDigit c = false.
Proof.
  induction s as [|x s IH]; [discriminate|].
  cbn [Str.dropDigits]. destruct (Str.isDigit x) eqn:E; [exact IH|].
  by intros [= <- _].
Qed.

Lemma dropDigits_append s tail :
  Str.dropDigits s <> "" ->
  Str.dropDigits (String.append s tail) = String.append (Str.dropDigits s) tail.
Proof.
  induction s as [|x s IH]; [done|].
  rewrite append_cons. cbn [Str.dropDigits]. destruct (Str.isDigit x); [exact IH|].
  intros _. by rewrite append_cons.
Qed.

Lemma dropDigits_all s : Str.dropDigits s = "" -> allDigits s = true.
Proof.
  induction s as [|x s IH]; [reflexivity|].
  cbn [Str.dropDigits allDigits]. destruct (Str.isDigit x); [exact IH|discriminate].
Qed.

Lemma allDigits_app a b : allDigits (String.append a b) = allDigits a && allDigits b.
Proof.
  induction a as [|c a IH]; [reflexivity|].
  rewrite append_cons. cbn [allDigits]. by rewrite IH, andb_assoc.
Qed.

Lemma endsWithDigit_cons c r : r <> "" -> endsWithDigit (String c r) = endsWithDigit r.
Proof. by destruct r. Qed.

Lemma allDigits_ends s : s <> "" -> allDigits s = true -> endsWithDigit s = true.
Proof.
  induction s as [|c r IH]; [done|]. intros _ H.
  cbn [allDigits] in H. apply andb_true_iff in H as [Hc Hr].
  destruct r as [|d r]; [exact Hc|]. rewrite endsWithDigit_cons by done. by apply IH.
Qed.

Lemma endsWithDigit_app a b : b <> "" -> endsWithDigit (String.append a b) = endsWithDigit b.
Proof.
  intros Hb. induction a as [|c a IH]; [reflexivity|].
  rewrite append_cons, endsWithDigit_cons; [exact IH|].
  destruct a; [by rewrite append_nil | by rewrite append_cons].
Qed.

(** A string whose digits, dropped from the front, leave one character
    that is not a digit and nothing else, ends with that character *)
Lemma dropDigits_single s d : Str.dropDigits s = String d "" -> endsWithDigit s = false.
Proof.
  induction s as [|x s IH]; [discriminate|].
  cbn [Str.dropDigits]. destruct (Str.isDigit x) eqn:E.
  - intros H. destruct s as [|y s]; [discriminate|].
    rewrite endsWithDigit_cons by done. by apply IH.
  - by intros [= -> ->].
Qed.

Lemma dashDigit_append s tail : dashDigit s = true -> dashDigit (String.append s tail) = true.
Proof. by destruct s as [|d [|e t]]. Qed.

Lemma dashDigit_append_inv d e t tail :
  dashDigit (String.append (String d (String e t)) tail) = dashDigit (String d (String e t)).
Proof. reflexivity. Qed.

Lemma allDigits_no_match s : allDigits s = true -> Str.unitIdMatch s = None.
Proof.
  induction s as [|c r IH]; [reflexivity|]. intros H.
  rewrite unitIdMatch_cons.
  assert (Hd : Str.dropDigits (String c r) = "").
  { rewrite <- (append_nil_r (String c r)). by apply dropDigits_app. }
  rewrite Hd. cbn [dashDigit]. rewrite andb_false_r.
  cbn [allDigits] in H. apply andb_true_iff in H as [_ H]. by apply IH.
Qed.

(** A start at which the test fails, fails also in a shorter string,
    unless the string ends inside the run of digits or right after it *)
Lemma dashDigit_shorter y tail :
  dashDigit (Str.dropDigits (String.append y tail)) = false ->
  dashDigit (Str.dropDigits y) = false.
Proof.
  intros H. destruct (Str.dropDigits y) as [|d [|e t]] eqn:Hd; try reflexivity.
  rewrite dropDigits_append in H by (by rewrite Hd). by rewrite Hd in H.
Qed.

Lemma unitIdMatch_sound s : forall u,
  Str.unitIdMatch s = Some u ->
  u <> "" /\ allDigits u = true /\
  exists pre e post,
    s = String.append pre (String.append u (String "-" (String e post))) /\
    Str.isDigit e = true /\
    endsWithDigit pre = false /\
    Str.unitIdMatch (String.append pre u) = None.
Proof.
  induction s as [|c r IH]; intros u; [discriminate|].
  rewrite unitIdMatch_cons.
  destruct (Str.isDigit c && dashDigit (Str.dropDigits (String c r))) eqn:Ht.
  - apply andb_true_iff in Ht as [Hc Ht].
    intros H. assert (u = Str.takeDigits (String c r)) as -> by congruence. clear H.
    split; [cbn [Str.takeDigits]; by rewrite Hc|].
    split; [apply allDigits_takeDigits|].
    destruct (Str.dropDigits (String c r)) as [|d [|e post]] eqn:Hd; try discriminate.
    cbn [dashDigit] in Ht. apply andb_true_iff in Ht as [Hd' He].
    apply Ascii.eqb_eq in Hd' as ->.
    exists "", e, post. rewrite !append_nil, <- Hd, takeDigits_dropDigits.
    repeat split; [exact He|]. apply allDigits_no_match, allDigits_takeDigits.
  - intros H. destruct (IH u H) as (Hne & Hd & pre & e & post & -> & He & Hend & Hno).
    split; [exact Hne|]. split; [exact Hd|].
    exists (String c pre), e, post. rewrite !append_cons.
    split; [reflexivity|]. split; [exact He|]. split.
    + destruct pre as [|x pre]; [|by rewrite endsWithDigit_cons].
      cbn [endsWithDigit]. destruct (Str.isDigit c) eqn:Hc; [|reflexivity].
      cbn [andb] in Ht. rewrite append_nil in Ht.
      cbn [Str.dropDigits] in Ht. rewrite Hc in Ht.
      rewrite dropDigits_app in Ht by done. cbn [dashDigit] in Ht. by rewrite He in Ht.
    + rewrite unitIdMatch_cons, Hno.
      destruct (Str.isDigit c); [|reflexivity]. cbn [andb] in *.
      rewrite append_assoc, <- append_cons in Ht. by rewrite (dashDigit_shorter _ _ Ht).
Qed.

Lemma unitIdMatch_complete pre : forall u e post,
  u <> "" -> allDigits u = true -> Str.isDigit e = true ->
  endsWithDigit pre = false ->
  Str.unitIdMatch (String.append pre u) = None ->
  Str.unitIdMatch (String.append pre (String.append u (String "-" (String e post)))) = Some u.
Proof.
  induction pre as [|c pre IH]; intros u e post Hne Hd He Hend Hno.
  - rewrite append_nil. destruct u as [|x u']; [done|].
    assert (Hx : Str.isDigit x = true).
    { cbn [allDigits] in Hd. by apply andb_true_iff in Hd as [? _]. }
    rewrite append_cons, unitIdMatch_cons, Hx, <- append_cons.
    rewrite dropDigits_app by done. cbn [dashDigit andb]. rewrite He.
    by rewrite takeDigits_app.
  - rewrite append_cons in *. rewrite unitIdMatch_cons in Hno. rewrite unitIdMatch_cons.
    destruct (Str.isDigit c && dashDigit (Str.dropDigits (String c (String.append pre u))))
      eqn:Ht; [discriminate|].
    assert (Hend' : endsWithDigit pre = false).
    { destruct pre; [reflexivity|]. by rewrite endsWithDigit_cons in Hend. }
    rewrite (IH u e post Hne Hd He Hend' Hno).
    destruct (Str.isDigit c) eqn:Hc; [|reflexivity]. cbn [andb] in *.
    rewrite append_assoc, <- append_cons.
    destruct (Str.dropDigits (String c (String.append pre u))) as [|d [|e' t]] eqn:Hdrop.
    + apply dropDigits_all in Hdrop. rewrite <- append_cons, allDigits_app in Hdrop.
      apply andb_true_iff in Hdrop as [Hp _].
      by rewrite (allDigits_ends (String c pre)) in Hend.
    + apply dropDigits_single in Hdrop.
      rewrite <- append_cons, endsWithDigit_app in Hdrop by done.
      by rewrite (allDigits_ends u) in Hdrop.
    + rewrite dropDigits_append by (by rewrite Hdrop). rewrite Hdrop.
      by rewrite dashDigit_append_inv, Ht.
Qed.

(** X1.  The first group of [/(\d+)-\d+/] on a label is [u] exactly when
    the label is some [pre], then [u], a dash, a digit and anything, where
    [u] is a run of digits that is not empty and is whole on its left
    ([pre] does not end with a digit), and where the expression matches
    nowhere in [pre] followed by [u]: the unit id is the whole number
    before the first dash that a digit follows and a digit precedes. *)
Theorem unitIdMatch_group s u :
  Str.unitIdMatch s = Some u <->
  u <> "" /\ allDigits u = true /\
  exists pre e post,
    s = String.append pre (String.append u (String "-" (String e post))) /\
    Str.isDigit e = true /\
    endsWithDigit pre = false /\
    Str.unitIdMatch (String.append pre u) = None.
Proof.
  split; [apply unitIdMatch_sound|].
  intros (Hne & Hd & pre & e & post & -> & He & Hend & Hno).
  by apply unitIdMatch_complete.
Qed.

Lemma allDigits_last u :
  u <> "" -> allDigits u = true ->
  exists u' d, u = String.append u' (String d "") /\ Str.isDigit d = true.
Proof.
  induction u as [|c u IH]; [done|]. intros _ H.
  cbn [allDigits] in H. apply andb_true_iff in H as [Hc Hu].
  destruct u as [|x u]; [by exists "", c|].
  destruct (IH ltac:(done) Hu) as (u' & d & E & Hd).
  exists (String c u'), d. by rewrite append_cons, <- E.
Qed.

Lemma unitIdMatch_hit pre d e post :
  Str.isDigit d = true -> Str.isDigit e = true ->
  Str.unitIdMatch (String.append pre (String d (String "-" (String e post)))) <> None.
Proof.
  intros Hd He. induction pre as [|c pre IH].
  - rewrite append_nil, unitIdMatch_cons, Hd.
    cbn [Str.dropDigits andb]. rewrite Hd. cbn [Str.dropDigits].
    change (Str.isDigit "-") with false. cbn [dashDigit]. rewrite He. done.
  - rewrite append_cons, unitIdMatch_cons. by destruct (_ && _).
Qed.

(** X2.  [/(\d+)-\d+/] matches a label exactly when a digit, a dash and a
    digit stand next to each other somewhere in it. *)
Theorem unitIdMatch_none s :
  Str.unitIdMatch s = None <->
  forall pre d e post,
    s = String.append pre (String d (String "-" (String e post))) ->
    Str.isDigit d && Str.isDigit e = false.
Proof.
  split.
  - intros H pre d e post ->.
    destruct (Str.isDigit d) eqn:Hd, (Str.isDigit e) eqn:He; try reflexivity.
    by destruct (unitIdMatch_hit pre d e post Hd He).
  - intros H. destruct (Str.unitIdMatch s) as [u|] eqn:E; [|reflexivity].
    apply unitIdMatch_sound in E as (Hne & Hd & pre & e & post & -> & He & _ & _).
    destruct (allDigits_last u Hne Hd) as (u' & d & -> & Hd').
    specialize (H (String.append pre u') d e post).
    rewrite <- !append_assoc, append_cons, append_nil in H.
    specialize (H eq_refl). by rewrite Hd', He in H.
Qed.

(** ** Trimming, the letter pattern and the answer lines *)

Lemma spaceLen_prefix x t : Str.spaceLen (String.append x t) = 0 -> Str.spaceLen x = 0.
Proof.
  destruct x as [|a [|b [|c x]]]; [done| | |]; rewrite ?append_cons, ?append_nil;
    unfold Str.spaceLen; destruct (Str.space1 (Str.code a)); try done.
  all: by destruct (Str.space2 (Str.code a) (Str.code b)).
Qed.

Lemma trimEndFrom_prefix r : forall k, exists t, r = String.append (Str.trimEndFrom k r) t.
Proof.
  induction r as [|c r IH]; intros k; [by exists ""|].
  assert (H : forall j, exists t,
             String c r =
               String.append (match Str.trimEndFrom j r with
                              | "" => ""
                              | String x y => String c (String x y)
                              end) t).
  { intros j. destruct (IH j) as [t Ht]. destruct (Str.trimEndFrom j r) as [|x y].
    - by exists (String c r).
    - exists t. by rewrite append_cons, <- Ht. }
  cbn [Str.trimEndFrom]. destruct k as [|k]; [|apply H].
  destruct (Str.spaceLen (String c r)) as [|j]; [|apply H].
  destruct (IH 0) as [t Ht]. exists t. by rewrite append_cons, <- Ht.
Qed.

Lemma spaceLen_trimEnd c r :
  Str.spaceLen (String c r) = 0 -> Str.spaceLen (String c (Str.trimEndFrom 0 r)) = 0.
Proof.
  intros H. destruct (trimEndFrom_prefix r 0) as [t Ht].
  apply (spaceLen_prefix _ t). by rewrite append_cons, <- Ht.
Qed.

(** The bytes of a white-space character that stay are all its bytes *)
Lemma spaceLen_kept c r k x y :
  Str.spaceLen (String c r) = S k -> Str.trimEndFrom k r = String x y ->
  Str.spaceLen (String c (String x y)) = S k.
Proof.
  unfold Str.spaceLen. destruct (Str.space1 (Str.code c)).
  { by intros [= <-] _. }
  destruct r as [|b r]; [done|].
  destruct (Str.space2 (Str.code c) (Str.code b)) eqn:E2.
  { intros [= <-]. cbn [Str.trimEndFrom].
    destruct (Str.trimEndFrom 0 r); [done|]. intros [= <- <-]. by rewrite E2. }
  destruct r as [|d r]; [done|].
  destruct (Str.space3 (Str.code c) (Str.code b) (Str.code d)) eqn:E3; [|done].
  intros [= <-]. cbn [Str.trimEndFrom].
  destruct (Str.trimEndFrom 0 r); [done|]. intros [= <- <-]. by rewrite E2, E3.
Qed.

Lemma trimEndFrom_S j c r :
  Str.trimEndFrom (S j) (String c r) =
    match Str.trimEndFrom j r with
    | "" => ""
    | String x y => String c (String x y)
    end.
Proof. reflexivity. Qed.

Lemma trimEndFrom_O c r :
  Str.trimEndFrom 0 (String c r) =
    match Str.spaceLen (String c r) with
    | S j => Str.trimEndFrom (S j) (String c r)
    | O => String c (Str.trimEndFrom 0 r)
    end.
Proof. cbn [Str.trimEndFrom]. by destruct (Str.spaceLen (String c r)). Qed.

Lemma trimEndFrom_idem r : forall k,
  Str.trimEndFrom k (Str.trimEndFrom k r) = Str.trimEndFrom k r.
Proof.
  induction r as [|c r IH]; intros k; [by destruct k|].
  assert (H : forall j,
             Str.trimEndFrom (S j) (Str.trimEndFrom (S j) (String c r)) =
               Str.trimEndFrom (S j) (String c r)).
  { intros j. rewrite (trimEndFrom_S j c r).
    destruct (Str.trimEndFrom j r) as [|x y] eqn:E; [reflexivity|].
    rewrite trimEndFrom_S. specialize (IH j). rewrite E in IH. by rewrite IH. }
  destruct k as [|k]; [|apply H].
  rewrite (trimEndFrom_O c r). destruct (Str.spaceLen (String c r)) as [|j] eqn:E.
  - by rewrite trimEndFrom_O, (spaceLen_trimEnd c r E), IH.
  - rewrite (trimEndFrom_S j c r).
    destruct (Str.trimEndFrom j r) as [|x y] eqn:Er; [reflexivity|].
    rewrite trimEndFrom_O, (spaceLen_kept c r j x y E Er), trimEndFrom_S.
    specialize (IH j). rewrite Er in IH. by rewrite IH.
Qed.

Lemma trimStartFrom_head s : forall k,
  Str.spaceLen (Str.trimStartFrom k s) = 0.
Proof.
  induction s as [|c r IH]; intros k; [by destruct k|].
  cbn [Str.trimStartFrom]. destruct k as [|k]; [|apply IH].
  destruct (Str.spaceLen (String c r)) as [|j] eqn:E; [exact E | apply IH].
Qed.

Lemma trim_idem s : Str.trim (Str.trim s) = Str.trim s.
Proof.
  unfold Str.trim, Str.trimStart, Str.trimEnd.
  pose proof (trimStartFrom_head s 0) as H.
  destruct (Str.trimStartFrom 0 s) as [|c r]; [reflexivity|].
  assert (E : Str.trimEndFrom 0 (String c r) = String c (Str.trimEndFrom 0 r))
    by (cbn [Str.trimEndFrom]; by rewrite H).
  assert (E1 : Str.trimStartFrom 0 (String c (Str.trimEndFrom 0 r)) =
               String c (Str.trimEndFrom 0 r))
    by (cbn [Str.trimStartFrom]; by rewrite (spaceLen_trimEnd c r H)).
  rewrite E, E1, <- E. apply trimEndFrom_idem.
Qed.

Lemma removeSpacesFrom_upper r : forall k b,
  Str.lettersTailFrom k b r = true ->
  Forall (fun c => Str.isUpper c = true) (Str.chars (Str.removeSpacesFrom k r)).
Proof.
  induction r as [|c r IH]; intros k b H; [constructor|].
  cbn [Str.lettersTailFrom Str.removeSpacesFrom] in *.
  destruct k as [|k]; [|by eapply IH].
  destruct (Str.isUpper c) eqn:Hu.
  - rewrite (spaceLen_upper c r Hu). cbn [Str.chars]. constructor; [done | by eapply IH].
  - destruct (Str.spaceLen (String c r)); [discriminate | by eapply IH].
Qed.

(** X3.  A string that the letter pattern [^[A-Z](?:\s*[A-Z])*$] accepts
    has no white space at either end, and what is left of it once the
    white space is removed is not empty and holds capital letters only:
    every letter the choice branch looks for is one of A to Z. *)
Theorem lettersPattern_accepts t :
  Str.lettersPattern t = true ->
  Str.trim t = t /\
  Str.removeSpaces t <> "" /\
  Forall (fun c => Str.isUpper c = true) (Str.chars (Str.removeSpaces t)).
Proof.
  intros H. split; [by apply lettersPattern_trim|].
  destruct t as [|c r]; [done|]. cbn [Str.lettersPattern] in H.
  apply andb_true_iff in H as [Hu Ht].
  unfold Str.removeSpaces. cbn [Str.removeSpacesFrom].
  rewrite (spaceLen_upper c r Hu). split; [done|].
  cbn [Str.chars]. constructor; [done | by eapply removeSpacesFrom_upper].
Qed.

Lemma lettersPattern_accepts_witness :
  Str.removeSpaces (String.append "A C " (String.append Sample.nbsp "B")) = "ACB" /\
  Forall (fun c => Str.isUpper c = true)
    (Str.chars (Str.removeSpaces (String.append "A C " (String.append Sample.nbsp "B")))).
Proof.
  split; [reflexivity|].
  exact (proj2 (proj2 (lettersPattern_accepts
                         (String.append "A C " (String.append Sample.nbsp "B")) eq_refl))).
Defined.

Lemma answerLines_clean s :
  Forall (fun l => l <> "" /\ Str.trim l = l) (Str.answerLines s).
Proof.
  unfold Str.answerLines. induction (Str.splitLines s) as [|x l IH]; [constructor|].
  cbn [map List.filter]. destruct (Str.truthy (Str.trim (Str.stripOrdinal x))) eqn:E;
    [|exact IH].
  constructor; [|exact IH]. split; [|apply trim_idem].
  intros H. by rewrite H in E.
Qed.

(** ** The loops of the answering engine, for any host *)

Lemma ascending_weaken l : forall k k', k' <= k -> ascending k l = true -> ascending k' l = true.
Proof.
  destruct l as [|x l]; intros k k' Hle H; [reflexivity|].
  cbn [ascending] in *. apply andb_true_iff in H as [H1 H2].
  apply Nat.leb_le in H1. apply andb_true_iff. split; [|exact H2].
  apply Nat.leb_le. lia.
Qed.

Lemma choiceLoop_picks env letters : forall blocks k a w,
  exists b w' picks,
    choiceLoop env (indexedFrom k letters blocks) a w =
      (Ret b, w', clickTrace (optionTarget <$> picks)) /\
    b = a || negb (isNil picks) /\
    ascending k (picks.*1) = true /\
    Forall (fun p => p.1 < k + Nat.min (length letters) (length blocks)) picks /\
    (isNil picks = true -> w' = w).
Proof.
  induction letters as [|l letters IH]; intros blocks k a w.
  { exists a, w, []. simpl. by rewrite orb_false_r. }
  destruct blocks as [|blk blocks].
  { exists a, w, []. simpl. by rewrite orb_false_r. }
  cbn [indexedFrom choiceLoop]. mrun.
  destruct (findOption l (liveBlock w k blk)) as [j|].
  - mrun. rewrite prepend_prepend.
    destruct (IH blocks (S k) true (env (Sleep 200 100) (env (Click (TOption k j)) w)))
      as (b & w' & picks & -> & -> & Hasc & Hlt & _).
    exists true, w', ((k, j) :: picks). split; [reflexivity|].
    split; [by rewrite orb_true_r|]. split.
    + cbn [fmap list_fmap fst ascending]. by rewrite Nat.leb_refl.
    + split; [|done]. constructor; [simpl; lia|].
      eapply Forall_impl; [exact Hlt|]. simpl. intros; lia.
  - destruct (IH blocks (S k) a w) as (b & w' & picks & E & -> & Hasc & Hlt & Hw).
    exists (a || negb (isNil picks)), w', picks. split; [exact E|].
    split; [reflexivity|]. split; [by apply (ascending_weaken _ (S k)); [lia|]|].
    split; [|exact Hw]. eapply Forall_impl; [exact Hlt|]. simpl. intros; lia.
Qed.

Lemma fillLoop_picks env f lines : forall values k a w,
  exists b w' picks,
    fillLoop env f (indexedFrom k lines values) a w = (Ret b, w', fillTrace f picks) /\
    b = a || negb (isNil picks) /\
    ascending k (picks.*1) = true /\
    Forall (fun p => p.1 < k + Nat.min (length lines) (length values) /\ p.2 ∈ lines) picks /\
    (isNil picks = true -> w' = w).
Proof.
  induction lines as [|l lines IH]; intros values k a w.
  { exists a, w, []. simpl. by rewrite orb_false_r. }
  destruct values as [|v values].
  { exists a, w, []. simpl. by rewrite orb_false_r. }
  cbn [indexedFrom fillLoop]. mrun.
  destruct (Str.truthy (liveValue w f k v)).
  - destruct (IH values (S k) a w) as (b & w' & picks & E & -> & Hasc & Hlt & Hw).
    exists (a || negb (isNil picks)), w', picks. split; [exact E|].
    split; [reflexivity|]. split; [by apply (ascending_weaken _ (S k)); [lia|]|].
    split; [|exact Hw]. eapply Forall_impl; [exact Hlt|]. simpl. intros p [? ?].
    split; [lia | by right].
  - mrun. rewrite !prepend_prepend.
    destruct (IH values (S k) true
                (env (Sleep 200 0) (env (DispatchInput f k) (set_page (writeInput f k l) w))))
      as (b & w' & picks & -> & -> & Hasc & Hlt & _).
    exists true, w', ((k, l) :: picks). split; [reflexivity|].
    split; [by rewrite orb_true_r|]. split.
    + cbn [fmap list_fmap fst ascending]. by rewrite Nat.leb_refl.
    + split; [|done]. constructor; [simpl; split; [lia | by left]|].
      eapply Forall_impl; [exact Hlt|]. simpl. intros p [? ?]. split; [lia | by right].
Qed.

Lemma answerTrace_nil : answerTrace [] false.
Proof. left. by exists []. Qed.

Lemma applyAnswers_picks env answers w :
  exists b w' t,
    applyAnswers env answers w = (Ret b, w', t) /\
    answerTrace t b /\ (b = false -> w' = w).
Proof.
  unfold applyAnswers. mrun.
  destruct answers as [s|o]; [|exists false, w, []; split; [done|split; [apply answerTrace_nil|done]]].
  destruct (_ && _).
  { destruct (choiceLoop_picks env (Str.chars (Str.removeSpaces (Str.trim s)))
                (q_choiceQuestions (page w)) 0 false w)
      as (b & w' & picks & E & -> & Hasc & _ & Hw).
    exists (negb (isNil picks)), w', (clickTrace (optionTarget <$> picks)).
    split; [exact E|]. split; [left; by exists picks|].
    intros H. apply Hw. by destruct picks. }
  assert (Hfill : forall f values,
    exists b w' t,
      fillLoop env f (indexed (Str.answerLines s) values) false w = (Ret b, w', t) /\
      answerTrace t b /\ (b = false -> w' = w)).
  { intros f values.
    destruct (fillLoop_picks env f (Str.answerLines s) values 0 false w)
      as (b & w' & picks & E & -> & Hasc & Hin & Hw).
    exists (negb (isNil picks)), w', (fillTrace f picks).
    split; [exact E|]. split.
    - right. exists f, picks. repeat split; [exact Hasc|].
      eapply Forall_impl; [exact Hin|]. intros p [_ Hp].
      pose proof (answerLines_clean s) as Hc. rewrite Forall_forall in Hc.
      by apply Hc.
    - intros H. apply Hw. by destruct picks. }
  destruct (Nat.ltb 0 (length (q_textInputs (page w)))); [apply Hfill|].
  destruct (Nat.ltb 0 (length (q_fillInBlanks (page w)))); [apply Hfill|].
  exists false, w, []. split; [done|]. split; [apply answerTrace_nil|done].
Qed.

Lemma getPageContextAndAnswers_logs w :
  exists c t, getPageContextAndAnswers w = (Ret c, w, t) /\
    Forall (fun e => isQuietEvent e = true /\ isAppliedEvent e = false) t.
Proof.
  unfold getPageContextAndAnswers. mrun.
  destruct (truthyOpt _) as [l|]; [|mrun; mleaf; eexists _, _; split; [reflexivity|by repeat constructor]].
  destruct (Str.unitIdMatch l) as [u|]; [|mrun; mleaf; eexists _, _; split; [reflexivity|by repeat constructor]].
  destruct (String.eqb _ _); [mleaf; eexists _, _; split; [reflexivity|by repeat constructor]|].
  destruct (bankLookup _ _ _ _) as [a|]; [destruct (answerTruthy a)|];
    mrun; mleaf; eexists _, _; (split; [reflexivity|by repeat constructor]).
Qed.

(** An invocation with the bank loaded *)
Lemma doAnswer_loaded env w :
  bankIsEmpty w = false ->
  exists (pre tl : Trace) (acted : bool) (sub : string) (w' : World),
    doAnswer env w =
      (Ret tt, w', pre ++ tl ++ (if acted then [Log success (MsgApplied sub)] else [])) /\
    Forall (fun e => isQuietEvent e = true /\ isAppliedEvent e = false) pre /\
    answerTrace tl acted /\
    (if acted then exists label, lastAnsweredSubTask w' = dedupKey label sub else w' = w).
Proof.
  intros Hb. destruct (getPageContextAndAnswers_logs w) as (c & t0 & Hc & Hq).
  destruct c as [| |answers label sub].
  - exists t0, [], false, "", w. split; [|split; [exact Hq|split; [apply answerTrace_nil|done]]].
    unfold doAnswer. mrun. rewrite Hb. mrun. simpl. rewrite run_bind, Hc.
    mleaf. by rewrite !app_nil_r.
  - exists t0, [], false, "", w. split; [|split; [exact Hq|split; [apply answerTrace_nil|done]]].
    unfold doAnswer. mrun. rewrite Hb. mrun. simpl. rewrite run_bind, Hc.
    mleaf. by rewrite !app_nil_r.
  - assert (Ho : outcomeOf (getPageContextAndAnswers w) = Ret (CtxFound answers label sub))
      by (by rewrite Hc).
    rewrite (doAnswer_found env w _ _ _ Ho), run_bind.
    destruct (applyAnswers_picks env answers w) as (b & w' & t & -> & Ht & Hw).
    cbn [outcomeOf worldOf traceOf fst snd]. destruct b.
    + mrun. eexists [Log success (MsgFoundAnswer sub)], t, true, sub, _.
      split; [mleaf; by rewrite app_nil_r|]. split; [by repeat constructor|].
      split; [exact Ht|]. by exists label.
    + exists [Log success (MsgFoundAnswer sub)], t, false, sub, w'.
      split; [by mleaf|]. split; [by repeat constructor|]. split; [exact Ht|].
      by apply Hw.
Qed.


(** The shape of every invocation *)
Lemma doAnswer_shape env w :
  exists (pre tl : Trace) (acted : bool) (sub : string) (w' : World),
    doAnswer env w =
      (Ret tt, w', pre ++ tl ++ (if acted then [Log success (MsgApplied sub)] else [])) /\
    Forall (fun e => isQuietEvent e = true /\ isAppliedEvent e = false) pre /\
    answerTrace tl acted /\
    (if acted then exists label, lastAnsweredSubTask w' = dedupKey label sub
     else w' = w \/ w' = env (Sleep 3000 0) w).
Proof.
  destruct (bankIsEmpty w) eqn:Hb.
  - rewrite (doAnswer_waits env w Hb).
    destruct (bankIsEmpty (env (Sleep 3000 0) w)) eqn:Hb1.
    + exists [Log warn MsgBankWaiting; Sleep 3000 0; Log error MsgBankFailed], [], false, "",
        (env (Sleep 3000 0) w).
      split; [reflexivity|]. split; [by repeat constructor|].
      split; [apply answerTrace_nil | by right].
    + destruct (doAnswer_loaded env _ Hb1) as (pre & tl & acted & sub & w' & -> & Hq & Ht & Hw).
      exists ([Log warn MsgBankWaiting; Sleep 3000 0] ++ pre), tl, acted, sub, w'.
      split; [unfold prepend; simpl; reflexivity|].
      split; [by repeat constructor|]. split; [exact Ht|].
      destruct acted; [exact Hw | by right].
  - destruct (doAnswer_loaded env _ Hb) as (pre & tl & acted & sub & w' & -> & Hq & Ht & Hw).
    exists pre, tl, acted, sub, w'. split; [reflexivity|]. split; [exact Hq|].
    split; [exact Ht|]. destruct acted; [exact Hw | by left].
Qed.
Lemma writesOf_app t1 t2 : writesOf (t1 ++ t2) = writesOf t1 ++ writesOf t2.
Proof.
  induction t1 as [|e t1 IH]; [reflexivity|].
  destruct e; simpl; rewrite ?IH; reflexivity.
Qed.

Lemma quiet_readings pre :
  Forall (fun e => isQuietEvent e = true /\ isAppliedEvent e = false) pre ->
  clicksOf pre = [] /\ writesOf pre = [] /\ existsb isAppliedEvent pre = false.
Proof.
  induction 1 as [|e pre [Hq Ha] _ (IH1 & IH2 & IH3)]; [done|].
  destruct e; try discriminate; simpl; rewrite ?IH1, ?IH2, ?IH3; repeat split.
  simpl in Ha. by rewrite Ha.
Qed.

Lemma clickTrace_readings xs :
  clicksOf (clickTrace xs) = xs /\ writesOf (clickTrace xs) = [] /\
  existsb isAppliedEvent (clickTrace xs) = false.
Proof.
  induction xs as [|x xs (IH1 & IH2 & IH3)]; [done|].
  simpl. by rewrite IH1, IH2, IH3.
Qed.

Lemma fillTrace_readings f picks :
  clicksOf (fillTrace f picks) = [] /\
  writesOf (fillTrace f picks) = (fun p => (f, p.1, p.2)) <$> picks /\
  existsb isAppliedEvent (fillTrace f picks) = false.
Proof.
  induction picks as [|p picks (IH1 & IH2 & IH3)]; [done|].
  simpl. by rewrite IH1, IH2, IH3.
Qed.

Lemma closing_readings (acted : bool) sub (post : Trace) :
  post = (if acted then [Log success (MsgApplied sub)] else []) ->
  clicksOf post = [] /\ writesOf post = [] /\ existsb isAppliedEvent post = acted.
Proof. intros ->. by destruct acted. Qed.


(** X5.  The clicks of an invocation of [doAnswer], whatever the host
    does, are clicks on options of choice-question blocks, and the indices
    of the blocks go up strictly: no block is clicked twice, and none is
    clicked after a later one. *)
Theorem doAnswer_clicks_ascend env w :
  exists picks : list (nat * nat),
    clicksOf (traceOf (doAnswer env w)) = optionTarget <$> picks /\
    ascending 0 (picks.*1) = true.
Proof.
  destruct (doAnswer_shape env w) as (pre & tl & acted & sub & w' & -> & Hq & Ht & Hw).
  cbn [traceOf snd]. set (post := if acted then _ else _).
  destruct (quiet_readings pre Hq) as (P1 & _ & _).
  destruct (closing_readings acted sub post eq_refl) as (C1 & _ & _).
  rewrite !clicksOf_app, P1, C1, app_nil_r. cbn [app].
  destruct Ht as [(picks & -> & _ & Hasc) | (f & picks & -> & _)].
  - exists picks. by destruct (clickTrace_readings (optionTarget <$> picks)) as (-> & _).
  - exists []. by destruct (fillTrace_readings f picks) as (-> & _).
Qed.

(** X6.  The values that an invocation of [doAnswer] writes, whatever the
    host does, go into the inputs of one field, at indices that go up
    strictly, and each value is a line that is not empty and has no white
    space at either end. *)
Theorem doAnswer_writes_clean env w :
  exists (f : Field) (picks : list (nat * string)),
    writesOf (traceOf (doAnswer env w)) = (fun p => (f, p.1, p.2)) <$> picks /\
    ascending 0 (picks.*1) = true /\
    Forall (fun p => p.2 <> "" /\ Str.trim p.2 = p.2) picks.
Proof.
  destruct (doAnswer_shape env w) as (pre & tl & acted & sub & w' & -> & Hq & Ht & Hw).
  cbn [traceOf snd]. set (post := if acted then _ else _).
  destruct (quiet_readings pre Hq) as (_ & P2 & _).
  destruct (closing_readings acted sub post eq_refl) as (_ & C2 & _).
  rewrite !writesOf_app, P2, C2, app_nil_r. cbn [app].
  destruct Ht as [(picks & -> & _) | (f & picks & -> & _ & Hasc & Hc)].
  - exists TextArea, []. by destruct (clickTrace_readings (optionTarget <$> picks)) as (_ & -> & _).
  - exists f, picks. by destruct (fillTrace_readings f picks) as (_ & -> & _).
Qed.

(** X7.  An invocation of [doAnswer] that finds the bank empty logs it and
    waits 3000 ms.  If the bank is still empty then, it logs the failure
    and is done.  If the bank has arrived, it goes on as an invocation that
    starts in the state after the wait. *)
Theorem doAnswer_waits_for_bank env w :
  bankIsEmpty w = true ->
  (bankIsEmpty (env (Sleep 3000 0) w) = true ->
     doAnswer env w =
       (Ret tt, env (Sleep 3000 0) w,
        [Log warn MsgBankWaiting; Sleep 3000 0; Log error MsgBankFailed])) /\
  (bankIsEmpty (env (Sleep 3000 0) w) = false ->
     doAnswer env w =
       prepend [Log warn MsgBankWaiting; Sleep 3000 0]
         (doAnswer env (env (Sleep 3000 0) w))).
Proof.
  intros Hb. rewrite (doAnswer_waits env w Hb). split; intros ->; reflexivity.
Qed.

Lemma doAnswer_waits_for_bank_witness :
  traceOf (doAnswer Sample.loading Sample.unloaded) =
    [Log warn MsgBankWaiting; Sleep 3000 0; Log success (MsgFoundAnswer "Application");
     SetValue TextArea 0 "To say is easier than to do."; DispatchInput TextArea 0;
     Sleep 200 0;
     SetValue TextArea 2 "Seven days a week."; DispatchInput TextArea 2; Sleep 200 0;
     Log success (MsgApplied "Application")].
Proof.
  rewrite (proj2 (doAnswer_waits_for_bank Sample.loading Sample.unloaded eq_refl) eq_refl).
  reflexivity.
Defined.

(** ** Starting and stopping *)

Lemma toggleAutomation_start w :
  isAutomationRunning w = false -> panelOn w ->
  toggleAutomation w = (Ret tt, startedWorld w, startedTrace w).
Proof.
  unfold panelOn. intros Hr Hb.
  unfold toggleAutomation, setButton, startObserver, startedWorld, startedTrace. mrun.
  cbn [isAutomationRunning set_isAutomationRunning]. rewrite Hr. cbn [negb]. mrun.
  cbn [page set_isAutomationRunning]. rewrite Hb. mrun.
  cbn [urlObserver set_lastAnsweredSubTask set_gmStore set_isAutomationRunning].
  destruct (urlObserver w); mrun; by mleaf.
Qed.

Lemma toggleAutomation_stop w :
  isAutomationRunning w = true -> panelOn w ->
  toggleAutomation w = (Ret tt, pausedWorld w, pausedTrace w).
Proof.
  unfold panelOn. intros Hr Hb.
  unfold toggleAutomation, setButton, stopObserver, pausedWorld, pausedTrace. mrun.
  cbn [isAutomationRunning set_isAutomationRunning]. rewrite Hr. cbn [negb]. mrun.
  cbn [page set_isAutomationRunning]. rewrite Hb. mrun.
  cbn [urlObserver set_isProcessing set_isAutomationRunning].
  destruct (urlObserver w); mrun; by mleaf.
Qed.

Lemma toggleAutomation_gone w :
  q_startStopBtn (page w) = false ->
  toggleAutomation w =
    (Throw ErrNullButton, set_isAutomationRunning (negb (isAutomationRunning w)) w, []).
Proof.
  intros Hb. unfold toggleAutomation, setButton. mrun.
  cbn [isAutomationRunning set_isAutomationRunning].
  destruct (negb (isAutomationRunning w)); mrun; cbn [page set_isAutomationRunning];
    rewrite Hb; by mleaf.
Qed.

(** X8.  With the panel button gone, [toggleAutomation] throws, and all it
    has done by then is to flip [isAutomationRunning]: the observer is
    neither started nor stopped, [isProcessing] is not cleared, the stall
    record is not deleted and [main] is not scheduled. *)
Theorem toggleAutomation_missing_button w :
  q_startStopBtn (page w) = false ->
  toggleAutomation w =
    (Throw ErrNullButton, set_isAutomationRunning (negb (isAutomationRunning w)) w, []).
Proof. apply toggleAutomation_gone. Qed.

Lemma toggleAutomation_missing_button_witness :
  toggleAutomation Sample.panelGone =
    (Throw ErrNullButton, set_isAutomationRunning false Sample.panelGone, []).
Proof. exact (toggleAutomation_missing_button Sample.panelGone eq_refl). Defined.

Lemma mainTry_starts env w :
  exists r, mainTry env w = prepend [Sleep 3000 0] r.
Proof. unfold mainTry. mrun. eauto. Qed.

Lemma main_starts env w :
  isProcessing w = false -> isAutomationRunning w = true ->
  exists rest, traceOf (main env w) = Sleep 3000 0 :: rest.
Proof.
  intros H1 H2. rewrite main_active by assumption. cbn [traceOf snd].
  destruct (tryCatch_trace (mainTry env) mainCatch (set_isProcessing true w)) as [t' ->].
  destruct (mainTry_starts env (set_isProcessing true w)) as [r ->].
  rewrite traceOf_prepend. simpl. eauto.
Qed.

(** X9.  A pause and a resume while an invocation of [main] is in flight
    reopen its guard.  In a state where [isProcessing] is set, [main]
    returns at once; after [toggleAutomation] has been called twice from
    that state, the run is on, [isProcessing] is clear though the
    invocation in flight has not ended, an invocation of [main] is
    scheduled, and that invocation passes the guard. *)
Theorem toggleAutomation_reopens_guard env w :
  isProcessing w = true -> isAutomationRunning w = true -> panelOn w ->
  main env w = (Ret tt, w, []) /\
  isProcessing (worldOf (toggleAutomation (worldOf (toggleAutomation w)))) = false /\
  isAutomationRunning (worldOf (toggleAutomation (worldOf (toggleAutomation w)))) = true /\
  ScheduleMain 1500 ∈ traceOf (toggleAutomation (worldOf (toggleAutomation w))) /\
  exists rest,
    traceOf (main env (worldOf (toggleAutomation (worldOf (toggleAutomation w))))) =
      Sleep 3000 0 :: rest.
Proof.
  intros Hp Hr Hb. split; [unfold main; rewrite Hp; reflexivity|].
  rewrite (toggleAutomation_stop w Hr Hb). cbn [worldOf fst snd].
  assert (Hr' : isAutomationRunning (pausedWorld w) = false).
  { unfold pausedWorld. by destruct (urlObserver w). }
  assert (Hb' : panelOn (pausedWorld w)).
  { unfold panelOn, pausedWorld. by destruct (urlObserver w). }
  rewrite (toggleAutomation_start _ Hr' Hb'). cbn [worldOf traceOf fst snd].
  assert (Hp2 : isProcessing (startedWorld (pausedWorld w)) = false).
  { unfold startedWorld, pausedWorld. destruct (urlObserver w) eqn:E; simpl; rewrite ?E; reflexivity. }
  assert (Hr2 : isAutomationRunning (startedWorld (pausedWorld w)) = true).
  { unfold startedWorld, pausedWorld. destruct (urlObserver w) eqn:E; simpl; rewrite ?E; reflexivity. }
  split; [exact Hp2|]. split; [exact Hr2|]. split.
  - unfold startedTrace. rewrite !elem_of_app. right. right. by left.
  - by apply main_starts.
Qed.

Lemma toggleAutomation_reopens_guard_witness :
  main Sample.idle (Sample.inFlight Sample.stalled) =
    (Ret tt, Sample.inFlight Sample.stalled, []) /\
  isProcessing (worldOf (toggleAutomation
                  (worldOf (toggleAutomation (Sample.inFlight Sample.stalled))))) = false.
Proof.
  pose proof (toggleAutomation_reopens_guard Sample.idle (Sample.inFlight Sample.stalled)
                eq_refl eq_refl eq_refl) as H.
  exact (conj (proj1 H) (proj1 (proj2 H))).
Defined.

(** ** Computations that keep an invariant *)

Section Safe.
Context (I : World -> Prop).

Lemma safe_ret {A} (a : A) : safe I (ret a).
Proof. intros w H. split; [by exists a | exact H]. Qed.

Lemma safe_get : safe I get.
Proof. intros w H. split; [by exists w | exact H]. Qed.

Lemma safe_note e : safe I (note e).
Proof. intros w H. split; [by exists tt | exact H]. Qed.

Lemma safe_log m l : safe I (log m l).
Proof. apply safe_note. Qed.

Lemma safe_modify f : (forall w, I w -> I (f w)) -> safe I (modify f).
Proof. intros Hf w H. split; [by exists tt | by apply Hf]. Qed.

Lemma safe_act env e : (forall e w, I w -> I (env e w)) -> safe I (act env e).
Proof. intros He w H. split; [by exists tt | by apply He]. Qed.

Lemma safe_bind {A B} (m : M A) (k : A -> M B) :
  safe I m -> (forall a, safe I (k a)) -> safe I (bind m k).
Proof.
  intros Hm Hk w H. destruct (Hm w H) as [[a Ha] Hw].
  rewrite run_bind, Ha, outcomeOf_prepend, worldOf_prepend.
  by apply Hk.
Qed.
End Safe.

Lemma calm_safe {X A} (proj : World -> X) (m : M A) x :
  calm proj m -> safe (fun w => proj w = x) m.
Proof. intros H w Hw. destruct (H w) as [Hr Hp]. split; [exact Hr | congruence]. Qed.

Lemma apart_panel : apart (fun w => q_startStopBtn (page w)).
Proof. by repeat split. Qed.

Section Panel.
Context (env : Event -> World -> World).
Hypothesis Henv : keeps (fun w => q_startStopBtn (page w)) env.

Lemma panelOn_env e w : panelOn w -> panelOn (env e w).
Proof. unfold panelOn. by rewrite Henv. Qed.

Lemma safe_panel_calm {A} (m : M A) :
  calm (fun w => q_startStopBtn (page w)) m -> safe panelOn m.
Proof. apply (calm_safe (fun w => q_startStopBtn (page w)) m true). Qed.

Lemma safe_setButton l : safe panelOn (setButton l).
Proof.
  intros w H. unfold setButton. rewrite run_get. unfold panelOn in H. rewrite H.
  split; [by exists tt | exact H].
Qed.

Lemma safe_toggleAutomation : safe panelOn toggleAutomation.
Proof.
  intros w H. destruct (isAutomationRunning w) eqn:Hr.
  - rewrite (toggleAutomation_stop w Hr H). split; [by exists tt|].
    unfold panelOn, pausedWorld in *. by destruct (urlObserver w).
  - rewrite (toggleAutomation_start w Hr H). split; [by exists tt|].
    unfold panelOn, startedWorld in *. by destruct (urlObserver w).
Qed.

Ltac safe_step :=
  first
    [ apply safe_ret | apply safe_get | apply safe_log | apply safe_note
    | apply safe_act; apply panelOn_env
    | apply safe_setButton | apply safe_toggleAutomation
    | apply safe_modify; intros ? ?; assumption
    | apply safe_bind; [|intros ?]
    | match goal with
      | |- safe _ (if ?b then _ else _) => destruct b
      | |- safe _ (match ?x with _ => _ end) => destruct x
      end ].

Lemma safe_navigateToNextMainTask : safe panelOn (navigateToNextMainTask env).
Proof. unfold navigateToNextMainTask, sleep, robustClick. repeat safe_step. Qed.

End Panel.
Section Panel2.
Context (env : Event -> World -> World).
Hypothesis Henv : keeps (fun w => q_startStopBtn (page w)) env.

Ltac panel_step :=
  lazymatch goal with
  | |- safe _ (ret _) => apply safe_ret
  | |- safe _ get => apply safe_get
  | |- safe _ (log _ _) => apply safe_log
  | |- safe _ (note _) => apply safe_note
  | |- safe _ (modify _) => apply safe_modify; intros ? ?; assumption
  | |- safe _ (bind _ _) => apply safe_bind; [|intros ?]
  | |- safe _ (navigateToNextMainTask _) => apply (safe_navigateToNextMainTask env Henv)
  | |- safe _ (executeMethod _ _ _) =>
      apply safe_panel_calm; apply (calm_executeMethod _ env Henv apart_panel)
  | |- safe _ (completeAndNavigateTaskInternal _) =>
      apply safe_panel_calm;
        apply (calm_completeAndNavigateTaskInternal _ env Henv)
  | |- safe _ (compositeLoop _ _ _) =>
      apply safe_panel_calm; apply (calm_compositeLoop _ env Henv apart_panel)
  | |- safe _ (if ?b then _ else _) => destruct b
  | |- safe _ (match ?x with _ => _ end) => destruct x
  end.

Lemma safe_processTask name : safe panelOn (processTask env name).
Proof. unfold processTask. repeat panel_step. Qed.
End Panel2.

(** ** The branches of [main] *)

Lemma mainTry_cases env w0 :
  mainTry env w0 =
    match truthyOpt (mjoin (q_menuNodeName (page (env (Sleep 3000 0) w0)))) with
    | None => (Throw ErrNoMainTask, env (Sleep 3000 0) w0, [Sleep 3000 0])
    | Some name =>
        if stalledAt (env (Sleep 3000 0) w0) name
        then prepend [Sleep 3000 0; Log warn (MsgStuck name)]
               (navigateToNextMainTask env (env (Sleep 3000 0) w0))
        else prepend [Sleep 3000 0]
               (processTask env name (taskWorld name (env (Sleep 3000 0) w0)))
    end.
Proof.
  unfold mainTry. mrun. destruct (truthyOpt _) as [name|]; [|reflexivity].
  unfold stalledAt, taskWorld. destruct (_ && _).
  - mrun. by rewrite prepend_prepend.
  - destruct (negb _); mrun; reflexivity.
Qed.

Lemma toggleAutomation_outcome w :
  outcomeOf (toggleAutomation w) = Ret tt \/
  outcomeOf (toggleAutomation w) = Throw ErrNullButton.
Proof.
  destruct (q_startStopBtn (page w)) eqn:Hb.
  - destruct (isAutomationRunning w) eqn:Hr.
    + rewrite (toggleAutomation_stop w Hr Hb). by left.
    + rewrite (toggleAutomation_start w Hr Hb). by left.
  - rewrite (toggleAutomation_gone w Hb). by right.
Qed.

Lemma mainTry_panel env w0 :
  keeps (fun w => q_startStopBtn (page w)) env -> panelOn w0 ->
  panelOn (worldOf (mainTry env w0)).
Proof.
  intros Henv H. rewrite mainTry_cases.
  pose proof (panelOn_env env Henv (Sleep 3000 0) w0 H) as H1.
  destruct (truthyOpt _) as [name|]; [|exact H1].
  destruct (stalledAt _ name).
  - rewrite worldOf_prepend. by apply safe_navigateToNextMainTask.
  - rewrite worldOf_prepend. apply safe_processTask; [exact Henv|].
    unfold taskWorld. by destruct (negb _).
Qed.

Lemma main_outcome env w :
  (outcomeOf (main env w) = Ret tt \/ outcomeOf (main env w) = Throw ErrNullButton) /\
  (keeps (fun w => q_startStopBtn (page w)) env -> panelOn w ->
     outcomeOf (main env w) = Ret tt).
Proof.
  assert (Hg : isProcessing w || negb (isAutomationRunning w) = true ->
               outcomeOf (main env w) = Ret tt).
  { intros H. unfold main. by rewrite H. }
  destruct (isProcessing w || negb (isAutomationRunning w)) eqn:G;
    [split; [left|intros _ _]; by apply Hg|].
  apply orb_false_iff in G as [G1 G2]. apply negb_false_iff in G2.
  rewrite main_active by assumption. cbn [outcomeOf fst].
  change (tryCatch (mainTry env) mainCatch (set_isProcessing true w)).1.1
    with (outcomeOf (tryCatch (mainTry env) mainCatch (set_isProcessing true w))).
  rewrite run_tryCatch.
  destruct (outcomeOf (mainTry env (set_isProcessing true w))) as [[]|e] eqn:Ho.
  { rewrite Ho. split; [by left | done]. }
  rewrite outcomeOf_prepend. unfold mainCatch. rewrite run_log, outcomeOf_prepend.
  split; [apply toggleAutomation_outcome|].
  intros Henv Hb.
  assert (Hp : panelOn (worldOf (mainTry env (set_isProcessing true w))))
    by (by apply mainTry_panel).
  by destruct (safe_toggleAutomation _ Hp) as [[[] ->] _].
Qed.

(** X10.  The only exception that leaves [main] is the one of the missing
    panel button.  With a host that leaves the button in the page, no
    exception leaves [main]. *)
Theorem main_throws_only_without_panel env w :
  (forall e, outcomeOf (main env w) = Throw e -> e = ErrNullButton) /\
  (keeps (fun w => q_startStopBtn (page w)) env -> panelOn w ->
     forall e, outcomeOf (main env w) <> Throw e).
Proof.
  destruct (main_outcome env w) as [H1 H2]. split.
  - intros e He. destruct H1 as [H|H]; rewrite H in He; [discriminate | by injection He].
  - intros Henv Hp e He. by rewrite (H2 Henv Hp) in He.
Qed.

Lemma main_throws_only_without_panel_witness :
  panelOn Sample.unreadable /\
  outcomeOf (main Sample.idle Sample.unreadable) <> Throw ErrNullButton.
Proof.
  split; [reflexivity|].
  apply (proj2 (main_throws_only_without_panel Sample.idle Sample.unreadable)).
  - intros e w. reflexivity.
  - reflexivity.
Defined.

(** ** Navigation *)

Lemma navigateToNextMainTask_cases env w :
  navigateToNextMainTask env w =
    prepend [Sleep 2000 0; Log info MsgNavigating]
      match mjoin (q_menuActivity (page (env (Sleep 2000 0) w))) with
      | None => (Ret tt, env (Sleep 2000 0) w, [Log error MsgCannotLocate])
      | Some currentIndex =>
          match q_sliderMenu (page (env (Sleep 2000 0) w)) !! (currentIndex + 1) with
          | Some taskName =>
              (Ret tt, env (Click (TMenuItem (currentIndex + 1))) (env (Sleep 2000 0) w),
               [Log success (MsgNextTask taskName); Click (TMenuItem (currentIndex + 1))])
          | None =>
              if q_startStopBtn (page (env (Sleep 2000 0) w))
              then prepend [Log success MsgAllDone; SetButton LabelAllDone]
                     (toggleAutomation (env (Sleep 2000 0) w))
              else (Throw ErrNullButton, env (Sleep 2000 0) w, [Log success MsgAllDone])
          end
      end.
Proof.
  unfold navigateToNextMainTask, setButton. mrun. rewrite prepend_prepend. f_equal.
  destruct (mjoin _) as [i|]; [|by mleaf].
  destruct (_ !! _) as [title|]; mrun; [by mleaf|].
  destruct (q_startStopBtn _); mrun; [by rewrite prepend_prepend | by mleaf].
Qed.

(** X11.  [navigateToNextMainTask] clicks at most once, and only the item
    of the menu that comes right after the active one: nothing when no
    item is active or when the active item cannot be found among the items,
    and nothing when the active item is the last one. *)
Theorem navigateToNextMainTask_clicks env w :
  clicksOf (traceOf (navigateToNextMainTask env w)) =
    match mjoin (q_menuActivity (page (env (Sleep 2000 0) w))) with
    | Some currentIndex =>
        match q_sliderMenu (page (env (Sleep 2000 0) w)) !! (S currentIndex) with
        | Some _ => [TMenuItem (S currentIndex)]
        | None => []
        end
    | None => []
    end.
Proof.
  rewrite navigateToNextMainTask_cases, traceOf_prepend, clicksOf_app. cbn [clicksOf app].
  destruct (mjoin _) as [i|]; [|reflexivity].
  replace (i + 1) with (S i) by lia.
  destruct (_ !! _) as [title|]; [reflexivity|].
  destruct (q_startStopBtn _) eqn:Hb; [|reflexivity].
  rewrite traceOf_prepend, clicksOf_app. cbn [clicksOf app].
  destruct (isAutomationRunning (env (Sleep 2000 0) w)) eqn:Hr.
  - rewrite (toggleAutomation_stop _ Hr Hb). unfold pausedTrace. rewrite Hb.
    cbn [traceOf snd]. by destruct (urlObserver _).
  - rewrite (toggleAutomation_start _ Hr Hb). unfold startedTrace.
    cbn [traceOf snd]. by destruct (urlObserver _).
Qed.

(** X12.  When the active item is the last of the menu and the panel is
    there, [navigateToNextMainTask] clicks nothing and calls
    [toggleAutomation].  The caption it sets on the button for the end of
    the course is overwritten at once, by the caption for starting if the
    run was on, which is then stopped, and by the caption for stopping if
    the run had been paused during the wait, which is then started
    again. *)
Theorem navigateToNextMainTask_last_task env w currentIndex :
  mjoin (q_menuActivity (page (env (Sleep 2000 0) w))) = Some currentIndex ->
  q_sliderMenu (page (env (Sleep 2000 0) w)) !! (S currentIndex) = None ->
  panelOn (env (Sleep 2000 0) w) ->
  navigateToNextMainTask env w =
    if isAutomationRunning (env (Sleep 2000 0) w)
    then (Ret tt, pausedWorld (env (Sleep 2000 0) w),
          [Sleep 2000 0; Log info MsgNavigating; Log success MsgAllDone;
           SetButton LabelAllDone] ++ pausedTrace (env (Sleep 2000 0) w))
    else (Ret tt, startedWorld (env (Sleep 2000 0) w),
          [Sleep 2000 0; Log info MsgNavigating; Log success MsgAllDone;
           SetButton LabelAllDone] ++ startedTrace (env (Sleep 2000 0) w)).
Proof.
  intros Hi Hn Hb. rewrite navigateToNextMainTask_cases, Hi.
  replace (currentIndex + 1) with (S currentIndex) by lia. rewrite Hn, Hb.
  destruct (isAutomationRunning (env (Sleep 2000 0) w)) eqn:Hr.
  - by rewrite (toggleAutomation_stop _ Hr Hb).
  - by rewrite (toggleAutomation_start _ Hr Hb).
Qed.

Lemma navigateToNextMainTask_last_task_witness :
  traceOf (navigateToNextMainTask Sample.idle Sample.lastTask) =
    [Sleep 2000 0; Log info MsgNavigating; Log success MsgAllDone;
     SetButton LabelAllDone; SetButton LabelStart; Log warn MsgPaused; ObserverStop;
     Log warn MsgObserverStopped] /\
  isAutomationRunning (worldOf (navigateToNextMainTask Sample.idle Sample.lastTask)) = false.
Proof.
  rewrite (navigateToNextMainTask_last_task Sample.idle Sample.lastTask 1
             eq_refl eq_refl eq_refl).
  split; reflexivity.
Defined.

(** ** What [main] does with a task *)

Lemma action_processing e : isProcessingEvent e = false -> isActionEvent e = false.
Proof. destruct e as [l m|t| | | | | | | | | | | | | |]; try destruct t; done. Qed.

Lemma Forall_action_processing t :
  Forall (fun e => isProcessingEvent e = false) t ->
  Forall (fun e => isActionEvent e = false) t.
Proof. intros H. eapply Forall_impl; [exact H | exact action_processing]. Qed.

(** X13.  When the label of the main task holds none of the ids of the
    task map, and the task is not the stalled one, [main] logs that, does
    nothing but [navigateToNextMainTask], under its own [catch], and ends:
    no handler runs, nothing is submitted and nothing is kept with
    [GM_setValue]. *)
Theorem main_unmapped_task env w name :
  isProcessing w = false -> isAutomationRunning w = true ->
  truthyOpt (mjoin (q_menuNodeName (page (afterEntry env w)))) = Some name ->
  stalledAt (afterEntry env w) name = false ->
  taskOf name = None ->
  traceOf (main env w) =
    Sleep 3000 0 :: Log success (MsgStartMain name) :: Log warn (MsgNotInMap name)
      :: traceOf (tryCatch (navigateToNextMainTask env) mainCatch
                    (taskWorld name (afterEntry env w))) /\
  Forall (fun e => isActionEvent e = false) (traceOf (main env w)).
Proof.
  intros H1 H2 Hl Hs Hf.
  assert (E : mainTry env (set_isProcessing true w) =
              prepend [Sleep 3000 0; Log success (MsgStartMain name);
                       Log warn (MsgNotInMap name)]
                (navigateToNextMainTask env (taskWorld name (afterEntry env w)))).
  { rewrite mainTry_cases. fold (afterEntry env w). rewrite Hl, Hs.
    unfold processTask. fold (taskOf name). rewrite Hf. mrun.
    by rewrite !prepend_prepend. }
  rewrite main_active by assumption. cbn [traceOf snd].
  rewrite (tryCatch_prepend _ _ _ _ _ _ E), traceOf_prepend. split; [reflexivity|].
  apply Forall_app. split; [by repeat constructor|].
  apply Forall_action_processing, tryCatch_Forall;
    [apply navigateToNextMainTask_quiet | apply mainCatch_quiet].
Qed.

Lemma main_unmapped_task_witness :
  traceOf (main Sample.idle Sample.unmapped) =
    [Sleep 3000 0; Log success (MsgStartMain "2-1 Setting the scene");
     Log warn (MsgNotInMap "2-1 Setting the scene");
     Sleep 2000 0; Log info MsgNavigating;
     Log success (MsgNextTask (Some "1-2 iExplore 1: Learning before class"));
     Click (TMenuItem 1)].
Proof.
  rewrite (proj1 (main_unmapped_task Sample.idle Sample.unmapped "2-1 Setting the scene"
                    eq_refl eq_refl eq_refl eq_refl eq_refl)).
  reflexivity.
Defined.








(** X15.  The handlers write into the inputs, into the [video] element and
    into [lastAnsweredSubTask], and into nothing else: a reading of the
    state that those writes leave as it is, and that the host leaves as it
    is, is the same after [executeMethod], after the submit sequence and
    after the loop over the sub-tasks as before. *)
Theorem handlers_frame {X} (proj : World -> X) env :
  keeps proj env -> apart proj ->
  (forall m n w, proj (worldOf (executeMethod env m n w)) = proj w) /\
  (forall w, proj (worldOf (completeAndNavigateTaskInternal env w)) = proj w) /\
  (forall tabs children w, proj (worldOf (compositeLoop env tabs children w)) = proj w).
Proof.
  intros Henv Hproj. split; [|split].
  - intros m n w. apply (calm_executeMethod proj env Henv Hproj m n w).
  - intros w. apply (calm_completeAndNavigateTaskInternal proj env Henv w).
  - intros tabs children w. apply (calm_compositeLoop proj env Henv Hproj tabs children w).
Qed.

Lemma handlers_frame_witness :
  gmStore (worldOf (executeMethod Sample.idle quiz "Application" Sample.translation)) =
    gmStore Sample.translation.
Proof.
  apply (proj1 (handlers_frame gmStore Sample.idle
                  ltac:(by intros e w) ltac:(by repeat split))).
Defined.






(** X17.  A pause during the first wait of [main] stops a task that has
    sub-tasks before any of them is taken up: [main] logs the task and
    returns; no tab is clicked, nothing is submitted, nothing is kept and
    there is no navigation. *)
Theorem main_composite_paused env w name task c children :
  isProcessing w = false -> isAutomationRunning w = true ->
  truthyOpt (mjoin (q_menuNodeName (page (afterEntry env w)))) = Some name ->
  stalledAt (afterEntry env w) name = false ->
  taskOf name = Some task -> kind task = composite (c :: children) ->
  isAutomationRunning (afterEntry env w) = false ->
  main env w =
    (Ret tt, set_isProcessing false (taskWorld name (afterEntry env w)),
     [Sleep 3000 0; Log success (MsgStartMain name)]).
Proof.
  intros H1 H2 Hl Hs Hf Hk Hr.
  assert (Hr' : isAutomationRunning (taskWorld name (afterEntry env w)) = false).
  { unfold taskWorld. by destruct (negb _). }
  assert (E : mainTry env (set_isProcessing true w) =
              (Ret tt, taskWorld name (afterEntry env w),
               [Sleep 3000 0; Log success (MsgStartMain name)])).
  { rewrite mainTry_cases. fold (afterEntry env w). rewrite Hl, Hs.
    unfold processTask. fold (taskOf name). rewrite Hf, Hk. mrun.
    cbn [compositeLoop]. mrun. rewrite Hr'. cbn [negb]. mrun. by mleaf. }
  rewrite main_active by assumption. by rewrite run_tryCatch, E.
Qed.

Lemma main_composite_paused_witness :
  traceOf (main Sample.pausing Sample.reviewing) =
    [Sleep 3000 0; Log success (MsgStartMain "1-3 iExplore 1: Reviewing after class")].
Proof.
  rewrite (main_composite_paused Sample.pausing Sample.reviewing
             "1-3 iExplore 1: Reviewing after class" _ _ _
             eq_refl eq_refl eq_refl eq_refl eq_refl eq_refl eq_refl).
  reflexivity.
Defined.

Lemma truthyOpt_inv o s : truthyOpt o = Some s -> o = Some s /\ s <> "".
Proof.
  destruct o as [x|]; [|discriminate]. unfold truthyOpt.
  destruct x; [discriminate|]. by intros [= <-].
Qed.

Lemma processTask_starts env name w :
  exists r, processTask env name w = prepend [Log success (MsgStartMain name)] r.
Proof. unfold processTask. rewrite run_log. eauto. Qed.

(** X18.  A start clears the stall record.  After [toggleAutomation] has
    started a run, nothing is kept under [lastProcessedTaskName] and
    [lastAnsweredSubTask] is empty; so the invocation of [main] that the
    start schedules, if the host leaves the store alone during its first
    wait and the label can be read, does not take the task for a stalled
    one: it takes it up, be it the task of the last run at the same
    address. *)
Theorem toggleAutomation_start_clears_stall env w name :
  isAutomationRunning w = false -> isProcessing w = false -> panelOn w ->
  gmStore (afterEntry env (startedWorld w)) = gmStore (startedWorld w) ->
  truthyOpt (mjoin (q_menuNodeName (page (afterEntry env (startedWorld w))))) = Some name ->
  toggleAutomation w = (Ret tt, startedWorld w, startedTrace w) /\
  gmStore (startedWorld w) !! "lastProcessedTaskName" = None /\
  lastAnsweredSubTask (startedWorld w) = "" /\
  stalledAt (afterEntry env (startedWorld w)) name = false /\
  exists rest,
    traceOf (main env (startedWorld w)) =
      Sleep 3000 0 :: Log success (MsgStartMain name) :: rest.
Proof.
  intros Hr Hp Hb Hg Hl.
  assert (Hd : gmStore (startedWorld w) !! "lastProcessedTaskName" = None).
  { unfold startedWorld. destruct (urlObserver w); apply lookup_delete_eq. }
  assert (Hs : stalledAt (afterEntry env (startedWorld w)) name = false).
  { unfold stalledAt, GM_getValue. rewrite Hg, Hd. cbn [default].
    apply truthyOpt_inv in Hl as [_ Hne].
    by destruct (String.eqb_spec name "") as [->|_]. }
  split; [by apply toggleAutomation_start|]. split; [exact Hd|].
  split; [unfold startedWorld; by destruct (urlObserver w)|]. split; [exact Hs|].
  assert (Hp' : isProcessing (startedWorld w) = false).
  { unfold startedWorld. by destruct (urlObserver w). }
  assert (Hr' : isAutomationRunning (startedWorld w) = true).
  { unfold startedWorld. by destruct (urlObserver w). }
  rewrite main_active by assumption. cbn [traceOf snd].
  destruct (tryCatch_trace (mainTry env) mainCatch (set_isProcessing true (startedWorld w)))
    as [t' ->].
  rewrite mainTry_cases. fold (afterEntry env (startedWorld w)). rewrite Hl, Hs.
  match goal with
  | |- context [processTask env name ?w1] =>
      destruct (processTask_starts env name w1) as [r ->]
  end.
  rewrite prepend_prepend, traceOf_prepend. simpl. eauto.
Qed.

Lemma toggleAutomation_start_clears_stall_witness :
  stalledAt (afterEntry Sample.idle Sample.stalled) "1-1 Setting the scene" = true /\
  stalledAt (afterEntry Sample.idle (startedWorld (Sample.stopped Sample.stalled)))
    "1-1 Setting the scene" = false.
Proof.
  split; [reflexivity|].
  exact (proj1 (proj2 (proj2 (proj2
    (toggleAutomation_start_clears_stall Sample.idle (Sample.stopped Sample.stalled)
       "1-1 Setting the scene" eq_refl eq_refl eq_refl eq_refl eq_refl))))).
Defined.

(** ** The events of the handlers *)

Section Emits.
Context (P : Event -> Prop).

Lemma emits_ret {A} (a : A) : emits P (ret a).
Proof. intros w. constructor. Qed.

Lemma emits_get : emits P get.
Proof. intros w. constructor. Qed.

Lemma emits_modify f : emits P (modify f).
Proof. intros w. constructor. Qed.

Lemma emits_note e : P e -> emits P (note e).
Proof. intros H w. by repeat constructor. Qed.

Lemma emits_log m l : P (Log l m) -> emits P (log m l).
Proof. apply emits_note. Qed.

Lemma emits_act env e : P e -> emits P (act env e).
Proof. intros H w. by repeat constructor. Qed.

Lemma emits_bind {A B} (m : M A) (k : A -> M B) :
  emits P m -> (forall a, emits P (k a)) -> emits P (bind m k).
Proof.
  intros Hm Hk w. rewrite run_bind. destruct (outcomeOf (m w)) as [a|e].
  - rewrite traceOf_prepend. apply Forall_app. split; [apply Hm | apply Hk].
  - apply Hm.
Qed.
End Emits.

Ltac emits_step :=
  first
    [ apply emits_ret | apply emits_get | apply emits_modify
    | apply emits_log; reflexivity | apply emits_note; reflexivity
    | apply emits_act; reflexivity
    | apply emits_bind; [|intros ?]
    | match goal with
      | |- emits _ (if ?b then _ else _) => destruct b
      | |- emits _ (match ?x with _ => _ end) => destruct x
      end ].

Section HandlerEvents.
Context (env : Event -> World -> World).
Lemma emits_getPageContextAndAnswers : emits (fun e => isHandlerEvent e = true) getPageContextAndAnswers.
Proof. unfold getPageContextAndAnswers. repeat emits_step. Qed.

Lemma emits_choiceLoop items : forall a, emits (fun e => isHandlerEvent e = true) (choiceLoop env items a).
Proof.
  induction items as [|[[i l] blk] items IH]; intros a; cbn [choiceLoop].
  - apply emits_ret.
  - unfold robustClick, sleep. repeat emits_step; apply IH.
Qed.

Lemma emits_fillLoop f items : forall a, emits (fun e => isHandlerEvent e = true) (fillLoop env f items a).
Proof.
  induction items as [|[[i l] v] items IH]; intros a; cbn [fillLoop].
  - apply emits_ret.
  - unfold sleep. repeat emits_step; apply IH.
Qed.

Lemma emits_applyAnswers answers : emits (fun e => isHandlerEvent e = true) (applyAnswers env answers).
Proof.
  unfold applyAnswers.
  repeat first [apply emits_choiceLoop | apply emits_fillLoop | emits_step].
Qed.

Lemma emits_doAnswer : emits (fun e => isHandlerEvent e = true) (doAnswer env).
Proof.
  unfold doAnswer, sleep.
  repeat first [apply emits_getPageContextAndAnswers | apply emits_applyAnswers
               | emits_step].
Qed.

Lemma emits_handleVideoTask : emits (fun e => isHandlerEvent e = true) (handleVideoTask env).
Proof.
  unfold handleVideoTask, muteVideo, seekAndPlay, afterPlay, sleep.
  repeat emits_step.
Qed.

Lemma emits_handleSkippableTask n : emits (fun e => isHandlerEvent e = true) (handleSkippableTask env n).
Proof. unfold handleSkippableTask, sleep. repeat emits_step. Qed.

Lemma emits_vocabularyLoop n : emits (fun e => isHandlerEvent e = true) (vocabularyLoop env n).
Proof.
  induction n as [|n IH]; cbn [vocabularyLoop]; unfold robustClick, sleep;
    repeat emits_step. apply IH.
Qed.

Lemma emits_handleVocabularyTask : emits (fun e => isHandlerEvent e = true) (handleVocabularyTask env).
Proof.
  unfold handleVocabularyTask. repeat first [apply emits_vocabularyLoop | emits_step].
Qed.

Lemma emits_executeMethod m n : emits (fun e => isHandlerEvent e = true) (executeMethod env m n).
Proof.
  unfold executeMethod.
  destruct m; repeat first
    [ apply emits_handleVideoTask | apply emits_handleSkippableTask
    | apply emits_handleVocabularyTask | apply emits_doAnswer | emits_step ].
Qed.

Lemma emits_submitLoop sels : emits (fun e => isHandlerEvent e = true) (submitLoop env sels).
Proof.
  induction sels as [|s sels IH]; cbn [submitLoop]; unfold robustClick, sleep;
    repeat first [apply IH | emits_step].
Qed.

Lemma emits_completeAndNavigateTaskInternal :
  emits (fun e => isHandlerEvent e = true) (completeAndNavigateTaskInternal env).
Proof.
  unfold completeAndNavigateTaskInternal, robustClick, sleep.
  repeat first [apply emits_submitLoop | emits_step].
Qed.
End HandlerEvents.

(** X19.  What the handlers never do.  Every event of [executeMethod] and
    of the submit sequence, whatever the method and whatever the host
    does, is a log line of a handler, a wait, a click on an option, on the
    flashcard control or on a button of the question, a write into an
    input with its [input] event, or an operation on the video: the
    handlers click no tab and no item of the menu, keep and delete nothing
    in the store, do not touch the observer or the panel button, and
    schedule no call of [main]. *)
Theorem handlers_events env :
  (forall m n w, Forall (fun e => isHandlerEvent e = true) (traceOf (executeMethod env m n w))) /\
  (forall w, Forall (fun e => isHandlerEvent e = true)
               (traceOf (completeAndNavigateTaskInternal env w))).
Proof.
  split.
  - intros m n. apply emits_executeMethod.
  - apply emits_completeAndNavigateTaskInternal.
Qed.

(** ** The order of the tabs *)







(** ** The observer of the address *)

Lemma observerAfter_app t1 : forall c t2,
  observerAfter c (t1 ++ t2) =
    match observerAfter c t1 with
    | Some c1 => observerAfter c1 t2
    | None => None
    end.
Proof.
  induction t1 as [|e t1 IH]; intros c t2; [reflexivity|].
  destruct e; cbn [app observerAfter]; try apply IH; destruct c; try reflexivity; apply IH.
Qed.

Lemma handler_observer t c :
  Forall (fun e => isHandlerEvent e = true) t -> observerAfter c t = Some c.
Proof.
  induction 1 as [|e t He _ IH]; [reflexivity|].
  destruct e; try discriminate; exact IH.
Qed.

Lemma tracks_handler {A} (m : M A) :
  calm urlObserver m -> emits (fun e => isHandlerEvent e = true) m -> tracks m.
Proof.
  intros Hc He w. rewrite (handler_observer _ _ (He w)). f_equal.
  symmetry. apply Hc.
Qed.

Lemma tracks_ret {A} (a : A) : tracks (ret a).
Proof. by intros w. Qed.

Lemma tracks_throw {A} e : tracks (throw (A:=A) e).
Proof. by intros w. Qed.

Lemma tracks_get : tracks get.
Proof. by intros w. Qed.

Lemma tracks_modify f : (forall w, urlObserver (f w) = urlObserver w) -> tracks (modify f).
Proof. intros H w. cbn. by rewrite H. Qed.

Lemma tracks_note e :
  (forall c, observerAfter c [e] = Some c) -> tracks (note e).
Proof. intros H w. apply H. Qed.

Lemma tracks_log m l : tracks (log m l).
Proof. by apply tracks_note. Qed.

Lemma tracks_act env e :
  keeps urlObserver env -> (forall c, observerAfter c [e] = Some c) -> tracks (act env e).
Proof. intros Henv H w. cbn [act traceOf worldOf fst snd]. by rewrite H, Henv. Qed.

Lemma tracks_bind {A B} (m : M A) (k : A -> M B) :
  tracks m -> (forall a, tracks (k a)) -> tracks (bind m k).
Proof.
  intros Hm Hk w. rewrite run_bind. destruct (outcomeOf (m w)) as [a|e].
  - rewrite traceOf_prepend, worldOf_prepend, observerAfter_app, Hm. apply Hk.
  - apply Hm.
Qed.

Lemma tracks_tryCatch {A} (m : M A) h :
  tracks m -> (forall e, tracks (h e)) -> tracks (tryCatch m h).
Proof.
  intros Hm Hh w. rewrite run_tryCatch. destruct (outcomeOf (m w)) as [a|e].
  - apply Hm.
  - rewrite traceOf_prepend, worldOf_prepend, observerAfter_app, Hm. apply Hh.
Qed.

Ltac tracks_step :=
  first
    [ apply tracks_ret | apply tracks_throw | apply tracks_get | apply tracks_log
    | apply tracks_note; intros []; reflexivity
    | apply tracks_act; [assumption | intros []; reflexivity]
    | apply tracks_modify; intros ?; reflexivity
    | apply tracks_bind; [|intros ?]
    | match goal with
      | |- tracks (if ?b then _ else _) => destruct b
      | |- tracks (match ?x with _ => _ end) => destruct x
      end ].

Lemma tracks_startObserver : tracks startObserver.
Proof.
  intros w. unfold startObserver. mrun.
  destruct (urlObserver w) eqn:E; mrun; mleaf; rewrite ?E; reflexivity.
Qed.

Lemma tracks_stopObserver : tracks stopObserver.
Proof.
  intros w. unfold stopObserver. mrun.
  destruct (urlObserver w) eqn:E; mrun; mleaf; rewrite ?E; reflexivity.
Qed.

Lemma tracks_toggleAutomation : tracks toggleAutomation.
Proof.
  unfold toggleAutomation, setButton.
  repeat first [apply tracks_startObserver | apply tracks_stopObserver | tracks_step].
Qed.

Lemma apart_urlObserver : apart urlObserver.
Proof. by repeat split. Qed.

Section Tracks.
Context (env : Event -> World -> World).
Hypothesis Henv : keeps urlObserver env.

Lemma tracks_navigateToNextMainTask : tracks (navigateToNextMainTask env).
Proof.
  unfold navigateToNextMainTask, setButton, sleep, robustClick.
  repeat first [apply tracks_toggleAutomation | tracks_step].
Qed.

Lemma tracks_executeMethod m n : tracks (executeMethod env m n).
Proof.
  apply tracks_handler;
    [by apply calm_executeMethod; [|apply apart_urlObserver] | apply emits_executeMethod].
Qed.

Lemma tracks_completeAndNavigateTaskInternal :
  tracks (completeAndNavigateTaskInternal env).
Proof.
  apply tracks_handler;
    [by apply calm_completeAndNavigateTaskInternal
    | apply emits_completeAndNavigateTaskInternal].
Qed.

Lemma tracks_compositeLoop tabs children : tracks (compositeLoop env tabs children).
Proof.
  induction children as [|c children IH]; cbn [compositeLoop]; unfold sleep, robustClick;
    repeat first [apply IH | apply tracks_executeMethod
                 | apply tracks_completeAndNavigateTaskInternal | tracks_step].
Qed.

Lemma tracks_processTask name : tracks (processTask env name).
Proof.
  unfold processTask.
  repeat first [apply tracks_navigateToNextMainTask | apply tracks_executeMethod
               | apply tracks_completeAndNavigateTaskInternal
               | apply tracks_compositeLoop | tracks_step].
Qed.

Lemma tracks_mainTry : tracks (mainTry env).
Proof.
  unfold mainTry, sleep.
  repeat first [apply tracks_navigateToNextMainTask | apply tracks_processTask
               | tracks_step].
Qed.

Lemma tracks_main : tracks (main env).
Proof.
  intros w. unfold main. destruct (_ || _); [reflexivity|].
  unfold tryFinally.
  pose proof (tracks_tryCatch (mainTry env) mainCatch tracks_mainTry
                (fun e => ltac:(unfold mainCatch;
                                repeat first [apply tracks_toggleAutomation | tracks_step]))
                (set_isProcessing true w)) as H.
  destruct (tryCatch (mainTry env) mainCatch (set_isProcessing true w)) as [[o w1] t1].
  exact H.
Qed.

Lemma tracks_runTops calls : forall w,
  observerAfter (urlObserver w) (runTops env w calls).2 =
    Some (urlObserver (runTops env w calls).1).
Proof.
  induction calls as [|[] calls IH]; intros w; [reflexivity| |];
    cbn [runTops fst snd]; rewrite observerAfter_app.
  - rewrite tracks_main. apply IH.
  - rewrite tracks_toggleAutomation. apply IH.
Qed.
End Tracks.

(** X21.  The flag [urlObserver] tells at every moment whether an observer
    is connected.  Through every sequence of invocations of [main] and of
    [toggleAutomation], with a host that does not touch the flag, the
    script connects an observer only when none is connected and
    disconnects one only when one is connected, and the flag at the end is
    set exactly when an observer is connected then: the script never has
    two observers on the page. *)
Theorem urlObserver_tells_observer env w calls :
  keeps urlObserver env ->
  observerAfter (urlObserver w) (runTops env w calls).2 =
    Some (urlObserver (runTops env w calls).1).
Proof. intros Henv. by apply tracks_runTops. Qed.

Lemma urlObserver_tells_observer_witness :
  observerAfter false
    (runTops Sample.idle (Sample.stopped Sample.stalled)
       [CallToggle; CallMain; CallToggle; CallToggle]).2 = Some true.
Proof.
  exact (urlObserver_tells_observer Sample.idle (Sample.stopped Sample.stalled)
           [CallToggle; CallMain; CallToggle; CallToggle] ltac:(by intros e w)).
Defined.

Lemma observe_same lastUrl ws :
  Forall (fun w' => href w' = lastUrl) ws -> observe lastUrl ws = (lastUrl, []).
Proof.
  induction 1 as [|w ws Hw _ IH]; [reflexivity|].
  cbn [observe]. unfold observerCallback at 1 2 3. rewrite Hw, String.eqb_refl.
  cbn [negb fst snd]. by rewrite IH.
Qed.

(** X22.  The observer acts once for each address.  Of the callbacks that
    run while the address stays the same, only the first can log the jump
    and schedule [main]; all the later ones do nothing, since the first has
    set [lastUrl].  So when that first callback finds [isProcessing] set,
    no call of [main] is scheduled for this address, not even by a later
    callback that runs after [isProcessing] has been cleared. *)
Theorem observerCallback_once lastUrl w ws :
  Forall (fun w' => href w' = href w) ws ->
  observe lastUrl (w :: ws) = observerCallback lastUrl w /\
  (isProcessing w = true ->
   forall ms, SetTimeoutMain ms ∉ (observe lastUrl (w :: ws)).2).
Proof.
  intros H.
  assert (E : observe lastUrl (w :: ws) = observerCallback lastUrl w).
  { cbn [observe].
    assert (Hl : Forall (fun w' => href w' = (observerCallback lastUrl w).1) ws).
    { unfold observerCallback. destruct (String.eqb_spec (href w) lastUrl) as [<-|_]; exact H. }
    rewrite (observe_same _ _ Hl). cbn [fst snd]. rewrite app_nil_r.
    by destruct (observerCallback lastUrl w). }
  split; [exact E|]. intros Hp ms. rewrite E. unfold observerCallback. rewrite Hp.
  destruct (negb _); cbn [snd negb andb]; [|apply not_elem_of_nil].
  intros Hin. apply elem_of_cons in Hin as [?|Hin]; [discriminate|].
  by apply not_elem_of_nil in Hin.
Qed.

Lemma observerCallback_once_witness :
  (observe "https://ucontent.unipus.cn/course/0"
     [Sample.inFlight Sample.stalled; Sample.stalled; Sample.stalled]).2 = [LogPageJump].
Proof.
  rewrite (proj1 (observerCallback_once "https://ucontent.unipus.cn/course/0"
                    (Sample.inFlight Sample.stalled) [Sample.stalled; Sample.stalled]
                    ltac:(by repeat constructor))).
  reflexivity.
Defined.

(** ** The submit sequence *)

Lemma submitLoop_clicks env sels : forall w,
  exists (b : bool) (post : list Target),
    outcomeOf (submitLoop env sels w) = Ret b /\
    clicksOf (traceOf (submitLoop env sels w)) = post /\
    (if b
     then exists s, s ∈ sels /\ (post = [TSubmit s] \/ post = [TSubmit s; TConfirm])
     else post = []) /\
    elapsed (traceOf (submitLoop env sels w)) <= 3000.
Proof.
  induction sels as [|s sels IH]; intros w.
  { exists false, []. repeat split. cbn [submitLoop ret traceOf snd elapsed]. lia. }
  cbn [submitLoop]. mrun.
  assert (Hrest : exists (b : bool) (post : list Target),
    outcomeOf (submitLoop env sels w) = Ret b /\
    clicksOf (traceOf (submitLoop env sels w)) = post /\
    (if b
     then exists s', s' ∈ s :: sels /\ (post = [TSubmit s'] \/ post = [TSubmit s'; TConfirm])
     else post = []) /\
    elapsed (traceOf (submitLoop env sels w)) <= 3000).
  { destruct (IH w) as (b & post & Ho & Hc & Hp & He). exists b, post.
    repeat split; try done. destruct b; [|done].
    destruct Hp as (s' & Hin & Hp). exists s'. split; [by right | done]. }
  destruct (querySubmit (page w) s) as [btn|]; [|exact Hrest].
  destruct (btnVisible btn && isSubmitCaption (btnText btn)); [|exact Hrest].
  mrun. destruct (q_confirmBtn _); mrun; rewrite ?prepend_prepend;
    rewrite outcomeOf_prepend, traceOf_prepend, clicksOf_app, elapsed_app;
    unfold ret, sleep, act; cbn [outcomeOf traceOf fst snd clicksOf elapsed app].
  - exists true, [TSubmit s; TConfirm]. repeat split; [|lia].
    exists s. split; [by left | by right].
  - exists true, [TSubmit s]. repeat split; [|lia].
    exists s. split; [by left | by left].
Qed.

(** X23.  An invocation of the submit sequence, whatever the host does,
    clicks at most one "next question" button, then at most one submit
    button, the one of one of the three selectors, and the confirmation
    only after a submit button; it returns [true] exactly when it has
    clicked a submit button, and its waits add up to between 1 and
    6 seconds. *)
Theorem completeAndNavigateTaskInternal_clicks env w :
  exists (b : bool) (pre post : list Target),
    outcomeOf (completeAndNavigateTaskInternal env w) = Ret b /\
    clicksOf (traceOf (completeAndNavigateTaskInternal env w)) = pre ++ post /\
    (pre = [] \/ exists k, pre = [TNextQuestion k]) /\
    (if b
     then exists s, s < 3 /\ (post = [TSubmit s] \/ post = [TSubmit s; TConfirm])
     else post = []) /\
    1000 <= elapsed (traceOf (completeAndNavigateTaskInternal env w)) <= 2 * 3000.
Proof.
  unfold completeAndNavigateTaskInternal. mrun.
  assert (Hsub : forall w1, exists (b : bool) (post : list Target),
    outcomeOf (submitLoop env [0; 1; 2] w1) = Ret b /\
    clicksOf (traceOf (submitLoop env [0; 1; 2] w1)) = post /\
    (if b
     then exists s, s < 3 /\ (post = [TSubmit s] \/ post = [TSubmit s; TConfirm])
     else post = []) /\
    elapsed (traceOf (submitLoop env [0; 1; 2] w1)) <= 3000).
  { intros w1. destruct (submitLoop_clicks env [0; 1; 2] w1) as (b & post & Ho & Hc & Hp & He).
    exists b, post. repeat split; try done. destruct b; [|done].
    destruct Hp as (s & Hin & Hp). exists s. split; [|done].
    repeat (apply elem_of_cons in Hin as [->|Hin]; [lia|]). by apply elem_of_nil in Hin. }
  destruct (findIndex _ _) as [[k btn]|].
  - destruct (negb (btnDisabled btn)); mrun.
    + rewrite !prepend_prepend.
      match goal with |- context [submitLoop env _ ?w1] =>
        destruct (Hsub w1) as (b & post & Ho & Hc & Hp & He) end.
      exists b, [TNextQuestion k], post.
      rewrite outcomeOf_prepend, traceOf_prepend, clicksOf_app, elapsed_app, Hc.
      repeat split; [done | by right; exists k | done | cbn [elapsed app]; lia | cbn [elapsed app]; lia].
    + match goal with |- context [submitLoop env _ ?w1] =>
        destruct (Hsub w1) as (b & post & Ho & Hc & Hp & He) end.
      exists b, [], post.
      rewrite outcomeOf_prepend, traceOf_prepend, clicksOf_app, elapsed_app, Hc.
      repeat split; [done | by left | done | cbn [elapsed app]; lia | cbn [elapsed app]; lia].
  - mrun.
    match goal with |- context [submitLoop env _ ?w1] =>
      destruct (Hsub w1) as (b & post & Ho & Hc & Hp & He) end.
    exists b, [], post.
    rewrite outcomeOf_prepend, traceOf_prepend, clicksOf_app, elapsed_app, Hc.
    repeat split; [done | by left | done | cbn [elapsed app]; lia | cbn [elapsed app]; lia].
Qed.

Lemma submitLoop_priority env sels :
  keeps page env -> forall w,
  exists w',
    submitLoop env sels w =
      match List.find (submittable (page w)) sels with
      | Some s => (Ret true, w', submitTrace (page w) s)
      | None => (Ret false, w', [])
      end.
Proof.
  intros Henv. induction sels as [|s sels IH]; intros w; [by exists w|].
  cbn [submitLoop List.find]. mrun. unfold submittable at 1, submitTrace.
  destruct (querySubmit (page w) s) as [btn|] eqn:Eq; [|apply IH].
  destruct (btnVisible btn && isSubmitCaption (btnText btn)); [|apply IH].
  mrun. rewrite !Henv. destruct (q_confirmBtn (page w)); mrun; mleaf; rewrite Eq; eauto.
Qed.

(** X24.  On a page that the host leaves as it is, the submit sequence
    clicks the "next question" button if the first primary button with
    that caption is enabled, then takes the three selectors in their
    order and clicks the button of the first one whose button is there, is
    shown and has a caption of submitting; a button that is hidden or has
    another caption does not end the search, and the third selector sees
    no primary button but the first enabled one.  It confirms if a
    confirmation is there, and returns whether a selector was found. *)
Theorem completeAndNavigateTaskInternal_priority env w :
  keeps page env ->
  outcomeOf (completeAndNavigateTaskInternal env w) =
    Ret (bool_decide (is_Some (List.find (submittable (page w)) [0; 1; 2]))) /\
  traceOf (completeAndNavigateTaskInternal env w) =
    Sleep 1000 0 :: nextQuestionTrace (page w) ++
    match List.find (submittable (page w)) [0; 1; 2] with
    | Some s => submitTrace (page w) s
    | None => []
    end.
Proof.
  intros Henv. unfold completeAndNavigateTaskInternal, nextQuestionTrace. mrun.
  rewrite Henv.
  assert (Hsub : forall w1, page w1 = page w ->
    outcomeOf (submitLoop env [0; 1; 2] w1) =
      Ret (bool_decide (is_Some (List.find (submittable (page w)) [0; 1; 2]))) /\
    traceOf (submitLoop env [0; 1; 2] w1) =
      match List.find (submittable (page w)) [0; 1; 2] with
      | Some s => submitTrace (page w) s
      | None => []
      end).
  { intros w1 Hp. destruct (submitLoop_priority env [0; 1; 2] Henv w1) as [w' ->].
    rewrite Hp. by destruct (List.find _ _). }
  destruct (findIndex _ _) as [[k btn]|].
  - destruct (negb (btnDisabled btn)); mrun.
    + rewrite !prepend_prepend, outcomeOf_prepend, traceOf_prepend.
      match goal with |- context [submitLoop env _ ?w1] =>
        destruct (Hsub w1) as [-> ->]; [by rewrite !Henv|] end.
      done.
    + rewrite outcomeOf_prepend, traceOf_prepend.
      match goal with |- context [submitLoop env _ ?w1] =>
        destruct (Hsub w1) as [-> ->]; [by rewrite !Henv|] end.
      done.
  - mrun. rewrite outcomeOf_prepend, traceOf_prepend.
    match goal with |- context [submitLoop env _ ?w1] =>
      destruct (Hsub w1) as [-> ->]; [by rewrite !Henv|] end.
    done.
Qed.

Lemma completeAndNavigateTaskInternal_priority_witness :
  traceOf (completeAndNavigateTaskInternal Sample.idle Sample.submitting) =
    [Sleep 1000 0; Log info (MsgSubmit "提交"); Click (TSubmit 1); Sleep 1500 0;
     Log info MsgConfirm; Click TConfirm; Sleep 1500 0].
Proof.
  rewrite (proj2 (completeAndNavigateTaskInternal_priority Sample.idle Sample.submitting
                    ltac:(by intros e w))).
  reflexivity.
Defined.

(** ** The video handler, without an element and on the listener path *)

(** X25.  Without a [video] element [handleVideoTask] returns [true] at
    once: it logs nothing, waits for nothing and leaves the state as it
    is. *)
Theorem handleVideoTask_without_video env w :
  q_video (page w) = None -> handleVideoTask env w = (Ret true, w, []).
Proof. intros H. unfold handleVideoTask. mrun. by rewrite H. Qed.

Lemma handleVideoTask_without_video_witness :
  handleVideoTask Sample.idle Sample.unreadable = (Ret true, Sample.unreadable, []).
Proof. exact (handleVideoTask_without_video Sample.idle Sample.unreadable eq_refl). Defined.

(** X26.  With a [video] element that is not ready ([readyState] below
    2), [handleVideoTask] mutes it, then arms the timer of 5000 ms beside
    the listener of [canplay], and returns [true] after 5000 ms at the
    latest: when [onCanPlay] has ended, if [canplay] and the promise of
    [play()] took no more than 5000 ms together, and when the timer fires
    otherwise, be it that [canplay] never comes. *)
Theorem handleVideoTask_listener_ceiling env w v :
  q_video (page w) = Some v -> readyState v < 2 ->
  outcomeOf (handleVideoTask env w) = Ret true /\
  traceOf (handleVideoTask env w) =
    [Log info MsgVideo; VideoMute; ListenCanPlay; ArmTimeout 5000] ++
    match canplayAfter v with
    | Some c =>
        if Nat.ltb c 5000 then
          [Sleep c 0; VideoSeek (seekTarget (duration (videoAfter env w v c)));
           VideoPlay] ++
          (if Nat.leb (c + playLatency (videoAfter env w v c)) 5000
           then Sleep (playLatency (videoAfter env w v c)) 0
                  :: playEnd (videoAfter env w v c)
           else [Sleep (5000 - c) 0])
        else [Sleep 5000 0]
    | None => [Sleep 5000 0]
    end /\
  elapsed (traceOf (handleVideoTask env w)) =
    match canplayAfter v with
    | Some c => Nat.min (c + playLatency (videoAfter env w v c)) 5000
    | None => 5000
    end /\
  elapsed (traceOf (handleVideoTask env w)) <= 5000.
Proof.
  intros Hv Hr. destruct (handleVideoTask_waiting env w v Hv Hr) as [w' ->].
  split; [reflexivity|]. split; [reflexivity|]. cbn [traceOf snd].
  assert (E : elapsed
                ([Log info MsgVideo; VideoMute; ListenCanPlay; ArmTimeout 5000] ++
                 match canplayAfter v with
                 | Some c =>
                     if Nat.ltb c 5000 then
                       [Sleep c 0; VideoSeek (seekTarget (duration (videoAfter env w v c)));
                        VideoPlay] ++
                       (if Nat.leb (c + playLatency (videoAfter env w v c)) 5000
                        then Sleep (playLatency (videoAfter env w v c)) 0
                               :: playEnd (videoAfter env w v c)
                        else [Sleep (5000 - c) 0])
                     else [Sleep 5000 0]
                 | None => [Sleep 5000 0]
                 end) =
              match canplayAfter v with
              | Some c => Nat.min (c + playLatency (videoAfter env w v c)) 5000
              | None => 5000
              end).
  { rewrite elapsed_app. destruct (canplayAfter v) as [c|]; [|cbn [elapsed]; lia].
    destruct (Nat.ltb_spec c 5000) as [Hc|Hc]; [|cbn [elapsed]; lia].
    rewrite elapsed_app.
    destruct (Nat.leb_spec (c + playLatency (videoAfter env w v c)) 5000) as [Hp|Hp].
    - cbn [elapsed]. rewrite elapsed_playEnd. lia.
    - cbn [elapsed]. lia. }
  split; [exact E|]. rewrite E. destruct (canplayAfter v); lia.
Qed.

Lemma handleVideoTask_listener_ceiling_witness :
  elapsed (traceOf (handleVideoTask Sample.idle Sample.stalledVideo)) = 5000 /\
  elapsed (traceOf (handleVideoTask Sample.idle Sample.arriving)) <= 5000.
Proof.
  split.
  - exact (proj1 (proj2 (proj2 (handleVideoTask_listener_ceiling Sample.idle
                                  Sample.stalledVideo Sample.slowVideo eq_refl
                                  ltac:(simpl; lia))))).
  - exact (proj2 (proj2 (proj2 (handleVideoTask_listener_ceiling Sample.idle
                                  Sample.arriving Sample.arrivingVideo eq_refl
                                  ltac:(simpl; lia))))).
Defined.


